(** * The installation manager of moltworker, embedded and verified

    Source: [src/installation.ts] (class [InstallationManager]) and the
    plugin routes of [src/routes/api.ts].

    The manager drives a Cloudflare sandbox: it starts command lines in a
    container, waits for them, reads their logs, and keeps a JSON manifest
    of what is installed in a file of the container.  Its methods are
    [async] functions, so they are embedded as programs of a small monad
    [Prog] whose operations are the calls that leave the manager (the
    sandbox, the clock, the random source, the console) and the accesses to
    the JavaScript heap.  One interpreter runs a program to completion
    against a model of the container; a second one interleaves several
    programs at their [await]s.

    What the model leaves out.  The container answers every call at once:
    a file is written when the [echo] that writes it is started, although
    the manager does not wait for that process.  The command lines of the
    install and uninstall tools are opaque, and the shell is not modelled:
    no quoting, no effect of a tool on the manifest file.  Text that is
    JSON stands for the value it denotes, and numbers are integers. *)

From stdpp Require Import base option list strings gmap.
From Stdlib Require Import ZArith Lia Ascii.

Set Warnings "-register-all".
Local Open Scope Z_scope.
Local Open Scope string_scope.

(** ** JavaScript values

    What [JSON.parse] returns has type [any]; the manager reads and assigns
    properties of it, so the values are modelled untyped.  Numbers are
    integers here.  An array carries, next to its items, the properties
    that were assigned to it by name ([extra]): [JSON.stringify] leaves
    them out. *)

Inductive value : Type :=
| VUndefined
| VNull
| VBool (b : bool)
| VNum (n : Z)
| VStr (s : string)
| VArr (items : list value) (extra : list (string * value))
| VObj (fields : list (string * value)).

(** What is thrown: an instance of [Error] with its name and message, or
    any other value. *)
Inductive thrown : Type :=
| JsError (name message : string)
| NonError (v : value).

Definition TypeError (message : string) : thrown := JsError "TypeError" message.
Definition SyntaxError (message : string) : thrown := JsError "SyntaxError" message.

Abbreviation result A := (sum thrown A).

(** Properties of an object, in insertion order. *)
Fixpoint assoc_get {A} (k : string) (l : list (string * A)) : option A :=
  match l with
  | [] => None
  | (k', v) :: l' => if String.eqb k k' then Some v else assoc_get k l'
  end.

Fixpoint assoc_set {A} (k : string) (v : A) (l : list (string * A)) : list (string * A) :=
  match l with
  | [] => [(k, v)]
  | (k', v') :: l' =>
      if String.eqb k k' then (k, v) :: l' else (k', v') :: assoc_set k v l'
  end.

(** [typeof]-like description used in the messages of type errors. *)
Definition describe (v : value) : string :=
  match v with
  | VUndefined => "undefined"
  | VNull => "null"
  | VBool _ => "boolean"
  | VNum _ => "number"
  | VStr _ => "string"
  | VArr _ _ | VObj _ => "object"
  end.

(** [v.k], for the keys the manager uses ([plugins], [skills], [name],
    [slug], [lastUpdated]): none of them is a built-in property of a
    primitive, of an array or of a plain object. *)
Definition get_prop (v : value) (k : string) : result value :=
  match v with
  | VUndefined | VNull =>
      inl (TypeError ("Cannot read properties of " ++ describe v ++ " (reading '" ++ k ++ "')"))
  | VBool _ | VNum _ | VStr _ => inr VUndefined
  | VArr _ extra => inr (default VUndefined (assoc_get k extra))
  | VObj fields => inr (default VUndefined (assoc_get k fields))
  end.

(** [v.k = x] in strict mode (the file is an ES module). *)
Definition set_prop (v : value) (k : string) (x : value) : result value :=
  match v with
  | VUndefined | VNull =>
      inl (TypeError ("Cannot set properties of " ++ describe v ++ " (setting '" ++ k ++ "')"))
  | VBool _ | VNum _ | VStr _ =>
      inl (TypeError ("Cannot create property '" ++ k ++ "' on " ++ describe v))
  | VArr items extra => inr (VArr items (assoc_set k x extra))
  | VObj fields => inr (VObj (assoc_set k x fields))
  end.

Definition truthy (v : value) : bool :=
  match v with
  | VUndefined | VNull => false
  | VBool b => b
  | VNum n => negb (Z.eqb n 0)
  | VStr s => negb (String.eqb s "")
  | VArr _ _ | VObj _ => true
  end.

(** [a || b] *)
Definition js_or (a b : value) : value := if truthy a then a else b.

(** [v !== s] for a string [s]: only a string with the same characters is
    strictly equal to [s]. *)
Definition strict_neq_str (v : value) (s : string) : bool :=
  match v with
  | VStr s' => negb (String.eqb s' s)
  | _ => true
  end.

(** [v.push(x)]: only an array has a callable [push] (a property [push]
    assigned by name would shadow it, and no JSON value is callable). *)
Definition js_push (v : value) (x : value) : result value :=
  match v with
  | VArr items extra =>
      match assoc_get "push" extra with
      | None => inr (VArr (items ++ [x]) extra)
      | Some _ => inl (TypeError "push is not a function")
      end
  | VUndefined | VNull =>
      inl (TypeError ("Cannot read properties of " ++ describe v ++ " (reading 'push')"))
  | _ => inl (TypeError "push is not a function")
  end.

(** [items.filter(f)] where the callback may throw: the first exception
    leaves the loop. *)
Fixpoint filter_items (f : value -> result bool) (items : list value) : result (list value) :=
  match items with
  | [] => inr []
  | x :: rest =>
      match f x with
      | inl e => inl e
      | inr keep =>
          match filter_items f rest with
          | inl e => inl e
          | inr rest' => inr (if keep then x :: rest' else rest')
          end
      end
  end.

(** [v.filter(f)]: a fresh array, without the named properties of [v]. *)
Definition js_filter (v : value) (f : value -> result bool) : result value :=
  match v with
  | VArr items extra =>
      match assoc_get "filter" extra with
      | None =>
          match filter_items f items with
          | inl e => inl e
          | inr items' => inr (VArr items' [])
          end
      | Some _ => inl (TypeError "filter is not a function")
      end
  | VUndefined | VNull =>
      inl (TypeError ("Cannot read properties of " ++ describe v ++ " (reading 'filter')"))
  | _ => inl (TypeError "filter is not a function")
  end.

(** ** JSON text

    [JSON.parse] and [JSON.stringify] belong to the runtime.  A piece of
    text is represented either by its characters, when it is not JSON, or
    by the value it denotes, when it is: the grammar of JSON is not
    modelled. *)

Inductive text : Type :=
| Plain (s : string)
| JsonText (v : value).

Definition text_empty (t : text) : bool :=
  match t with
  | Plain s => String.eqb s ""
  | JsonText _ => false
  end.

(** [t || d] for a string [t] *)
Definition text_or (t d : text) : text := if text_empty t then d else t.

(** What [JSON.stringify] keeps of a value: properties whose value is
    [undefined] and the named properties of arrays are dropped, and an
    [undefined] item of an array becomes [null]. *)
Fixpoint to_json (v : value) : value :=
  match v with
  | VArr items _ =>
      VArr (map (fun x => match x with VUndefined => VNull | _ => to_json x end) items) []
  | VObj fields =>
      VObj ((fix go (l : list (string * value)) : list (string * value) :=
               match l with
               | [] => []
               | (k, VUndefined) :: l' => go l'
               | (k, x) :: l' => (k, to_json x) :: go l'
               end) fields)
  | _ => v
  end.

(** [`${JSON.stringify(v)}`]: of [undefined], [JSON.stringify] returns
    [undefined], which the template prints by name. *)
Definition JSON_stringify (v : value) : text :=
  match v with
  | VUndefined => Plain "undefined"
  | _ => JsonText (to_json v)
  end.

Definition JSON_parse (t : text) : result value :=
  match t with
  | Plain s => inl (SyntaxError ("Unexpected token in JSON: " ++ s))
  | JsonText v => inr v
  end.

(** ** Records of the manager *)

(** Modelled from the spec: the types [InstallationStatus] and
    [InstallationJob] of [./types], which [installation.ts] imports and
    which is not among the sources.  "Installation Job: [id], [type] (one
    of [plugin] | [skill]), [target], [status] (one of [installing],
    [completed], [failed]), [startedAt], [completedAt], [output], [error]";
    the fields that [installPlugin] does not set at creation are optional. *)
Inductive InstallationStatus : Type := installing | completed | failed.

(** ['plugin' | 'skill'] *)
Inductive TargetType : Type := plugin | skill.

(** [Job.set_status x] and the like are the assignments [job.status = x]. *)
Module Job.
Record InstallationJob : Type := {
  id : string;
  type : TargetType;
  target : string;
  status : InstallationStatus;
  startedAt : option string;
  completedAt : option string;
  output : list text;
  error : option string
}.

Definition set_status (x : InstallationStatus) (j : InstallationJob) :=
  {| id := id j; type := type j; target := target j; status := x;
     startedAt := startedAt j; completedAt := completedAt j;
     output := output j; error := error j |}.
Definition set_completedAt (x : string) (j : InstallationJob) :=
  {| id := id j; type := type j; target := target j; status := status j;
     startedAt := startedAt j; completedAt := Some x;
     output := output j; error := error j |}.
Definition set_output (x : list text) (j : InstallationJob) :=
  {| id := id j; type := type j; target := target j; status := status j;
     startedAt := startedAt j; completedAt := completedAt j;
     output := x; error := error j |}.
Definition set_error (x : string) (j : InstallationJob) :=
  {| id := id j; type := type j; target := target j; status := status j;
     startedAt := startedAt j; completedAt := completedAt j;
     output := output j; error := Some x |}.
End Job.
Export Job (InstallationJob).

(** ** The sandbox and the runtime, as the manager sees them *)

(** A command line.  The command that writes the manifest carries JSON
    text, so it is kept apart from the lines that are plain strings:
    [EchoTo payload path] is [`echo '${payload}' > ${path}`]. *)
Inductive command : Type :=
| Sh (line : string)
| EchoTo (payload : text) (path : string).

(** A process handle: the index of the process in the container. *)
Definition Process : Type := nat.

(** Job objects and [Map] objects are shared and changed in place, so
    they live in a heap and programs hold references to them. *)
Definition jobref : Type := nat.
Definition mapref : Type := nat.

Record Logs : Type := { stdout : text; stderr : text }.

(** [console.log] and [console.error], with their second argument. *)
Inductive console_level : Type := console_log | console_error.

Inductive logarg : Type :=
| ArgExit (code : option Z)
| ArgText (t : text)
| ArgThrown (e : thrown).

(** The operations of a program: what an [async] method of the manager
    asks of its environment.  [StartProcess], [WaitForProcess] and
    [GetLogs] are awaited, and may be rejected.  [ExitCode] reads
    [proc.exitCode].  [NewMap], [MapSet], [MapGet] and [MapValues] are
    [new Map()], [set], [get] and [values]; [NewJob] makes a job object,
    [UpdateJob] assigns to a field of it, [ReadJob] reads it. *)
Variant op : Type -> Type :=
| RandomUUID : op string
| DateNow : op string
| Console (level : console_level) (line : string) (arg : option logarg) : op unit
| StartProcess (cmd : command) : op (result Process)
| WaitForProcess (proc : Process) (timeoutMs : Z) : op (result unit)
| GetLogs (proc : Process) : op (result Logs)
| ExitCode (proc : Process) : op (option Z)
| NewMap : op mapref
| MapSet (m : mapref) (k : string) (r : jobref) : op unit
| MapGet (m : mapref) (k : string) : op (option jobref)
| MapValues (m : mapref) : op (list jobref)
| NewJob (j : InstallationJob) : op jobref
| UpdateJob (r : jobref) (f : InstallationJob -> InstallationJob) : op unit
| ReadJob (r : jobref) : op (option InstallationJob).

(** The operations at which an [async] method is suspended. *)
Definition is_await {X} (o : op X) : bool :=
  match o with
  | StartProcess _ | WaitForProcess _ _ | GetLogs _ => true
  | _ => false
  end.

(** ** Programs

    A program returns, throws, or performs an operation and goes on with
    its answer. *)

Inductive Prog (A : Type) : Type :=
| Ret (a : A)
| Throw (e : thrown)
| Vis {X : Type} (o : op X) (k : X -> Prog A).
Arguments Ret {A} a.
Arguments Throw {A} e.
Arguments Vis {A X} o k.

Fixpoint bind {A B} (p : Prog A) (f : A -> Prog B) : Prog B :=
  match p with
  | Ret a => f a
  | Throw e => Throw e
  | Vis o k => Vis o (fun x => bind (k x) f)
  end.

(** [try { p } catch (e) { h e }] *)
Fixpoint try_catch {A} (p : Prog A) (h : thrown -> Prog A) : Prog A :=
  match p with
  | Ret a => Ret a
  | Throw e => h e
  | Vis o k => Vis o (fun x => try_catch (k x) h)
  end.

(** stdpp's notations for monads: [x ← p; q] and [p ;; q]. *)
#[global] Instance Prog_ret : MRet Prog := @Ret.
#[global] Instance Prog_bind : MBind Prog := fun A B f p => bind p f.

Definition perform {X} (o : op X) : Prog X := Vis o Ret.

(** A pure step that may throw. *)
Definition lift {A} (r : result A) : Prog A :=
  match r with
  | inl e => Throw e
  | inr a => Ret a
  end.

(** [await] of a call that may be rejected. *)
Definition await {X} (o : op (result X)) : Prog X := Vis o lift.

(** ** Rendering of identifiers and dates *)

(** The digit [d], below 16, as a character. *)
Definition digit_char (d : Z) : string :=
  String.substring (Z.to_nat d) 1 "0123456789abcdef".

(** The [k] lowest digits of [n] in base [base], most significant first. *)
Fixpoint digits (base : Z) (k : nat) (n : Z) : string :=
  match k with
  | O => ""
  | S k' => digits base k' (n / base) ++ digit_char (n mod base)
  end.

(** [crypto.randomUUID()]: a version 4 UUID built from 122 random bits. *)
Definition format_uuid (n : Z) : string :=
  let n1 := n / 2 ^ 32 in
  let n2 := n1 / 2 ^ 16 in
  let n3 := n2 / 2 ^ 12 in
  let n4 := n3 / 4 in
  let n5 := n4 / 2 ^ 12 in
  digits 16 8 n ++ "-" ++ digits 16 4 n1 ++ "-4" ++ digits 16 3 n2 ++ "-"
    ++ digit_char (8 + n3 mod 4) ++ digits 16 3 n4 ++ "-" ++ digits 16 12 n5.

(** Year, month and day of a day count from 1970-01-01. *)
Definition civil_from_days (z : Z) : Z * Z * Z :=
  let z := z + 719468 in
  let era := z / 146097 in
  let doe := z - era * 146097 in
  let yoe := (doe - doe / 1460 + doe / 36524 - doe / 146096) / 365 in
  let doy := doe - (365 * yoe + yoe / 4 - yoe / 100) in
  let mp := (5 * doy + 2) / 153 in
  let d := doy - (153 * mp + 2) / 5 + 1 in
  let m := if (mp <? 10)%Z then mp + 3 else mp - 9 in
  let y := yoe + era * 400 + (if (m <=? 2)%Z then 1 else 0) in
  (y, m, d).

(** [new Date(ms).toISOString()], for the years 0000 to 9999. *)
Definition toISOString (ms : Z) : string :=
  let '(y, m, d) := civil_from_days (ms / 86400000) in
  let r := ms mod 86400000 in
  digits 10 4 y ++ "-" ++ digits 10 2 m ++ "-" ++ digits 10 2 d ++ "T"
    ++ digits 10 2 (r / 3600000) ++ ":" ++ digits 10 2 (r / 60000 mod 60) ++ ":"
    ++ digits 10 2 (r / 1000 mod 60) ++ "." ++ digits 10 3 (r mod 1000) ++ "Z".

(** ** The container and the heap *)

(** What the container knows of a process it has started. *)
Record ProcInfo : Type := {
  p_command : command;
  p_logs : Logs;
  p_exitCode : Z;
  (** milliseconds until the process is terminal; [None]: it never is *)
  p_duration : option Z
}.

(** How the container answers a call.  [Rejects e]: the call is rejected
    with [e].  [Runs out err exit duration]: the call succeeds; for the
    start of a command line that the model does not interpret, these are
    the process's output, exit code and duration. *)
Inductive Answer : Type :=
| Rejects (e : thrown)
| Runs (out err : string) (exit : Z) (duration : option Z).

(** The answer of a container that has nothing to say: the call succeeds,
    and the process, if one is started, ends at once with exit code 0. *)
Definition quiet : Answer := Runs "" "" 0 (Some 0).

(** The state of the world: the container, the clock, the random source
    and the console, and the heap of the worker. *)
Record State : Type := {
  (** files of the container, by path *)
  files : gmap string text;
  processes : list ProcInfo;
  (** the answers to the coming calls of [startProcess] and [getLogs];
      when it is used up, every call succeeds with [quiet] *)
  script : list Answer;
  clock : Z;
  entropy : list Z;
  console : list (console_level * string * option logarg);
  (** the job objects, by reference *)
  jobs : list InstallationJob;
  (** the [Map] objects, by reference, in insertion order *)
  maps : list (list (string * jobref))
}.

Definition with_files f (s : State) : State :=
  {| files := f; processes := processes s; script := script s; clock := clock s;
     entropy := entropy s; console := console s; jobs := jobs s; maps := maps s |}.
Definition with_processes p (s : State) : State :=
  {| files := files s; processes := p; script := script s; clock := clock s;
     entropy := entropy s; console := console s; jobs := jobs s; maps := maps s |}.
Definition with_script a (s : State) : State :=
  {| files := files s; processes := processes s; script := a; clock := clock s;
     entropy := entropy s; console := console s; jobs := jobs s; maps := maps s |}.
Definition with_clock c (s : State) : State :=
  {| files := files s; processes := processes s; script := script s; clock := c;
     entropy := entropy s; console := console s; jobs := jobs s; maps := maps s |}.
Definition with_entropy e (s : State) : State :=
  {| files := files s; processes := processes s; script := script s; clock := clock s;
     entropy := e; console := console s; jobs := jobs s; maps := maps s |}.
Definition with_console c (s : State) : State :=
  {| files := files s; processes := processes s; script := script s; clock := clock s;
     entropy := entropy s; console := c; jobs := jobs s; maps := maps s |}.
Definition with_jobs j (s : State) : State :=
  {| files := files s; processes := processes s; script := script s; clock := clock s;
     entropy := entropy s; console := console s; jobs := j; maps := maps s |}.
Definition with_maps m (s : State) : State :=
  {| files := files s; processes := processes s; script := script s; clock := clock s;
     entropy := entropy s; console := console s; jobs := jobs s; maps := m |}.

(** [s] without its prefix [p], when it has it. *)
Definition strip_prefix (p s : string) : option string :=
  if String.prefix p s
  then Some (String.substring (String.length p) (String.length s) s)
  else None.

(** What starting [cmd] does in the container.  [cat path] prints the file
    at [path]; the [echo] of the manifest replaces the file at its path;
    any other line (the install and uninstall CLIs, [mkdir]) is opaque: its
    output, exit code and duration are the container's answer, and it
    leaves the files that the manager reads and writes alone. *)
Definition spawn (cmd : command) (out err : string) (exit : Z) (duration : option Z)
    (fs : gmap string text) : ProcInfo * gmap string text :=
  match cmd with
  | EchoTo payload path =>
      ({| p_command := cmd; p_logs := {| stdout := Plain ""; stderr := Plain "" |};
          p_exitCode := 0; p_duration := duration |},
       <[path := payload]> fs)
  | Sh line =>
      match strip_prefix "cat " line with
      | Some path =>
          match fs !! path with
          | Some t =>
              ({| p_command := cmd; p_logs := {| stdout := t; stderr := Plain "" |};
                  p_exitCode := 0; p_duration := duration |}, fs)
          | None =>
              ({| p_command := cmd;
                  p_logs := {| stdout := Plain "";
                               stderr := Plain ("cat: " ++ path ++ ": No such file or directory") |};
                  p_exitCode := 1; p_duration := duration |}, fs)
          end
      | None =>
          ({| p_command := cmd; p_logs := {| stdout := Plain out; stderr := Plain err |};
              p_exitCode := exit; p_duration := duration |}, fs)
      end
  end.

Arguments spawn : simpl never.

(** The answer to the call that comes now, and the state with the
    answers that are left. *)
Definition next_answer (s : State) : Answer * State :=
  (hd quiet (script s), with_script (tl (script s)) s).

(** Modelled from the spec: the error with which the wait fails, "fails
    with Timeout"; the sources do not have its message. *)
Definition Timeout : thrown := JsError "Error" "Timeout".

(** Modelled from the spec: [waitForProcess] of [./gateway/utils], which
    [installation.ts] imports and which is not among the sources.
    "Contract: awaitCompletion(handle, timeoutMs) -> void, fails with
    Timeout if the handle has not reached a terminal status within
    timeoutMs."  The result is the time spent waiting. *)
Definition waitForProcess (duration : option Z) (timeoutMs : Z) : result Z :=
  match duration with
  | Some d => if (d <=? timeoutMs)%Z then inr d else inl Timeout
  | None => inl Timeout
  end.

(** The environment's side of every operation. *)
Definition handle {X} (o : op X) (s : State) : X * State :=
  match o in op X return X * State with
  | RandomUUID =>
      (format_uuid (hd 0 (entropy s)), with_entropy (tl (entropy s)) s)
  | DateNow => (toISOString (clock s), s)
  | Console level line arg =>
      (tt, with_console (console s ++ [(level, line, arg)]) s)
  | StartProcess cmd =>
      match next_answer s with
      | (Rejects e, s') => (inl e, s')
      | (Runs out err exit duration, s') =>
          let '(p, fs) := spawn cmd out err exit duration (files s') in
          (inr (length (processes s')),
           with_files fs (with_processes (processes s' ++ [p]) s'))
      end
  | WaitForProcess proc timeoutMs =>
      match waitForProcess (processes s !! proc ≫= p_duration) timeoutMs with
      | inl e => (inl e, with_clock (clock s + timeoutMs) s)
      | inr d => (inr tt, with_clock (clock s + d) s)
      end
  | GetLogs proc =>
      match next_answer s with
      | (Rejects e, s') => (inl e, s')
      | (Runs _ _ _ _, s') =>
          (inr (default {| stdout := Plain ""; stderr := Plain "" |}
                  (p_logs <$> processes s' !! proc)), s')
      end
  | ExitCode proc =>
      (p ← processes s !! proc; _ ← p_duration p; Some (p_exitCode p), s)
  | NewMap => (length (maps s), with_maps (maps s ++ [[]]) s)
  | MapSet m k r =>
      (tt, with_maps (alter (assoc_set k r) m (maps s)) s)
  | MapGet m k => (maps s !! m ≫= assoc_get k, s)
  | MapValues m => (default [] (map snd <$> maps s !! m), s)
  | NewJob j => (length (jobs s), with_jobs (jobs s ++ [j]) s)
  | UpdateJob r f => (tt, with_jobs (alter f r (jobs s)) s)
  | ReadJob r => (jobs s !! r, s)
  end.

(** Running a program to its end: the value it returns or what it throws,
    and the state it leaves. *)
Fixpoint run {A} (p : Prog A) (s : State) : result A * State :=
  match p with
  | Ret a => (inr a, s)
  | Throw e => (inl e, s)
  | Vis o k => let '(x, s') := handle o s in run (k x) s'
  end.

(** ** [installation.ts] *)

#[global] Instance result_ret : MRet (sum thrown) := fun A a => inr a.
#[global] Instance result_bind : MBind (sum thrown) :=
  fun A B f r => match r with inl e => inl e | inr a => f a end.

Definition MOLTBOT_PORT : Z := 18789.
Definition BACKUP_DIR : string := "/data/moltbot".
Definition CONFIG_DIR : string := "/root/.openclaw".
Definition SKILLS_DIR : string := "/root/clawd/skills".
Definition PLUGINS_CONFIG_FILE : string := CONFIG_DIR ++ "/plugins.json".
Definition MANIFEST_FILE : string := BACKUP_DIR ++ "/installation-manifest.json".
Definition INSTALLATION_TIMEOUT_MS : Z := 120000.

(** The manager's one field of its own is the job table; the sandbox it
    holds is the container of the state. *)
Record InstallationManager : Type := { activeJobs : mapref }.

(** [new InstallationManager(sandbox)] *)
Definition new_InstallationManager : Prog InstallationManager :=
  m ← perform NewMap; mret {| activeJobs := m |}.

(** [error instanceof Error ? error.message : 'Unknown error'] *)
Definition error_message (e : thrown) : string :=
  match e with
  | JsError _ message => message
  | NonError _ => "Unknown error"
  end.

Definition opt_string (o : option string) : value :=
  match o with
  | Some s => VStr s
  | None => VUndefined
  end.

(** [{ name: pluginName, installedAt }] and [{ slug: skillSlug, installedAt }],
    the values of the types [PluginManifest] and [SkillManifest] that the
    installs make. *)
Definition PluginManifest (name : string) (installedAt : option string) : value :=
  VObj [("name", VStr name); ("installedAt", opt_string installedAt)].
Definition SkillManifest (slug : string) (installedAt : option string) : value :=
  VObj [("slug", VStr slug); ("installedAt", opt_string installedAt)].

(** The block of the [try] of [getManifest]. *)
Definition getManifest_try : Prog value :=
  proc ← await (StartProcess (Sh ("cat " ++ MANIFEST_FILE)));
  await (WaitForProcess proc 5000);;
  logs ← await (GetLogs proc);
  let content := text_or (stdout logs) (JsonText (VObj [])) in
  lift (JSON_parse content).

(** The block of its [catch]. *)
Definition getManifest_catch (error : thrown) : Prog value :=
  perform (Console console_log "[GET MANIFEST] No existing manifest, starting fresh" None);;
  now ← perform DateNow;
  mret (VObj [("plugins", VArr [] []); ("skills", VArr [] []);
              ("lastUpdated", VStr now)]).

Definition getManifest : Prog value :=
  try_catch getManifest_try getManifest_catch.

(** The list that an entry of the given type belongs to. *)
Definition list_key (type : TargetType) : string :=
  match type with
  | plugin => "plugins"
  | skill => "skills"
  end.

(** [manifest.k = manifest.k || []; manifest.k.push(entry)].  [push]
    changes the array in place, which the manifest then shows. *)
Definition push_entry (manifest : value) (k : string) (entry : value) : result value :=
  old ← get_prop manifest k;
  manifest ← set_prop manifest k (js_or old (VArr [] []));
  arr ← get_prop manifest k;
  arr ← js_push arr entry;
  set_prop manifest k arr.

Definition updateManifest (type : TargetType) (entry : value) : Prog unit :=
  manifest ← getManifest;
  manifest ← lift (push_entry manifest (list_key type) entry);
  now ← perform DateNow;
  manifest ← lift (set_prop manifest "lastUpdated" (VStr now));
  await (StartProcess (Sh ("mkdir -p " ++ BACKUP_DIR)));;
  let manifestJson := JSON_stringify manifest in
  await (StartProcess (EchoTo manifestJson MANIFEST_FILE));;
  mret tt.

(** The key of an entry: [name] for plugins, [slug] for skills. *)
Definition entry_key (type : TargetType) : string :=
  match type with
  | plugin => "name"
  | skill => "slug"
  end.

(** [p => p.name !== name] and [s => s.slug !== name] *)
Definition other_entry (type : TargetType) (name : string) (p : value) : result bool :=
  key ← get_prop p (entry_key type);
  mret (strict_neq_str key name).

(** [manifest.k = (manifest.k || []).filter(...)] *)
Definition filter_entries (manifest : value) (type : TargetType) (name : string) : result value :=
  old ← get_prop manifest (list_key type);
  kept ← js_filter (js_or old (VArr [] [])) (other_entry type name);
  set_prop manifest (list_key type) kept.

Definition removeFromManifest (type : TargetType) (name : string) : Prog unit :=
  manifest ← getManifest;
  manifest ← lift (filter_entries manifest type name);
  now ← perform DateNow;
  manifest ← lift (set_prop manifest "lastUpdated" (VStr now));
  let manifestJson := JSON_stringify manifest in
  await (StartProcess (EchoTo manifestJson MANIFEST_FILE));;
  mret tt.

(** [installPlugin] and [installSkill] have the same body word for word,
    up to the type, the tag of the console lines, the command and the
    manifest entry.  [install_try] is the block of their [try],
    [install_catch] the block of their [catch]. *)
Definition install_try (type : TargetType) (tag : string) (cmd : string)
    (entry : string -> option string -> value) (target : string) (job : jobref)
    : Prog unit :=
  perform (Console console_log ("[" ++ tag ++ " INSTALL] Starting installation of " ++ target) None);;
  proc ← await (StartProcess (Sh (cmd ++ target)));
  await (WaitForProcess proc INSTALLATION_TIMEOUT_MS);;
  logs ← await (GetLogs proc);
  perform (UpdateJob job (Job.set_output
    [text_or (stdout logs) (Plain ""); text_or (stderr logs) (Plain "")]));;
  perform (UpdateJob job (Job.set_status completed));;
  now ← perform DateNow;
  perform (UpdateJob job (Job.set_completedAt now));;
  perform (Console console_log ("[" ++ tag ++ " INSTALL] Installation completed for " ++ target) None);;
  exitCode ← perform (ExitCode proc);
  perform (Console console_log ("[" ++ tag ++ " INSTALL] Exit code:") (Some (ArgExit exitCode)));;
  j ← perform (ReadJob job);
  updateManifest type (entry target (j ≫= Job.startedAt)).

Definition install_catch (tag : string) (target : string) (job : jobref) (error : thrown)
    : Prog unit :=
  perform (UpdateJob job (Job.set_status failed));;
  now ← perform DateNow;
  perform (UpdateJob job (Job.set_completedAt now));;
  perform (UpdateJob job (Job.set_error (error_message error)));;
  perform (Console console_error ("[" ++ tag ++ " INSTALL FAILED] " ++ target ++ ":")
             (Some (ArgThrown error))).

Definition install (this : InstallationManager) (type : TargetType) (tag : string)
    (cmd : string) (entry : string -> option string -> value) (target : string)
    : Prog jobref :=
  jobId ← perform RandomUUID;
  startedAt ← perform DateNow;
  job ← perform (NewJob {| Job.id := jobId; Job.type := type; Job.target := target;
                          Job.status := installing; Job.startedAt := Some startedAt;
                          Job.completedAt := None; Job.output := []; Job.error := None |});
  perform (MapSet (activeJobs this) jobId job);;
  try_catch (install_try type tag cmd entry target job) (install_catch tag target job);;
  mret job.

Definition installPlugin (this : InstallationManager) (pluginName : string) : Prog jobref :=
  install this plugin "PLUGIN" "openclaw plugins install " PluginManifest pluginName.

Definition installSkill (this : InstallationManager) (skillSlug : string) : Prog jobref :=
  install this skill "SKILL" "npx clawhub install " SkillManifest skillSlug.

(** [uninstallPlugin] and [uninstallSkill] share their body in the same
    way; [uninstall_try] is the block of their [try]. *)
Definition uninstall_try (type : TargetType) (tag : string) (cmd : string) (target : string)
    : Prog bool :=
  perform (Console console_log ("[" ++ tag ++ " UNINSTALL] Starting uninstallation of " ++ target) None);;
  proc ← await (StartProcess (Sh (cmd ++ target)));
  await (WaitForProcess proc INSTALLATION_TIMEOUT_MS);;
  logs ← await (GetLogs proc);
  exitCode ← perform (ExitCode proc);
  perform (Console console_log ("[" ++ tag ++ " UNINSTALL] Exit code:") (Some (ArgExit exitCode)));;
  perform (Console console_log ("[" ++ tag ++ " UNINSTALL] Output:") (Some (ArgText (stdout logs))));;
  removeFromManifest type target;;
  mret true.

Definition uninstall (type : TargetType) (tag : string) (cmd : string) (target : string)
    : Prog bool :=
  try_catch (uninstall_try type tag cmd target)
    (fun error =>
       perform (Console console_error ("[" ++ tag ++ " UNINSTALL FAILED] " ++ target ++ ":")
                  (Some (ArgThrown error)));;
       mret false).

Definition uninstallPlugin (this : InstallationManager) (pluginName : string) : Prog bool :=
  uninstall plugin "PLUGIN" "openclaw plugins uninstall " pluginName.

Definition uninstallSkill (this : InstallationManager) (skillSlug : string) : Prog bool :=
  uninstall skill "SKILL" "npx clawhub uninstall " skillSlug.

Record Installed : Type := { plugins : value; skills : value }.

Definition listInstalled (this : InstallationManager) : Prog Installed :=
  try_catch
    (manifest ← getManifest;
     ps ← lift (get_prop manifest "plugins");
     ss ← lift (get_prop manifest "skills");
     mret {| plugins := js_or ps (VArr [] []); skills := js_or ss (VArr [] []) |})
    (fun error =>
       perform (Console console_error "[LIST INSTALLED FAILED]" (Some (ArgThrown error)));;
       mret {| plugins := VArr [] []; skills := VArr [] [] |}).

Definition getJob (this : InstallationManager) (jobId : string) : Prog (option jobref) :=
  perform (MapGet (activeJobs this) jobId).

Definition getAllJobs (this : InstallationManager) : Prog (list jobref) :=
  perform (MapValues (activeJobs this)).

(** ** The plugin routes of [routes/api.ts] *)

Inductive Body : Type :=
| ErrorBody (error : string)
| InstallFailedBody (error : option string) (jobId : string) (output : list text)
| InstallOkBody (jobId : string) (type : TargetType) (target : string)
    (status : InstallationStatus) (message : string)
    (startedAt completedAt : option string) (output : list text)
| JobBody (job : InstallationJob).

(** [c.json(body, status)] *)
Record Response : Type := { http_status : Z; body : Body }.

(** Reading the fields of the job behind a reference. *)
Definition deref (job : jobref) : Prog InstallationJob :=
  j ← perform (ReadJob job);
  match j with
  | Some j => mret j
  | None => Throw (TypeError "Cannot read properties of undefined")
  end.

Definition status_eqb (a b : InstallationStatus) : bool :=
  match a, b with
  | installing, installing | completed, completed | failed, failed => true
  | _, _ => false
  end.

(** The handlers of [POST /plugins/install] and [POST /skills/install]
    differ by the field of the body, the method called and the words of
    the messages.  [field] is [body.plugin] or [body.skill]; [None]: the
    field is missing. *)
Definition post_install (type : TargetType) (what noun : string)
    (method : InstallationManager -> string -> Prog jobref)
    (field : option string) : Prog Response :=
  match field with
  | None | Some "" =>
      mret {| http_status := 400; body := ErrorBody (what ++ " is required") |}
  | Some target =>
      manager ← new_InstallationManager;
      try_catch
        (perform (Console console_log ("[API] Starting " ++ what ++ " installation:")
                    (Some (ArgText (Plain target))));;
         job ← method manager target;
         j ← deref job;
         if status_eqb (Job.status j) failed
         then mret {| http_status := 500;
                      body := InstallFailedBody (Job.error j) (Job.id j) (Job.output j) |}
         else mret {| http_status := 200;
                      body := InstallOkBody (Job.id j) type (Job.target j) (Job.status j)
                                (noun ++ " " ++ target ++ " installed successfully")
                                (Job.startedAt j) (Job.completedAt j) (Job.output j) |})
        (fun error =>
           mret {| http_status := 500; body := ErrorBody (error_message error) |})
  end.

(** [adminApi.post('/plugins/install', ...)] *)
Definition post_plugins_install (plugin_field : option string) : Prog Response :=
  post_install plugin "plugin name" "Plugin" installPlugin plugin_field.

(** [adminApi.post('/skills/install', ...)] *)
Definition post_skills_install (skill_field : option string) : Prog Response :=
  post_install skill "skill slug" "Skill" installSkill skill_field.

(** [adminApi.get('/plugins/status/:id', ...)] *)
Definition get_plugins_status (jobId : string) : Prog Response :=
  if String.eqb jobId ""
  then mret {| http_status := 400; body := ErrorBody "job ID is required" |}
  else
    try_catch
      (manager ← new_InstallationManager;
       job ← getJob manager jobId;
       match job with
       | None => mret {| http_status := 404; body := ErrorBody "Job not found" |}
       | Some job => j ← deref job; mret {| http_status := 200; body := JobBody j |}
       end)
      (fun error =>
         mret {| http_status := 500; body := ErrorBody (error_message error) |}).

(** The job id that the response to an install request carries. *)
Definition response_jobId (r : Response) : option string :=
  match body r with
  | InstallFailedBody _ jobId _ => Some jobId
  | InstallOkBody jobId _ _ _ _ _ _ _ => Some jobId
  | _ => None
  end.

(** ** The allow-list of the design notes *)

(** Modelled from the spec: the validation of target names, which the
    sources do not have.  "target names/slugs must be validated against a
    strict allow-list pattern (e.g., alphanumerics, [@], [/], [-], [.])
    before being interpolated into any command string". *)
Definition allowed_char (c : Ascii.ascii) : bool :=
  let n := Ascii.nat_of_ascii c in
  ((48 <=? n) && (n <=? 57))%nat || ((65 <=? n) && (n <=? 90))%nat
  || ((97 <=? n) && (n <=? 122))%nat
  || Ascii.eqb c "@"%char || Ascii.eqb c "/"%char || Ascii.eqb c "-"%char
  || Ascii.eqb c "."%char.

Definition valid_target (name : string) : bool :=
  forallb allowed_char (String.list_ascii_of_string name).

(** ** Concurrent calls

    The methods are [async]: a call runs until its next [await], and
    another call may run before it goes on.  [advance] runs a task up to
    its next awaited operation; [turn] lets the awaited operation complete
    and runs the task up to the next one.  An awaited call takes effect in
    the container when the scheduler lets it complete. *)

Fixpoint advance {A} (p : Prog A) (s : State) : Prog A * State :=
  match p with
  | Vis o k =>
      if is_await o then (p, s)
      else let '(x, s') := handle o s in advance (k x) s'
  | _ => (p, s)
  end.

Definition turn {A} (p : Prog A) (s : State) : Prog A * State :=
  match p with
  | Vis o k => let '(x, s') := handle o s in advance (k x) s'
  | _ => (p, s)
  end.

(** The calls are made one after the other; each runs to its first
    [await]. *)
Fixpoint launch {A} (calls : list (Prog A)) (s : State) : list (Prog A) * State :=
  match calls with
  | [] => ([], s)
  | p :: rest =>
      let '(p', s') := advance p s in
      let '(rest', s'') := launch rest s' in
      (p' :: rest', s'')
  end.

(** A schedule names the task that takes each turn; a turn of a task that
    is not there is skipped. *)
Fixpoint interleave {A} (schedule : list nat) (tasks : list (Prog A)) (s : State)
    : list (Prog A) * State :=
  match schedule with
  | [] => (tasks, s)
  | i :: rest =>
      match tasks !! i with
      | Some p =>
          let '(p', s') := turn p s in
          interleave rest (<[i := p']> tasks) s'
      | None => interleave rest tasks s
      end
  end.

(** ** The life of one manager

    A manager lives through a sequence of calls of its methods.  [issued]
    collects the ids of the jobs that its installs returned. *)

Inductive call : Type :=
| CallInstallPlugin (pluginName : string)
| CallInstallSkill (skillSlug : string)
| CallUninstallPlugin (pluginName : string)
| CallUninstallSkill (skillSlug : string)
| CallListInstalled
| CallGetJob (jobId : string)
| CallGetAllJobs.

(** One call; the result is the job that the call returned, if it is an
    install. *)
Definition make_call (this : InstallationManager) (c : call) : Prog (option jobref) :=
  match c with
  | CallInstallPlugin n => job ← installPlugin this n; mret (Some job)
  | CallInstallSkill n => job ← installSkill this n; mret (Some job)
  | CallUninstallPlugin n => uninstallPlugin this n;; mret None
  | CallUninstallSkill n => uninstallSkill this n;; mret None
  | CallListInstalled => listInstalled this;; mret None
  | CallGetJob jobId => getJob this jobId;; mret None
  | CallGetAllJobs => getAllJobs this;; mret None
  end.

Fixpoint make_calls (this : InstallationManager) (cs : list call) (s : State)
    : list string * State :=
  match cs with
  | [] => ([], s)
  | c :: rest =>
      let '(r, s1) := run (make_call this c) s in
      let ids : list string :=
        match r with
        | inr (Some job) => option_list (Job.id <$> jobs s1 !! job)
        | _ => []
        end in
      let '(ids', s2) := make_calls this rest s1 in
      ((ids ++ ids')%list, s2)
  end.

(** The state in which the [try] of an install starts: the job is made
    and registered in the table. *)
Definition new_job (type : TargetType) (target : string) (s : State) : InstallationJob :=
  {| Job.id := format_uuid (hd 0 (entropy s)); Job.type := type; Job.target := target;
     Job.status := installing; Job.startedAt := Some (toISOString (clock s));
     Job.completedAt := None; Job.output := []; Job.error := None |}.

Definition registered (this : InstallationManager) (type : TargetType) (target : string)
    (s : State) : State :=
  with_maps
    (alter (assoc_set (format_uuid (hd 0 (entropy s))) (length (jobs s)))
       (activeJobs this) (maps s))
    (with_jobs (jobs s ++ [new_job type target s]) (with_entropy (tl (entropy s)) s)).

(** The two installs and the two uninstalls, by the type of the target. *)
Definition install_method (type : TargetType)
    : InstallationManager -> string -> Prog jobref :=
  match type with
  | plugin => installPlugin
  | skill => installSkill
  end.

(** The [try] block of the install of the given type. *)
Definition install_block (type : TargetType) (target : string) (job : jobref) : Prog unit :=
  match type with
  | plugin => install_try plugin "PLUGIN" "openclaw plugins install " PluginManifest target job
  | skill => install_try skill "SKILL" "npx clawhub install " SkillManifest target job
  end.

Definition uninstall_method (type : TargetType)
    : InstallationManager -> string -> Prog bool :=
  match type with
  | plugin => uninstallPlugin
  | skill => uninstallSkill
  end.

(** The [try] block of the uninstall of the given type. *)
Definition uninstall_block (type : TargetType) (target : string) : Prog bool :=
  match type with
  | plugin => uninstall_try plugin "PLUGIN" "openclaw plugins uninstall " target
  | skill => uninstall_try skill "SKILL" "npx clawhub uninstall " target
  end.

(** The tag of the console lines and the command lines, by the type of
    the target. *)
Definition tag_of (type : TargetType) : string :=
  match type with
  | plugin => "PLUGIN"
  | skill => "SKILL"
  end.

Definition install_command (type : TargetType) : string :=
  match type with
  | plugin => "openclaw plugins install "
  | skill => "npx clawhub install "
  end.

Definition uninstall_command (type : TargetType) : string :=
  match type with
  | plugin => "openclaw plugins uninstall "
  | skill => "npx clawhub uninstall "
  end.

(** A plain object, as opposed to an array, a primitive or [null]. *)
Definition is_object (v : value) : Prop :=
  match v with
  | VObj _ => True
  | _ => False
  end.

(** The manifest entry that an install of the given type makes. *)
Definition entry_of (type : TargetType) : string -> option string -> value :=
  match type with
  | plugin => PluginManifest
  | skill => SkillManifest
  end.

(** Whether the callback of [removeFromManifest] keeps an entry; for an
    entry on which the callback throws, [false]. *)
Definition keeps (type : TargetType) (name : string) (p : value) : bool :=
  match other_entry type name p with
  | inr keep => keep
  | inl _ => false
  end.

(** The answer of the status route to an id that it does not find. *)
Definition not_found : Response :=
  {| http_status := 404; body := ErrorBody "Job not found" |}.

(** The install route of the given type. *)
Definition post_install_route (type : TargetType) : option string -> Prog Response :=
  match type with
  | plugin => post_plugins_install
  | skill => post_skills_install
  end.

(** The ids that the job table of a manager knows. *)
Definition known (this : InstallationManager) (s : State) (jobId : string) : Prop :=
  is_Some (maps s !! activeJobs this ≫= assoc_get jobId).

(** ** The awaits of [updateManifest]

    A call of [updateManifest] stops at five awaits: the start of [cat],
    the wait, the logs, the start of [mkdir] and the start of [echo].
    [updateManifest_at] is what is left of the call at each of them, in a
    container that answers every call. *)

(** What [updateManifest] does with the manifest it has read. *)
Definition after_read (type : TargetType) (entry : value) (manifest : value) : Prog unit :=
  manifest ← lift (push_entry manifest (list_key type) entry);
  now ← perform DateNow;
  manifest ← lift (set_prop manifest "lastUpdated" (VStr now));
  await (StartProcess (Sh ("mkdir -p " ++ BACKUP_DIR)));;
  let manifestJson := JSON_stringify manifest in
  await (StartProcess (EchoTo manifestJson MANIFEST_FILE));;
  mret tt.

Inductive phase : Type :=
| Reading
| Waiting (proc : Process)
| Logging (proc : Process)
| MakingDir (manifestJson : text)
| Writing (manifestJson : text)
| Done.

Definition updateManifest_at (type : TargetType) (entry : value) (ph : phase) : Prog unit :=
  match ph with
  | Reading => updateManifest type entry
  | Waiting proc =>
      try_catch
        (await (WaitForProcess proc 5000);;
         logs ← await (GetLogs proc);
         let content := text_or (stdout logs) (JsonText (VObj [])) in
         lift (JSON_parse content))
        getManifest_catch
      ≫= after_read type entry
  | Logging proc =>
      try_catch
        (logs ← await (GetLogs proc);
         let content := text_or (stdout logs) (JsonText (VObj [])) in
         lift (JSON_parse content))
        getManifest_catch
      ≫= after_read type entry
  | MakingDir manifestJson =>
      await (StartProcess (Sh ("mkdir -p " ++ BACKUP_DIR)));;
      await (StartProcess (EchoTo manifestJson MANIFEST_FILE));;
      mret tt
  | Writing manifestJson =>
      await (StartProcess (EchoTo manifestJson MANIFEST_FILE));;
      mret tt
  | Done => mret tt
  end.

(** The manifest with the given fields after one entry is pushed on the
    list of its type and the date is set. *)
Definition written (type : TargetType) (entry : value) (fields : list (string * value))
    (items : list value) (now : string) : value :=
  VObj (assoc_set "lastUpdated" (VStr now)
          (assoc_set (list_key type) (VArr (items ++ [entry]) []) fields)).

Definition is_read (c : command) : bool :=
  match c with
  | Sh line => String.eqb line ("cat " ++ MANIFEST_FILE)
  | EchoTo _ _ => false
  end.

Definition is_write (c : command) : bool :=
  match c with
  | Sh _ => false
  | EchoTo _ path => String.eqb path MANIFEST_FILE
  end.

(** Among the commands started, in their order, every write of the
    manifest comes after two reads of it ([reads] counts the reads that
    came before [cmds]): the two calls have both read before either
    writes. *)
Fixpoint reads_precede_writes (reads : nat) (cmds : list command) : bool :=
  match cmds with
  | [] => true
  | c :: rest =>
      if is_write c then (2 <=? reads)%nat && reads_precede_writes reads rest
      else if is_read c then reads_precede_writes (S reads) rest
      else reads_precede_writes reads rest
  end.

(** The commands that were started between two states. *)
Definition started_since (s s' : State) : list command :=
  p_command <$> drop (length (processes s)) (processes s').

(** How far a call has come: whether it has read the manifest, and
    whether it has written it. *)
Definition has_read (ph : phase) : bool :=
  match ph with
  | Reading => false
  | _ => true
  end.

Definition is_done (ph : phase) : bool :=
  match ph with
  | Done => true
  | _ => false
  end.

(** What a call holds at a phase, when the manifest it read, or is about
    to be given, is the one with [fields]: the process of its [cat] has
    the manifest as output, and the text it is about to write is the
    manifest with its own entry pushed. *)
Definition phase_ok (type : TargetType) (entry : value) (fields : list (string * value))
    (items : list value) (s : State) (ph : phase) : Prop :=
  match ph with
  | Reading | Done => True
  | Waiting proc | Logging proc =>
      exists p, processes s !! proc = Some p /\ p_duration p = Some 0
                /\ stdout (p_logs p) = JsonText (VObj fields)
  | MakingDir manifestJson | Writing manifestJson =>
      exists now, manifestJson = JSON_stringify (written type entry fields items now)
  end.

(** Two calls, one for entry [eA] and one for entry [eB], at phases [phA]
    and [phB] in the state [s]: while neither has written, the manifest is
    the one with [fields]; when one has written, both have read, and the
    manifest is the one with [fields] and a single new entry. *)
Definition race_invariant (tA tB : TargetType) (eA eB : value)
    (fields : list (string * value)) (itemsA itemsB : list value)
    (phA phB : phase) (s : State) : Prop :=
  script s = []
  /\ phase_ok tA eA fields itemsA s phA
  /\ phase_ok tB eB fields itemsB s phB
  /\ if is_done phA || is_done phB
     then has_read phA = true /\ has_read phB = true
          /\ exists now,
               files s !! MANIFEST_FILE = Some (JSON_stringify (written tA eA fields itemsA now))
               \/ files s !! MANIFEST_FILE
                  = Some (JSON_stringify (written tB eB fields itemsB now))
     else files s !! MANIFEST_FILE = Some (JsonText (VObj fields)).

Definition reads_of (phA phB : phase) : nat :=
  (Nat.b2n (has_read phA) + Nat.b2n (has_read phB))%nat.

(** ** Footprints of programs

    [all_ops Q p]: every operation that [p] can perform is in [Q]. *)

Inductive all_ops {A} (Q : forall X, op X -> Prop) : Prog A -> Prop :=
| all_ops_Ret a : all_ops Q (Ret a)
| all_ops_Throw e : all_ops Q (Throw e)
| all_ops_Vis X (o : op X) k :
    Q X o -> (forall x, all_ops Q (k x)) -> all_ops Q (Vis o k).

(** The operations that leave the files, the job objects and the job
    tables as they are: everything but the start of the [echo] that writes
    a file and the operations on the heap that write. *)
Definition reads_only X (o : op X) : Prop :=
  match o with
  | StartProcess (EchoTo _ _) | NewMap | MapSet _ _ _ | NewJob _ | UpdateJob _ _ => False
  | _ => True
  end.

(** The operations that leave the heap as it is. *)
Definition off_heap X (o : op X) : Prop :=
  match o with
  | NewMap | MapSet _ _ _ | NewJob _ | UpdateJob _ _ => False
  | _ => True
  end.

Definition same_store (s s' : State) : Prop :=
  files s' = files s /\ jobs s' = jobs s /\ maps s' = maps s.

Definition same_heap (s s' : State) : Prop :=
  jobs s' = jobs s /\ maps s' = maps s.

(** The operations that leave the job tables as they are. *)
Definition off_maps X (o : op X) : Prop :=
  match o with
  | NewMap | MapSet _ _ _ => False
  | _ => True
  end.

(** The operations that keep the job objects in place, with their
    identity: a new object goes behind the others, and an update changes
    neither the id, nor the type, nor the target, nor the start. *)
Definition same_identity (j j' : InstallationJob) : Prop :=
  Job.id j' = Job.id j /\ Job.type j' = Job.type j /\ Job.target j' = Job.target j
  /\ Job.startedAt j' = Job.startedAt j.

Definition steady X (o : op X) : Prop :=
  match o with
  | UpdateJob _ f => forall j, same_identity j (f j)
  | _ => True
  end.

Definition jobs_steady (s s' : State) : Prop :=
  forall r j, jobs s !! r = Some j ->
    exists j', jobs s' !! r = Some j' /\ same_identity j j'.

(** The operations that leave the files as they are: all but the start
    of the [echo] that writes a file. *)
Definition keeps_files X (o : op X) : Prop :=
  match o with
  | StartProcess (EchoTo _ _) => False
  | _ => True
  end.

(** A program [writes_last] when nothing follows a successful start of
    the [echo] that writes a file. *)
Inductive writes_last {A} : Prog A -> Prop :=
| writes_last_Ret a : writes_last (Ret a)
| writes_last_Throw e : writes_last (Throw e)
| writes_last_Vis X (o : op X) k :
    keeps_files X o -> (forall x, writes_last (k x)) -> writes_last (Vis o k)
| writes_last_Echo payload path k :
    (forall e, all_ops keeps_files (k (inl e))) ->
    (forall x, exists a, k (inr x) = Ret a) ->
    writes_last (Vis (StartProcess (EchoTo payload path)) k).

(** What [listInstalled] returns when it has nothing to show. *)
Definition no_lists : Installed := {| plugins := VArr [] []; skills := VArr [] [] |}.

(** ** The routes that list and uninstall *)

(** The answer of a route: [c.json(body, status)]. *)
Record Reply (B : Type) : Type := { reply_status : Z; reply_body : B }.
Arguments reply_status {B} r.
Arguments reply_body {B} r.

Inductive ListBody : Type :=
| ListErrorBody (error : string)
| ListOkBody (plugins skills total : value).

(** [adminApi.get('/plugins', ...)].  The handler adds the lengths of the
    two lists that [listInstalled] returns, and these are what the manifest
    holds, of any type: [length_sum a b] stands for [a.length + b.length]
    as the runtime computes it, a number, a string, or an exception. *)
Definition get_plugins (length_sum : value -> value -> result value)
    : Prog (Reply ListBody) :=
  try_catch
    (manager ← new_InstallationManager;
     installed ← listInstalled manager;
     total ← lift (length_sum (plugins installed) (skills installed));
     mret {| reply_status := 200;
             reply_body := ListOkBody (plugins installed) (skills installed) total |})
    (fun error =>
       mret {| reply_status := 500; reply_body := ListErrorBody (error_message error) |}).

Inductive DeleteBody : Type :=
| DeleteErrorBody (error : string)
| DeleteResultBody (success : bool) (message : string).

(** [c.toUpperCase()] for a character of ASCII. *)
Definition upper_ascii (c : Ascii.ascii) : Ascii.ascii :=
  let n := Ascii.nat_of_ascii c in
  if ((97 <=? n) && (n <=? 122))%nat then Ascii.ascii_of_nat (n - 32) else c.

(** [s.charAt(0).toUpperCase() + s.slice(1)], for a string of ASCII
    characters; the route applies it to [plugin] and to [skill] only. *)
Definition capitalize (s : string) : string :=
  match s with
  | EmptyString => EmptyString
  | String c rest => String (upper_ascii c) rest
  end.

(** The double quote, as a string. *)
Definition dquote : string := String (Ascii.ascii_of_nat 34) EmptyString.

(** [l.includes(x)] for an array of strings. *)
Definition includes (l : list string) (x : string) : bool := existsb (String.eqb x) l.

(** [adminApi.delete('/plugins/:type/:name', ...)].  [type] and [name]
    are [c.req.param('type')] and [c.req.param('name')]; [None]: the
    parameter is [undefined]. *)
Definition delete_plugins (type name : option string) : Prog (Reply DeleteBody) :=
  match type, name with
  | Some type, Some name =>
      if String.eqb type "" || String.eqb name ""
      then mret {| reply_status := 400;
                   reply_body := DeleteErrorBody "type and name are required" |}
      else if negb (includes ["plugin"; "skill"] type)
      then mret {| reply_status := 400;
                   reply_body :=
                     DeleteErrorBody ("Invalid type, must be " ++ dquote ++ "plugin" ++ dquote
                                        ++ " or " ++ dquote ++ "skill" ++ dquote) |}
      else
        manager ← new_InstallationManager;
        try_catch
          (perform (Console console_log
                      ("[API] Starting " ++ type ++ " uninstallation: " ++ name) None);;
           success ← (if String.eqb type "plugin"
                      then uninstallPlugin manager name
                      else uninstallSkill manager name);
           if negb success
           then mret {| reply_status := 500;
                        reply_body :=
                          DeleteResultBody false
                            ("Failed to uninstall " ++ type ++ ": " ++ name) |}
           else mret {| reply_status := 200;
                        reply_body :=
                          DeleteResultBody true
                            (capitalize type ++ " " ++ name ++ " uninstalled successfully") |})
          (fun error =>
             mret {| reply_status := 500;
                     reply_body := DeleteErrorBody (error_message error) |})
  | _, _ =>
      mret {| reply_status := 400;
              reply_body := DeleteErrorBody "type and name are required" |}
  end.

(** The value of the [:type] parameter for a type of target, and the word
    that the messages of the routes use for it. *)
Definition type_name (type : TargetType) : string :=
  match type with
  | plugin => "plugin"
  | skill => "skill"
  end.

Definition noun_of (type : TargetType) : string :=
  match type with
  | plugin => "Plugin"
  | skill => "Skill"
  end.

(** ** Locating JSON in the output of a command

    The device routes look for JSON in the output of the CLI with
    [stdout.match(/\{[\s\S]*\}/)]: an opening brace, as many characters of
    any kind as possible, a closing brace. *)

(** The longest prefix of [s] that ends with a closing brace: the greedy
    [[\s\S]*\}]. *)
Fixpoint through_last_close (s : string) : option string :=
  match s with
  | EmptyString => None
  | String c rest =>
      match through_last_close rest with
      | Some m => Some (String c m)
      | None => if Ascii.eqb c "}" then Some (String c EmptyString) else None
      end
  end.

(** The match, tried at each position from the left. *)
Fixpoint json_match (s : string) : option string :=
  match s with
  | EmptyString => None
  | String c rest =>
      if Ascii.eqb c "{"
      then match through_last_close rest with
           | Some m => Some (String c m)
           | None => json_match rest
           end
      else json_match rest
  end.

Fixpoint has_char (c : Ascii.ascii) (s : string) : bool :=
  match s with
  | EmptyString => false
  | String c' rest => Ascii.eqb c c' || has_char c rest
  end.

(** ** A container that answers promptly *)

(** An answer that starts the command and ends it within five seconds,
    the shortest of the timeouts that the manager waits with. *)
Definition prompt (a : Answer) : Prop :=
  match a with
  | Runs _ _ _ (Some d) => (d <= 5000)%Z
  | _ => False
  end.

(** Every coming call is answered in that way. *)
Definition obliging (s : State) : Prop := Forall prompt (script s).

(** What the [try] of [getManifest] makes of the files: it parses the
    manifest file, and [{}] when the file is missing or empty. *)
Definition stored_manifest (fs : gmap string text) : result value :=
  JSON_parse (text_or (default (Plain "") (fs !! MANIFEST_FILE)) (JsonText (VObj []))).

(** The fields of the manifest that [getManifest] returns from its
    [catch], when the file cannot be read or parsed. *)
Definition fresh_fields (now : string) : list (string * value) :=
  [("plugins", VArr [] []); ("skills", VArr [] []); ("lastUpdated", VStr now)].

(** The items of [manifest.k || []], when that is an array as [JSON.parse]
    makes them, without named properties. *)
Definition entries (fields : list (string * value)) (k : string) : option (list value) :=
  match js_or (default VUndefined (assoc_get k fields)) (VArr [] []) with
  | VArr items [] => Some items
  | _ => None
  end.

(** [to_json] on the fields of an object and on an item of an array. *)
Fixpoint json_fields (l : list (string * value)) : list (string * value) :=
  match l with
  | [] => []
  | (k, VUndefined) :: l' => json_fields l'
  | (k, x) :: l' => (k, to_json x) :: json_fields l'
  end.

Definition json_item (x : value) : value :=
  match x with
  | VUndefined => VNull
  | _ => to_json x
  end.

(** A value that a JSON text denotes: [JSON.stringify] keeps all of it. *)
Definition is_json (v : value) : Prop := to_json v = v.

(** The values with properties to read: all but [undefined] and [null]. *)
Definition readable (v : value) : Prop :=
  match v with
  | VUndefined | VNull => False
  | _ => True
  end.

(** The list of the given type in what [listInstalled] returns. *)
Definition list_of (type : TargetType) (i : Installed) : value :=
  match type with
  | plugin => plugins i
  | skill => skills i
  end.

(** The manifest with the given fields after the entries with the key
    [name] are filtered out of the list of [type] and the date is set. *)
Definition filtered (type : TargetType) (name : string) (fields : list (string * value))
    (items : list value) (now : string) : value :=
  VObj (assoc_set "lastUpdated" (VStr now)
          (assoc_set (list_key type) (VArr (List.filter (keeps type name) items) []) fields)).

(** A job that has come to its end. *)
Definition terminal (j : InstallationJob) : Prop :=
  (Job.status j = completed \/ Job.status j = failed) /\ is_Some (Job.completedAt j).

(** Every job that the table of a manager holds has come to its end. *)
Definition table_ok (this : InstallationManager) (s : State) : Prop :=
  forall table jobId r,
    maps s !! activeJobs this = Some table -> In (jobId, r) table ->
    exists j, jobs s !! r = Some j /\ terminal j.

(** The operations that write to no job object but the one behind [r],
    and make no new one. *)
Definition updates_only (r : jobref) X (o : op X) : Prop :=
  match o with
  | NewJob _ => False
  | UpdateJob r' _ => r' = r
  | _ => True
  end.

(** A runtime for [get_plugins]: the sum of the lengths for two arrays. *)
Definition array_length_sum (a b : value) : result value :=
  match a, b with
  | VArr x _, VArr y _ => inr (VNum (Z.of_nat (length x + length y)))
  | _, _ => inl (TypeError "not an array")
  end.

(** ** Sample states *)

(** A container that has just started: no file, no process. *)
Definition empty_container : State :=
  {| files := ∅; processes := []; script := []; clock := 1700000000123;
     entropy := [12345]; console := []; jobs := []; maps := [] |}.

Definition sample_plugins : list value :=
  [PluginManifest "alpha" (Some "2023-11-14T22:13:20.123Z");
   PluginManifest "beta" (Some "2023-11-14T22:13:20.123Z")].

Definition sample_fields : list (string * value) :=
  [("plugins", VArr sample_plugins []);
   ("skills", VArr [SkillManifest "gamma" (Some "2023-11-14T22:13:20.123Z")] []);
   ("lastUpdated", VStr "2023-11-14T22:13:20.123Z")].

Definition sample_manifest : value := VObj sample_fields.

(** A container with a manifest of two plugins and one skill, in which
    one manager exists; the container answers the coming calls with
    [answers]. *)
Definition sample_container (answers : list Answer) : State :=
  {| files := {[ MANIFEST_FILE := JsonText sample_manifest ]}; processes := [];
     script := answers; clock := 1700000000123; entropy := [12345]; console := [];
     jobs := []; maps := [[]] |}.

Definition sample_manager : InstallationManager := {| activeJobs := 0%nat |}.

(** * Checks of the renderings *)

Example toISOString_epoch : toISOString 0 = "1970-01-01T00:00:00.000Z".
Proof. reflexivity. Qed.

Example toISOString_2023 : toISOString 1700000000123 = "2023-11-14T22:13:20.123Z".
Proof. reflexivity. Qed.

Example format_uuid_0 : format_uuid 0 = "00000000-0000-4000-8000-000000000000".
Proof. reflexivity. Qed.

(** * Reasoning about programs *)

Lemma bind_unfold {A B} (p : Prog A) (f : A -> Prog B) : p ≫= f = bind p f.
Proof. reflexivity. Qed.

Lemma run_bind {A B} (p : Prog A) (f : A -> Prog B) (s : State) :
  run (p ≫= f) s =
  match run p s with
  | (inl e, s') => (inl e, s')
  | (inr a, s') => run (f a) s'
  end.
Proof.
  rewrite bind_unfold. revert s.
  induction p as [a | e | X o k IH]; intros s; simpl; try reflexivity.
  destruct (handle o s) as [x s']. apply IH.
Qed.

Lemma run_try_catch {A} (p : Prog A) (h : thrown -> Prog A) (s : State) :
  run (try_catch p h) s =
  match run p s with
  | (inl e, s') => run (h e) s'
  | (inr a, s') => (inr a, s')
  end.
Proof.
  revert s.
  induction p as [a | e | X o k IH]; intros s; simpl; try reflexivity.
  destruct (handle o s) as [x s']. apply IH.
Qed.

Lemma run_perform {X} (o : op X) (s : State) :
  run (perform o) s = (inr (handle o s).1, (handle o s).2).
Proof. unfold perform. simpl. by destruct (handle o s). Qed.

Lemma run_await {X} (o : op (result X)) (s : State) :
  run (await o) s = ((handle o s).1, (handle o s).2).
Proof. unfold await. simpl. by destruct (handle o s) as [[e | x] s']. Qed.

Lemma run_lift {A} (r : result A) (s : State) : run (lift r) s = (r, s).
Proof. by destruct r. Qed.

Lemma run_mret {A} (a : A) (s : State) : run (mret a) s = (inr a, s).
Proof. reflexivity. Qed.

(** ** Footprints: what the operations of a program can change *)

Section Footprint.
Context (Q : forall X, op X -> Prop).

Lemma all_ops_mret {A} (a : A) : all_ops Q (mret a).
Proof. constructor. Qed.

Lemma all_ops_lift {A} (r : result A) : all_ops Q (lift r).
Proof. destruct r; constructor. Qed.

Lemma all_ops_perform {X} (o : op X) : Q X o -> all_ops Q (perform o).
Proof. intros H. constructor; [done | constructor]. Qed.

Lemma all_ops_await {X} (o : op (result X)) : Q _ o -> all_ops Q (await o).
Proof. intros H. constructor; [done | apply all_ops_lift]. Qed.

Lemma all_ops_bind {A B} (p : Prog A) (f : A -> Prog B) :
  all_ops Q p -> (forall a, all_ops Q (f a)) -> all_ops Q (p ≫= f).
Proof.
  intros Hp Hf. rewrite bind_unfold.
  induction Hp as [a | e | X o k Ho _ IH]; simpl; [apply Hf | constructor |].
  constructor; [done | apply IH].
Qed.

Lemma all_ops_try_catch {A} (p : Prog A) (h : thrown -> Prog A) :
  all_ops Q p -> (forall e, all_ops Q (h e)) -> all_ops Q (try_catch p h).
Proof.
  intros Hp Hh.
  induction Hp as [a | e | X o k Ho _ IH]; simpl; [constructor | apply Hh |].
  constructor; [done | apply IH].
Qed.

(** A relation between states that every operation of the footprint
    respects is respected by the whole run. *)
Lemma run_all_ops {A} (R : State -> State -> Prop) (p : Prog A) (s : State) :
  (forall s, R s s) ->
  (forall s1 s2 s3, R s1 s2 -> R s2 s3 -> R s1 s3) ->
  (forall X (o : op X) s, Q X o -> R s (handle o s).2) ->
  all_ops Q p -> R s (run p s).2.
Proof.
  intros Hrefl Htrans Hstep Hp. revert s.
  induction Hp as [a | e | X o k Ho _ IH]; intros s; simpl; [apply Hrefl.. |].
  specialize (Hstep X o s Ho). destruct (handle o s) as [x s1].
  eapply Htrans; [exact Hstep | apply IH].
Qed.
End Footprint.

Lemma spawn_Sh_files line out err exit d fs :
  (spawn (Sh line) out err exit d fs).2 = fs.
Proof.
  unfold spawn. destruct (strip_prefix "cat " line); [destruct (fs !! s) |]; reflexivity.
Qed.

Lemma handle_reads_only X (o : op X) s : reads_only X o -> same_store s (handle o s).2.
Proof.
  unfold same_store.
  destruct o; simpl; try done.
  - destruct cmd as [line | payload path]; [intros _ | done].
    unfold next_answer. destruct (script s) as [| [e | out err exit d] rest]; simpl; try done.
    + pose proof (spawn_Sh_files line "" "" 0 (Some 0) (files s)) as H.
      destruct (spawn (Sh line) "" "" 0 (Some 0) (files s)); simpl in *. by subst.
    + pose proof (spawn_Sh_files line out err exit d (files s)) as H.
      destruct (spawn (Sh line) out err exit d (files s)); simpl in *. by subst.
  - intros _. destruct (waitForProcess _ _); done.
  - intros _. unfold next_answer. destruct (script s) as [| [e | out err exit d] rest]; done.
Qed.

Lemma handle_off_heap X (o : op X) s : off_heap X o -> same_heap s (handle o s).2.
Proof.
  unfold same_heap.
  destruct o; simpl; try done.
  - intros _. unfold next_answer.
    destruct (script s) as [| [e | out err exit d] rest]; simpl; try done.
    + by destruct (spawn cmd "" "" 0 (Some 0) (files s)).
    + by destruct (spawn cmd out err exit d (files s)).
  - intros _. destruct (waitForProcess _ _); done.
  - intros _. unfold next_answer. destruct (script s) as [| [e | out err exit d] rest]; done.
Qed.

Lemma run_reads_only {A} (p : Prog A) s :
  all_ops reads_only p -> same_store s (run p s).2.
Proof.
  apply run_all_ops.
  - done.
  - unfold same_store. intros s1 s2 s3 (-> & -> & ->) (-> & -> & ->). done.
  - apply handle_reads_only.
Qed.

Lemma run_off_heap {A} (p : Prog A) s :
  all_ops off_heap p -> same_heap s (run p s).2.
Proof.
  apply run_all_ops.
  - done.
  - unfold same_heap. intros s1 s2 s3 (-> & ->) (-> & ->). done.
  - apply handle_off_heap.
Qed.

Create HintDb footprint.
#[local] Hint Resolve all_ops_mret all_ops_lift all_ops_perform all_ops_await
  all_ops_bind all_ops_try_catch : footprint.
#[local] Hint Extern 1 (reads_only _ _) => exact I : footprint.
#[local] Hint Extern 1 (off_heap _ _) => exact I : footprint.

Lemma getManifest_reads_only : all_ops reads_only getManifest.
Proof. unfold getManifest, getManifest_try, getManifest_catch. auto 20 with footprint. Qed.

Lemma getManifest_off_heap : all_ops off_heap getManifest.
Proof. unfold getManifest, getManifest_try, getManifest_catch. auto 20 with footprint. Qed.

Lemma updateManifest_off_heap type entry : all_ops off_heap (updateManifest type entry).
Proof.
  unfold updateManifest. pose proof getManifest_off_heap. auto 20 with footprint.
Qed.

Lemma removeFromManifest_off_heap type name :
  all_ops off_heap (removeFromManifest type name).
Proof.
  unfold removeFromManifest. pose proof getManifest_off_heap. auto 20 with footprint.
Qed.

(** ** The manifest is read without failing *)

Lemma getManifest_returns s :
  exists m s', run getManifest s = (inr m, s') /\ same_store s s'.
Proof.
  pose proof (run_reads_only getManifest s getManifest_reads_only) as Hsame.
  revert Hsame. unfold getManifest. rewrite run_try_catch.
  destruct (run _ s) as [[e | m] s1]; [| eauto].
  unfold getManifest_catch.
  rewrite run_bind, run_perform, run_bind, run_perform, run_mret. simpl. eauto.
Qed.

(** ** Stepping through a run *)

Lemma run_bind_perform {X B} (o : op X) (f : X -> Prog B) s :
  run (perform o ≫= f) s = run (f (handle o s).1) (handle o s).2.
Proof. by rewrite run_bind, run_perform. Qed.

Lemma run_bind_await {X B} (o : op (result X)) (f : X -> Prog B) s :
  run (await o ≫= f) s =
  match (handle o s).1 with
  | inl e => (inl e, (handle o s).2)
  | inr x => run (f x) (handle o s).2
  end.
Proof. rewrite run_bind, run_await. by destruct (handle o s) as [[e | x] s']. Qed.

Lemma run_bind_lift {A B} (r : result A) (f : A -> Prog B) s :
  run (lift r ≫= f) s =
  match r with
  | inl e => (inl e, s)
  | inr x => run (f x) s
  end.
Proof. rewrite run_bind, run_lift. by destruct r. Qed.

Ltac state_simpl :=
  cbn [handle fst snd files processes script clock entropy console jobs maps
       with_files with_processes with_script with_clock with_entropy with_console
       with_jobs with_maps].

Ltac step :=
  first [ rewrite run_bind_perform | rewrite run_bind_await | rewrite run_bind_lift
        | rewrite run_perform | rewrite run_await | rewrite run_lift | rewrite run_mret ];
  state_simpl.

(** The same for a run that is known to return: an awaited call that is
    the next operation was not rejected, and left the heap alone. *)
Ltac step_in H :=
  lazymatch type of H with
  | run (perform _ ≫= _) _ = _ =>
      rewrite run_bind_perform in H;
      cbn [handle fst snd files processes script clock entropy console jobs maps
           with_files with_processes with_script with_clock with_entropy with_console
           with_jobs with_maps] in H
  | run (await ?o ≫= _) ?s = _ =>
      let Hh := fresh "Hh" in
      let e := fresh "e" in
      let x := fresh "x" in
      let s1 := fresh "s" in
      rewrite run_bind_await in H;
      destruct (handle o s) as [[e | x] s1] eqn:Hh; [discriminate H |];
      cbn [fst snd] in H
  | run (lift ?r ≫= _) _ = _ =>
      let e := fresh "e" in
      let x := fresh "x" in
      let Hr := fresh "Hr" in
      rewrite run_bind_lift in H;
      destruct r as [e | x] eqn:Hr; [discriminate H |]
  end.

(** A run of [p ≫= f] that returns went through a run of [p] that
    returned. *)
Lemma run_bind_inr {A B} (p : Prog A) (f : A -> Prog B) s b s' :
  run (p ≫= f) s = (inr b, s') ->
  exists a s1, run p s = (inr a, s1) /\ run (f a) s1 = (inr b, s').
Proof.
  rewrite run_bind. destruct (run p s) as [[e | a] s1]; [done | eauto].
Qed.

(** ** More footprints *)

Lemma all_ops_weaken {A} (Q Q' : forall X, op X -> Prop) (p : Prog A) :
  (forall X o, Q X o -> Q' X o) -> all_ops Q p -> all_ops Q' p.
Proof. intros HQ Hp. induction Hp; constructor; auto. Qed.

Lemma handle_off_maps X (o : op X) s : off_maps X o -> maps (handle o s).2 = maps s.
Proof.
  destruct o; simpl; try done.
  - intros _. unfold next_answer.
    destruct (script s) as [| [e | out err exit d] rest]; simpl; try done.
    + by destruct (spawn cmd "" "" 0 (Some 0) (files s)).
    + by destruct (spawn cmd out err exit d (files s)).
  - intros _. destruct (waitForProcess _ _); done.
  - intros _. unfold next_answer. destruct (script s) as [| [e | out err exit d] rest]; done.
Qed.

Lemma jobs_steady_refl s : jobs_steady s s.
Proof. intros r j Hj. exists j. by repeat split. Qed.

Lemma jobs_steady_trans s1 s2 s3 :
  jobs_steady s1 s2 -> jobs_steady s2 s3 -> jobs_steady s1 s3.
Proof.
  intros H12 H23 r j Hj.
  destruct (H12 r j Hj) as (j2 & Hj2 & ? & ? & ? & ?).
  destruct (H23 r j2 Hj2) as (j3 & Hj3 & ? & ? & ? & ?).
  exists j3. unfold same_identity. split; [done | repeat split; congruence].
Qed.

Lemma jobs_steady_eq s s' : jobs s' = jobs s -> jobs_steady s s'.
Proof. intros Heq r j Hj. exists j. rewrite Heq. by repeat split. Qed.

Lemma handle_steady X (o : op X) s : steady X o -> jobs_steady s (handle o s).2.
Proof.
  destruct o; simpl; intros Hf; try (apply jobs_steady_eq; reflexivity).
  - apply jobs_steady_eq. unfold next_answer.
    destruct (script s) as [| [e | out err exit d] rest]; simpl; try done.
    + by destruct (spawn cmd "" "" 0 (Some 0) (files s)).
    + by destruct (spawn cmd out err exit d (files s)).
  - apply jobs_steady_eq. destruct (waitForProcess _ _); done.
  - apply jobs_steady_eq. unfold next_answer.
    destruct (script s) as [| [e | out err exit d] rest]; done.
  - intros r j' Hj'. exists j'. simpl. split; [| by repeat split].
    apply lookup_app_l_Some. done.
  - intros r' j' Hj'. simpl. rewrite list_lookup_alter. case_decide as Heq.
    + subst r'. rewrite Hj'. simpl. eauto.
    + exists j'. split; [done | by repeat split].
Qed.

Lemma run_off_maps {A} (p : Prog A) s :
  all_ops off_maps p -> maps (run p s).2 = maps s.
Proof.
  apply (run_all_ops off_maps (fun s s' => maps s' = maps s)).
  - done.
  - intros s1 s2 s3 H12 H23. congruence.
  - apply handle_off_maps.
Qed.

Lemma run_steady {A} (p : Prog A) s :
  all_ops steady p -> jobs_steady s (run p s).2.
Proof.
  apply run_all_ops.
  - apply jobs_steady_refl.
  - apply jobs_steady_trans.
  - apply handle_steady.
Qed.

#[local] Hint Extern 1 (off_maps _ _) => exact I : footprint.
#[local] Hint Extern 1 (steady _ _) => first [exact I | by intros []] : footprint.

Lemma off_heap_off_maps {A} (p : Prog A) : all_ops off_heap p -> all_ops off_maps p.
Proof. apply all_ops_weaken. by intros X []. Qed.

Lemma off_heap_steady {A} (p : Prog A) : all_ops off_heap p -> all_ops steady p.
Proof. apply all_ops_weaken. by intros X []. Qed.

#[local] Hint Resolve getManifest_off_heap updateManifest_off_heap
  removeFromManifest_off_heap off_heap_off_maps off_heap_steady : footprint.

Lemma install_try_off_maps type tag cmd entry target job :
  all_ops off_maps (install_try type tag cmd entry target job).
Proof. unfold install_try. auto 30 with footprint. Qed.

Lemma install_try_steady type tag cmd entry target job :
  all_ops steady (install_try type tag cmd entry target job).
Proof. unfold install_try. auto 30 with footprint. Qed.

Lemma install_catch_off_maps tag target job e :
  all_ops off_maps (install_catch tag target job e).
Proof. unfold install_catch. auto 30 with footprint. Qed.

Lemma install_catch_steady tag target job e :
  all_ops steady (install_catch tag target job e).
Proof. unfold install_catch. auto 30 with footprint. Qed.

Lemma uninstall_off_heap type tag cmd target :
  all_ops off_heap (uninstall type tag cmd target).
Proof. unfold uninstall, uninstall_try. auto 30 with footprint. Qed.

Lemma listInstalled_off_heap this : all_ops off_heap (listInstalled this).
Proof. unfold listInstalled. auto 30 with footprint. Qed.

(** ** The manifest is written last

    Nothing follows a successful start of the [echo] that writes the
    manifest: a run that throws has written nothing. *)

Lemma handle_keeps_files X (o : op X) s :
  keeps_files X o -> files (handle o s).2 = files s.
Proof.
  destruct o; simpl; try done.
  - destruct cmd as [line | payload path]; [intros _ | done].
    unfold next_answer. destruct (script s) as [| [e | out err exit d] rest]; simpl; try done.
    + pose proof (spawn_Sh_files line "" "" 0 (Some 0) (files s)) as H.
      destruct (spawn (Sh line) "" "" 0 (Some 0) (files s)); simpl in *. by subst.
    + pose proof (spawn_Sh_files line out err exit d (files s)) as H.
      destruct (spawn (Sh line) out err exit d (files s)); simpl in *. by subst.
  - intros _. destruct (waitForProcess _ _); done.
  - intros _. unfold next_answer. destruct (script s) as [| [e | out err exit d] rest]; done.
Qed.

Lemma run_keeps_files {A} (p : Prog A) s :
  all_ops keeps_files p -> files (run p s).2 = files s.
Proof.
  apply (run_all_ops keeps_files (fun s s' => files s' = files s)).
  - done.
  - intros s1 s2 s3 H12 H23. congruence.
  - apply handle_keeps_files.
Qed.

Lemma start_rejected_files cmd s e s' :
  handle (StartProcess cmd) s = (inl e, s') -> files s' = files s.
Proof.
  simpl. unfold next_answer.
  destruct (script s) as [| [e0 | out err exit d] rest]; simpl.
  - by destruct (spawn cmd "" "" 0 (Some 0) (files s)).
  - by intros [= _ <-].
  - by destruct (spawn cmd out err exit d (files s)).
Qed.

Lemma run_writes_last {A} (p : Prog A) s e s' :
  writes_last p -> run p s = (inl e, s') -> files s' = files s.
Proof.
  intros Hp. revert s.
  induction Hp as [a | e0 | X o k Ho _ IH | payload path k Hrej Hok]; intros s;
    cbn [run].
  - done.
  - by intros [= _ <-].
  - pose proof (handle_keeps_files X o s Ho) as Hf.
    destruct (handle o s) as [x s1]. intros Hrun. rewrite (IH x s1 Hrun). exact Hf.
  - destruct (handle (StartProcess (EchoTo payload path)) s) as [[e0 | x] s1] eqn:Hh.
    + intros Hrun. pose proof (run_keeps_files _ s1 (Hrej e0)) as Hf.
      rewrite Hrun in Hf. simpl in Hf. rewrite Hf.
      by apply start_rejected_files in Hh.
    + destruct (Hok x) as [a ->]. done.
Qed.

Lemma writes_last_all_ops {A} (p : Prog A) : all_ops keeps_files p -> writes_last p.
Proof. induction 1; constructor; auto. Qed.

Lemma writes_last_bind {A B} (p : Prog A) (f : A -> Prog B) :
  all_ops keeps_files p -> (forall a, writes_last (f a)) -> writes_last (p ≫= f).
Proof.
  intros Hp Hf. rewrite bind_unfold.
  induction Hp as [a | e | X o k Ho _ IH]; simpl; [apply Hf | constructor |].
  apply writes_last_Vis; [done | apply IH].
Qed.

Lemma writes_last_echo {B} payload path (b : B) :
  writes_last (await (StartProcess (EchoTo payload path)) ≫= fun _ => mret b).
Proof.
  apply writes_last_Echo.
  - intros e. constructor.
  - intros x. by exists b.
Qed.

#[local] Hint Extern 1 (keeps_files _ _) => exact I : footprint.

Lemma reads_only_keeps_files {A} (p : Prog A) :
  all_ops reads_only p -> all_ops keeps_files p.
Proof. apply all_ops_weaken. by intros X [| | | [] | | | | | | | | | |]. Qed.

#[local] Hint Resolve getManifest_reads_only reads_only_keeps_files
  writes_last_bind writes_last_echo : footprint.

Lemma updateManifest_writes_last type entry : writes_last (updateManifest type entry).
Proof. unfold updateManifest. auto 20 with footprint. Qed.

Lemma removeFromManifest_writes_last type name :
  writes_last (removeFromManifest type name).
Proof. unfold removeFromManifest. auto 20 with footprint. Qed.

#[local] Hint Resolve updateManifest_writes_last removeFromManifest_writes_last : footprint.

Lemma install_try_writes_last type tag cmd entry target job :
  writes_last (install_try type tag cmd entry target job).
Proof. unfold install_try. auto 30 with footprint. Qed.

(** ** What a successful manifest update writes *)

Lemma assoc_get_set_same {A} k (v : A) l : assoc_get k (assoc_set k v l) = Some v.
Proof.
  induction l as [| [k' v'] l IH]; simpl.
  - by rewrite String.eqb_refl.
  - destruct (String.eqb k k') eqn:Hk; simpl; rewrite ?String.eqb_refl, ?Hk; done.
Qed.

Lemma assoc_get_set_other {A} k k' (v : A) l :
  k <> k' -> assoc_get k' (assoc_set k v l) = assoc_get k' l.
Proof.
  intros Hne.
  assert (String.eqb k' k = false) as Hk' by (apply String.eqb_neq; congruence).
  induction l as [| [k0 v0] l IH]; simpl.
  - by rewrite Hk'.
  - destruct (String.eqb k k0) eqn:Hk; simpl.
    + apply String.eqb_eq in Hk as <-. by rewrite Hk'.
    + by rewrite IH.
Qed.

Lemma start_echo_files payload path s x s' :
  handle (StartProcess (EchoTo payload path)) s = (inr x, s') ->
  files s' = <[path := payload]> (files s).
Proof.
  simpl. unfold next_answer.
  destruct (script s) as [| [e0 | out err exit d] rest]; simpl; try done.
  - by intros [= _ <-].
  - by intros [= _ <-].
Qed.

Lemma handle_files {X} (o : op X) s x s' :
  handle o s = (x, s') -> keeps_files X o -> files s' = files s.
Proof. intros Hh Ho. pose proof (handle_keeps_files X o s Ho) as Hf. by rewrite Hh in Hf. Qed.

Lemma handle_processes_GetLogs proc s x s' :
  handle (GetLogs proc) s = (inr x, s') ->
  processes s' = processes s
  /\ x = default {| stdout := Plain ""; stderr := Plain "" |} (p_logs <$> processes s !! proc).
Proof.
  simpl. unfold next_answer.
  destruct (script s) as [| [e0 | out err exit d] rest]; simpl; try done.
  - by intros [= <- <-].
  - by intros [= <- <-].
Qed.

Lemma handle_processes_Wait proc t s x s' :
  handle (WaitForProcess proc t) s = (x, s') -> processes s' = processes s.
Proof. simpl. destruct (waitForProcess _ _); by intros [= _ <-]. Qed.

(** After a successful start the new process is the last one, and it
    behaves as the container's answer says. *)
Lemma handle_Start_inr cmd s x s' :
  handle (StartProcess cmd) s = (inr x, s') ->
  exists out err exit d,
    hd quiet (script s) = Runs out err exit d
    /\ x = length (processes s)
    /\ processes s' = (processes s ++ [(spawn cmd out err exit d (files s)).1])%list
    /\ files s' = (spawn cmd out err exit d (files s)).2.
Proof.
  simpl. unfold next_answer.
  destruct (script s) as [| [e0 | out err exit d] rest]; simpl; try done.
  - destruct (spawn cmd "" "" 0 (Some 0) (files s)) as [p fs] eqn:Hsp.
    intros [= <- <-]. exists "", "", 0, (Some 0). by rewrite Hsp.
  - destruct (spawn cmd out err exit d (files s)) as [p fs] eqn:Hsp.
    intros [= <- <-]. exists out, err, exit, d. by rewrite Hsp.
Qed.

Lemma spawn_cat out err exit d fs :
  p_logs (spawn (Sh ("cat " ++ MANIFEST_FILE)) out err exit d fs).1
  = match fs !! MANIFEST_FILE with
    | Some t => {| stdout := t; stderr := Plain "" |}
    | None => {| stdout := Plain "";
                 stderr := Plain ("cat: " ++ MANIFEST_FILE ++ ": No such file or directory") |}
    end.
Proof.
  unfold spawn. change (strip_prefix "cat " ("cat " ++ MANIFEST_FILE)) with (Some MANIFEST_FILE).
  cbv beta iota. by destruct (fs !! MANIFEST_FILE).
Qed.

(** What the [try] of [getManifest] returns is the parsed file, or [{}]
    when the file is missing or empty. *)
Lemma getManifest_try_inr s m s' :
  run getManifest_try s = (inr m, s') ->
  match files s !! MANIFEST_FILE with
  | Some t => JSON_parse (text_or t (JsonText (VObj []))) = inr m
  | None => m = VObj []
  end.
Proof.
  unfold getManifest_try. intros Hrun.
  do 3 step_in Hrun. rewrite run_lift in Hrun.
  apply handle_Start_inr in Hh as (out & err & exit & d & _ & -> & Hprocs & _).
  apply handle_processes_Wait in Hh0.
  apply handle_processes_GetLogs in Hh1 as [_ ->].
  rewrite Hh0, Hprocs, lookup_app_r, Nat.sub_diag in Hrun by done.
  simpl in Hrun. rewrite spawn_cat in Hrun.
  destruct (files s !! MANIFEST_FILE) as [t |]; simpl in Hrun; congruence.
Qed.

Lemma getManifest_object s m s' :
  (forall v, files s !! MANIFEST_FILE = Some (JsonText v) -> is_object v) ->
  run getManifest s = (inr m, s') -> is_object m.
Proof.
  intros Hfile. unfold getManifest. rewrite run_try_catch.
  destruct (run getManifest_try s) as [[e | m0] s1] eqn:Htry.
  - unfold getManifest_catch. do 2 step. rewrite run_mret. by intros [= <- _].
  - intros [= <- <-]. apply getManifest_try_inr in Htry.
    destruct (files s !! MANIFEST_FILE) as [[str | v] |]; [| | by subst].
    + unfold text_or in Htry. simpl in Htry.
      destruct (String.eqb str ""); simpl in Htry; [| done]. by injection Htry as <-.
    + simpl in Htry. injection Htry as <-. by apply Hfile.
Qed.

Lemma push_entry_object fields k entry m :
  push_entry (VObj fields) k entry = inr m ->
  exists fields' items extra,
    m = VObj fields' /\ assoc_get k fields' = Some (VArr (items ++ [entry]) extra).
Proof.
  unfold push_entry. simpl. rewrite assoc_get_set_same. simpl.
  destruct (js_or _ _) as [| | | | | items extra |]; simpl; try done.
  destruct (assoc_get "push" extra); simpl; [done |].
  intros [= <-]. eexists _, items, extra. split; [done |]. apply assoc_get_set_same.
Qed.

Lemma list_key_not_lastUpdated type : "lastUpdated" <> list_key type.
Proof. by destruct type. Qed.

Lemma updateManifest_inr type entry s u s' :
  (forall v, files s !! MANIFEST_FILE = Some (JsonText v) -> is_object v) ->
  run (updateManifest type entry) s = (inr u, s') ->
  exists m items extra,
    files s' = <[MANIFEST_FILE := JSON_stringify m]> (files s)
    /\ is_object m
    /\ get_prop m (list_key type) = inr (VArr (items ++ [entry]) extra).
Proof.
  intros Hfile Hrun. unfold updateManifest in Hrun.
  apply run_bind_inr in Hrun as (m0 & s1 & Hget & Hrun).
  pose proof (getManifest_object _ _ _ Hfile Hget) as Hobj.
  pose proof (run_reads_only getManifest s getManifest_reads_only) as (Hf1 & _).
  rewrite Hget in Hf1. simpl in Hf1.
  destruct m0 as [| | | | | |fields]; try done.
  step_in Hrun. apply push_entry_object in Hr as (fields' & items & extra & -> & Hlist).
  step_in Hrun. step_in Hrun. simpl in Hr. injection Hr as <-.
  step_in Hrun. apply handle_files in Hh; [| exact I]. simpl in Hh.
  step_in Hrun. apply start_echo_files in Hh0. rewrite run_mret in Hrun.
  injection Hrun as _ <-.
  eexists _, items, extra. split; [by rewrite Hh0, Hh, Hf1 |]. split; [done |].
  simpl. by rewrite assoc_get_set_other, Hlist by apply list_key_not_lastUpdated.
Qed.

(** ** The shape of an install *)

Lemma install_run this type tag cmd entry target s :
  run (install this type tag cmd entry target) s =
  match run (install_try type tag cmd entry target (length (jobs s)))
          (registered this type target s) with
  | (inl e, s4) =>
      (inr (length (jobs s)),
       (run (install_catch tag target (length (jobs s)) e) s4).2)
  | (inr _, s4) => (inr (length (jobs s)), s4)
  end.
Proof.
  unfold install. do 4 step. rewrite run_bind, run_try_catch.
  fold (new_job type target s). fold (registered this type target s).
  destruct (run (install_try _ _ _ _ _ _) _) as [[e | []] s4]; [| by step].
  destruct (run (install_catch _ _ _ _) s4) as [[e' | []] s5] eqn:Hcatch; simpl.
  - exfalso. revert Hcatch. unfold install_catch. do 4 step. rewrite run_perform. done.
  - done.
Qed.

Lemma registered_job this type target s :
  jobs (registered this type target s) !! length (jobs s) = Some (new_job type target s).
Proof. unfold registered. state_simpl. apply list_lookup_middle. done. Qed.

Lemma lookup_alter_same {A} (f : A -> A) (l : list A) (r : nat) (x : A) :
  l !! r = Some x -> alter f r l !! r = Some (f x).
Proof. intros H. rewrite list_lookup_alter, decide_True by done. by rewrite H. Qed.

Lemma install_catch_run tag target r e s j :
  jobs s !! r = Some j ->
  let s' := (run (install_catch tag target r e) s).2 in
  jobs s' !! r =
    Some (Job.set_error (error_message e)
            (Job.set_completedAt (toISOString (clock s)) (Job.set_status failed j)))
  /\ files s' = files s /\ maps s' = maps s.
Proof.
  intros Hj. unfold install_catch. do 4 step. rewrite run_perform. state_simpl.
  split; [| done].
  by do 3 apply lookup_alter_same.
Qed.

Lemma handle_jobs {X} (o : op X) s x s' :
  handle o s = (x, s') -> off_heap X o -> jobs s' = jobs s.
Proof. intros Hh Ho. pose proof (handle_off_heap X o s Ho) as [Hj _]. by rewrite Hh in Hj. Qed.

(** The processes of the container are never forgotten. *)
Lemma handle_processes {X} (o : op X) s : processes s `prefix_of` processes (handle o s).2.
Proof.
  destruct o; simpl; try done.
  - unfold next_answer.
    destruct (script s) as [| [e | out err exit d] rest]; simpl; try done.
    + destruct (spawn cmd "" "" 0 (Some 0) (files s)). simpl. by apply prefix_app_r.
    + destruct (spawn cmd out err exit d (files s)). simpl. by apply prefix_app_r.
  - destruct (waitForProcess _ _); done.
  - unfold next_answer. destruct (script s) as [| [e | out err exit d] rest]; done.
Qed.

Lemma run_processes {A} (p : Prog A) s : processes s `prefix_of` processes (run p s).2.
Proof.
  apply (run_all_ops (fun _ _ => True) (fun s s' => processes s `prefix_of` processes s')).
  - done.
  - intros s1 s2 s3 H12 H23. by etrans.
  - intros X o s0 _. apply handle_processes.
  - clear s. induction p; constructor; auto.
Qed.

(** A [try] block of an install that returns: the command was started and
    ended in time, the job was marked, and the manifest update, started
    with the files as they were, returned. *)
Lemma install_try_inr type tag cmd entry target r s u s' j :
  run (install_try type tag cmd entry target r) s = (inr u, s') ->
  jobs s !! r = Some j ->
  exists out err exit d logs now sm,
    hd quiet (script s) = Runs out err exit d
    /\ processes s' !! length (processes s)
       = Some (spawn (Sh (cmd ++ target)) out err exit d (files s)).1
    /\ jobs s' !! r =
       Some (Job.set_completedAt now (Job.set_status completed (Job.set_output logs j)))
    /\ files sm = files s
    /\ run (updateManifest type (entry target (Job.startedAt j))) sm = (inr u, s').
Proof.
  unfold install_try. intros Hrun Hj.
  do 11 step_in Hrun. rewrite run_bind_perform in Hrun.
  pose proof Hh as Hjobs0. pose proof Hh0 as Hjobs1. pose proof Hh1 as Hjobs2.
  apply handle_jobs in Hjobs0, Hjobs1, Hjobs2; [| exact I..]. simpl in Hjobs0.
  pose proof Hh as Hf0. pose proof Hh0 as Hf1. pose proof Hh1 as Hf2.
  apply handle_files in Hf0, Hf1, Hf2; [| exact I..]. simpl in Hf0.
  apply handle_Start_inr in Hh as (out & err & exit & d & Hscript & -> & Hprocs & _).
  simpl in Hscript, Hprocs.
  apply handle_processes_Wait in Hh0. apply handle_processes_GetLogs in Hh1 as [Hh1 _].
  match type of Hrun with
  | run ?p ?s0 = _ =>
      pose proof (run_off_heap p s0 (updateManifest_off_heap _ _)) as [Hjobs _];
      pose proof (run_processes p s0) as Hpre
  end.
  rewrite Hrun in Hjobs, Hpre. simpl in Hjobs, Hpre.
  assert (jobs s2 !! r = Some j) as Hj2 by (by rewrite Hjobs2, Hjobs1, Hjobs0).
  cbn [handle fst snd jobs with_console with_jobs] in Hrun.
  rewrite (lookup_alter_same _ _ _ _ (lookup_alter_same _ _ _ _
             (lookup_alter_same _ _ _ _ Hj2))) in Hrun.
  change (Some ?x ≫= Job.startedAt) with (Job.startedAt x) in Hrun.
  cbn [Job.startedAt Job.set_completedAt Job.set_status Job.set_output] in Hrun.
  eexists out, err, exit, d, _, _, _.
  split; [exact Hscript |]. split; [| split; [| split; [| exact Hrun]]].
  - eapply prefix_lookup_Some; [| exact Hpre].
    rewrite Hh1, Hh0, Hprocs. by apply list_lookup_middle.
  - rewrite Hjobs. by do 3 apply lookup_alter_same.
  - simpl. by rewrite Hf2, Hf1, Hf0.
Qed.

(** The job of an install is created, then brought to an end: whatever
    the container does, the call returns the job, [completed] or
    [failed], with the date of its end. *)
Lemma install_terminal this type tag cmd entry target s :
  exists s' j,
    run (install this type tag cmd entry target) s = (inr (length (jobs s)), s')
    /\ jobs s' !! length (jobs s) = Some j
    /\ (Job.status j = completed \/ Job.status j = failed)
    /\ is_Some (Job.completedAt j)
    /\ same_identity (new_job type target s) j
    /\ maps s' = maps (registered this type target s).
Proof.
  rewrite install_run.
  pose proof (registered_job this type target s) as Hj0.
  pose proof (run_steady _ (registered this type target s)
                (install_try_steady type tag cmd entry target (length (jobs s)))) as Hst.
  pose proof (run_off_maps _ (registered this type target s)
                (install_try_off_maps type tag cmd entry target (length (jobs s)))) as Hmaps.
  destruct (run (install_try _ _ _ _ _ _) _) as [[e | u] s4] eqn:Htry.
  - destruct (Hst _ _ Hj0) as (j4 & Hj4 & Hid).
    destruct (install_catch_run tag target _ e s4 j4 Hj4) as (Hj & _ & Hm).
    eexists _, _. split; [reflexivity |]. split; [exact Hj |]. simpl.
    split; [eauto |]. split; [eauto |]. split; [exact Hid | exact Hmaps].
  - destruct (install_try_inr _ _ _ _ _ _ _ _ _ _ Htry Hj0)
      as (out & err & exit & d & logs & now & sm & _ & _ & Hj & _).
    eexists _, _. split; [reflexivity |]. split; [exact Hj |]. simpl.
    split; [eauto |]. split; [eauto |]. split; [by repeat split | exact Hmaps].
Qed.

(** C1. For every plugin name, [installPlugin] returns a job whose status
    is terminal: [completed] or [failed], never still [installing]; and
    likewise [installSkill] for every skill slug.  The returned job always
    has [completedAt] set.  This holds in every state of the container and
    for every way the container answers. *)
Theorem install_returns_terminal_job (this : InstallationManager) (target : string)
    (s : State) :
  (exists job s' j,
      run (installPlugin this target) s = (inr job, s')
      /\ jobs s' !! job = Some j
      /\ (Job.status j = completed \/ Job.status j = failed)
      /\ Job.status j <> installing
      /\ is_Some (Job.completedAt j))
  /\ (exists job s' j,
      run (installSkill this target) s = (inr job, s')
      /\ jobs s' !! job = Some j
      /\ (Job.status j = completed \/ Job.status j = failed)
      /\ Job.status j <> installing
      /\ is_Some (Job.completedAt j)).
Proof.
  split.
  - destruct (install_terminal this plugin "PLUGIN" "openclaw plugins install "
                PluginManifest target s) as (s' & j & Hrun & Hj & Hst & Hc & _ & _).
    exists (length (jobs s)), s', j. repeat split; try done.
    destruct Hst as [-> | ->]; done.
  - destruct (install_terminal this skill "SKILL" "npx clawhub install "
                SkillManifest target s) as (s' & j & Hrun & Hj & Hst & Hc & _ & _).
    exists (length (jobs s)), s', j. repeat split; try done.
    destruct Hst as [-> | ->]; done.
Qed.

(** ** Failures of an install *)

Lemma install_method_unfold type this target :
  install_method type this target
  = install this type (tag_of type) (install_command type) (entry_of type) target.
Proof. by destruct type. Qed.

Lemma install_block_unfold type target job :
  install_block type target job
  = install_try type (tag_of type) (install_command type) (entry_of type) target job.
Proof. by destruct type. Qed.

Lemma registered_files this type target s : files (registered this type target s) = files s.
Proof. reflexivity. Qed.

Lemma spawn_duration cmd out err exit d fs : p_duration (spawn cmd out err exit d fs).1 = d.
Proof.
  unfold spawn. destruct cmd as [line | payload path]; [| done].
  destruct (strip_prefix "cat " line); [destruct (fs !! s) |]; reflexivity.
Qed.

(** A rejected start of the install command is thrown by the block. *)
Lemma install_block_start_rejected type target job s e rest :
  script s = Rejects e :: rest ->
  (run (install_block type target job) s).1 = inl e.
Proof.
  intros Hs. destruct type; unfold install_block, install_try; do 2 step;
    unfold next_answer; state_simpl; rewrite Hs; reflexivity.
Qed.

(** A command that is not terminal after the timeout makes the block throw
    the error of the wait. *)
Lemma install_block_timeout type target job s out err exit d rest :
  script s = Runs out err exit d :: rest ->
  waitForProcess d INSTALLATION_TIMEOUT_MS = inl Timeout ->
  (run (install_block type target job) s).1 = inl Timeout.
Proof.
  intros Hs Hd.
  destruct type; unfold install_block, install_try; do 2 step;
    unfold next_answer; state_simpl; rewrite Hs; cbn [hd tl];
    match goal with
    | |- context [spawn ?c ?o ?e ?x ?d ?fs] =>
        pose proof (spawn_duration c o e x d fs) as Hp;
        destruct (spawn c o e x d fs) as [p fs']
    end; state_simpl; step;
    rewrite lookup_app_r, Nat.sub_diag by done; simpl in *; rewrite Hp, Hd; reflexivity.
Qed.





(** ** Installs that complete *)

Lemma spawn_install_exit type target out err exit d fs :
  p_exitCode (spawn (Sh (install_command type ++ target)) out err exit d fs).1 = exit.
Proof. by destruct type. Qed.




(** ** Listing *)

Lemma getManifest_run s :
  run getManifest s =
  match run getManifest_try s with
  | (inl _, s1) =>
      (inr (VObj [("plugins", VArr [] []); ("skills", VArr [] []);
                  ("lastUpdated", VStr (toISOString (clock s1)))]),
       with_console
         (console s1 ++
          [(console_log, "[GET MANIFEST] No existing manifest, starting fresh", None)]) s1)
  | (inr m, s1) => (inr m, s1)
  end.
Proof.
  unfold getManifest. rewrite run_try_catch.
  destruct (run getManifest_try s) as [[e | m] s1]; [| done].
  unfold getManifest_catch. do 2 step. by rewrite run_mret.
Qed.

Lemma listInstalled_run this s :
  run (listInstalled this) s =
  match run getManifest s with
  | (inr m, s1) =>
      match get_prop m "plugins", get_prop m "skills" with
      | inr ps, inr ss =>
          (inr {| plugins := js_or ps (VArr [] []); skills := js_or ss (VArr [] []) |}, s1)
      | inl e, _ | _, inl e =>
          (inr no_lists,
           with_console
             (console s1 ++ [(console_error, "[LIST INSTALLED FAILED]", Some (ArgThrown e))])
             s1)
      end
  | (inl e, s1) =>
      (inr no_lists,
       with_console
         (console s1 ++ [(console_error, "[LIST INSTALLED FAILED]", Some (ArgThrown e))]) s1)
  end.
Proof.
  unfold listInstalled. rewrite run_try_catch, run_bind.
  destruct (run getManifest s) as [[e | m] s1].
  - step. by rewrite run_mret.
  - step. destruct (get_prop m "plugins") as [e | ps].
    + step. rewrite run_mret. by destruct (get_prop m "skills").
    + step. destruct (get_prop m "skills") as [e | ss].
      * step. by rewrite run_mret.
      * by rewrite run_mret.
Qed.



(** ** Uninstalls *)

Lemma uninstall_method_unfold type this target :
  uninstall_method type this target
  = uninstall type (tag_of type) (uninstall_command type) target.
Proof. by destruct type. Qed.

Lemma uninstall_block_unfold type target :
  uninstall_block type target
  = uninstall_try type (tag_of type) (uninstall_command type) target.
Proof. by destruct type. Qed.

Lemma uninstall_run type tag cmd target s :
  run (uninstall type tag cmd target) s =
  match run (uninstall_try type tag cmd target) s with
  | (inl e, s1) =>
      (inr false,
       with_console
         (console s1 ++
          [(console_error, "[" ++ tag ++ " UNINSTALL FAILED] " ++ target ++ ":",
            Some (ArgThrown e))]) s1)
  | (inr b, s1) => (inr b, s1)
  end.
Proof.
  unfold uninstall. rewrite run_try_catch.
  destruct (run (uninstall_try _ _ _ _) s) as [[e | b] s1]; [| done].
  step. by rewrite run_mret.
Qed.

Lemma uninstall_try_true type tag cmd target s b s1 :
  run (uninstall_try type tag cmd target) s = (inr b, s1) -> b = true.
Proof.
  unfold uninstall_try. intros Hrun. do 7 step_in Hrun.
  apply run_bind_inr in Hrun as (u & sw & _ & Hrun). rewrite run_mret in Hrun. congruence.
Qed.

(** C6, amended.  [uninstallPlugin] and [uninstallSkill] return a boolean:
    [true] when the uninstall sequence (their [try] block) completes,
    [false] when anything thrown reaches their [catch], the timeout of the
    wait for the uninstall command included; nothing is thrown to the
    caller.  What is thrown while the manifest is read is absorbed by
    [getManifest] and does not make the result [false]. *)
Theorem uninstall_returns_flag (this : InstallationManager) (type : TargetType)
    (target : string) (s : State) :
  match run (uninstall_block type target) s with
  | (inr _, s1) => run (uninstall_method type this target) s = (inr true, s1)
  | (inl _, _) => exists s', run (uninstall_method type this target) s = (inr false, s')
  end.
Proof.
  rewrite uninstall_block_unfold, uninstall_method_unfold, uninstall_run.
  destruct (run (uninstall_try _ _ _ _) s) as [[e | b] s1] eqn:Htry; [eauto |].
  by rewrite (uninstall_try_true _ _ _ _ _ _ _ Htry).
Qed.

(** The claim C6 as it was stated fails: here the start of the [cat] that
    reads the manifest is rejected, an exception during the uninstall, and
    the uninstall returns [true]. *)
Lemma uninstall_absorbed_exception_counterexample :
  let s := sample_container [quiet; quiet; Rejects (JsError "Error" "sandbox is busy")] in
  (run (uninstallSkill sample_manager "gamma") s).1 = inr true
  /\ (run (uninstallSkill sample_manager "gamma") s).1 <> inr false
  /\ In (console_log, "[GET MANIFEST] No existing manifest, starting fresh", None)
       (console (run (uninstallSkill sample_manager "gamma") s).2).
Proof. vm_compute. split; [done |]. split; [discriminate |]. auto 10. Qed.

(** The timeout of the wait is one of the exceptions that give [false]. *)
Lemma uninstall_timeout this type target s out err exit d rest :
  script s = Runs out err exit d :: rest ->
  waitForProcess d INSTALLATION_TIMEOUT_MS = inl Timeout ->
  (run (uninstall_method type this target) s).1 = inr false.
Proof.
  intros Hs Hd. rewrite uninstall_method_unfold, uninstall_run.
  assert ((run (uninstall_try type (tag_of type) (uninstall_command type) target) s).1
          = inl Timeout) as Htry.
  { unfold uninstall_try. do 2 step. unfold next_answer. state_simpl. rewrite Hs.
    cbn [hd tl].
    match goal with
    | |- context [spawn ?c ?o ?e ?x ?d ?fs] =>
        pose proof (spawn_duration c o e x d fs) as Hp;
        destruct (spawn c o e x d fs) as [p fs']
    end.
    state_simpl. step.
    rewrite lookup_app_r, Nat.sub_diag by done. simpl in *. by rewrite Hp, Hd. }
  destruct (run (uninstall_try _ _ _ _) s) as [[e | b] s1]; [done | discriminate Htry].
Qed.

Example uninstall_timeout_sample :
  (run (uninstallPlugin sample_manager "alpha")
     (sample_container [Runs "" "" 0 None])).1 = inr false
  /\ (run (uninstallSkill sample_manager "gamma")
        (sample_container [Runs "" "" 0 (Some 120001)])).1 = inr false
  /\ (run (uninstallSkill sample_manager "gamma")
        (sample_container [Runs "" "" 0 (Some 120000)])).1 = inr true.
Proof. vm_compute. done. Qed.

(** ** What a successful uninstall writes *)

Lemma handle_Start_script cmd s x s' :
  handle (StartProcess cmd) s = (x, s') -> script s' = tl (script s).
Proof.
  simpl. unfold next_answer. destruct (hd quiet (script s)) as [e | out err exit d].
  - by intros [= _ <-].
  - destruct (spawn cmd out err exit d _) as [p fs]. by intros [= _ <-].
Qed.

Lemma handle_GetLogs_script proc s x s' :
  handle (GetLogs proc) s = (x, s') -> script s' = tl (script s).
Proof.
  simpl. unfold next_answer. destruct (hd quiet (script s)) as [e | out err exit d];
    by intros [= _ <-].
Qed.

Lemma handle_Wait_script proc t s x s' :
  handle (WaitForProcess proc t) s = (x, s') -> script s' = script s.
Proof. simpl. destruct (waitForProcess _ _); by intros [= _ <-]. Qed.

Lemma nth_2_hd (l : list Answer) : nth 2 l quiet = hd quiet (tl (tl l)).
Proof. by destruct l as [| a [| b [| c l]]]. Qed.

Lemma nth_3_hd (l : list Answer) : nth 3 l quiet = hd quiet (tl (tl (tl l))).
Proof. by destruct l as [| a [| b [| c [| d l]]]]. Qed.

(** When the container starts [cat], ends it within five seconds and
    hands out its logs, the [try] of [getManifest] parses the file. *)
Lemma getManifest_try_read s o e x d o' e' x' d' t :
  hd quiet (script s) = Runs o e x (Some d) ->
  (d <= 5000)%Z ->
  hd quiet (tl (script s)) = Runs o' e' x' d' ->
  files s !! MANIFEST_FILE = Some t ->
  exists s1,
    run getManifest_try s = (JSON_parse (text_or t (JsonText (VObj []))), s1)
    /\ files s1 = files s.
Proof.
  intros Hcat Hd Hlogs Hfile. unfold getManifest_try.
  step. unfold next_answer. rewrite Hcat. state_simpl.
  pose proof (spawn_cat o e x (Some d) (files s)) as Hout.
  pose proof (spawn_duration (Sh ("cat " ++ MANIFEST_FILE)) o e x (Some d) (files s)) as Hdur.
  pose proof (spawn_Sh_files ("cat " ++ MANIFEST_FILE) o e x (Some d) (files s)) as Hfs.
  destruct (spawn _ o e x (Some d) (files s)) as [p fs]. simpl in Hout, Hdur, Hfs. subst fs.
  state_simpl. step.
  rewrite lookup_app_r, Nat.sub_diag by done. cbn [lookup list_lookup mbind option_bind].
  rewrite Hdur. unfold waitForProcess. rewrite (proj2 (Z.leb_le d 5000) Hd).
  state_simpl. step. unfold next_answer. state_simpl. rewrite Hlogs. state_simpl.
  rewrite lookup_app_r, Nat.sub_diag by done. cbn [lookup list_lookup fmap option_fmap option_map default].
  rewrite Hout, Hfile, run_lift. eauto.
Qed.

Lemma filter_items_inr f items kept :
  filter_items f items = inr kept ->
  kept = List.filter (fun x => match f x with inr b => b | inl _ => false end) items
  /\ forall x, In x items -> exists b, f x = inr b.
Proof.
  revert kept. induction items as [| x items IH]; intros kept; simpl.
  - intros [= <-]. split; [done | by intros x []].
  - destruct (f x) as [e | b] eqn:Hx; [done |].
    destruct (filter_items f items) as [e | rest]; [done |].
    intros [= <-]. destruct (IH rest eq_refl) as [-> Hall].
    split; [by destruct b |].
    intros y [<- | Hy]; eauto.
Qed.

Lemma filter_entries_object fields type name items extra m :
  assoc_get (list_key type) fields = Some (VArr items extra) ->
  filter_entries (VObj fields) type name = inr m ->
  m = VObj (assoc_set (list_key type) (VArr (List.filter (keeps type name) items) []) fields)
  /\ forall p, In p items -> exists b, other_entry type name p = inr b.
Proof.
  intros Hlist. unfold filter_entries. simpl. rewrite Hlist. simpl.
  destruct (assoc_get "filter" extra); [done |].
  destruct (filter_items (other_entry type name) items) as [e | kept] eqn:Hf; [done |].
  simpl. intros [= <-]. apply filter_items_inr in Hf as [-> Hall]. done.
Qed.

Lemma keeps_iff type name p b :
  other_entry type name p = inr b ->
  keeps type name p = true <-> get_prop p (entry_key type) <> inr (VStr name).
Proof.
  unfold keeps, other_entry. destruct (get_prop p (entry_key type)) as [e | k]; [done |].
  simpl. intros _. unfold strict_neq_str.
  destruct k as [| | | | k | |]; try (split; [intros _ [=] | done]).
  rewrite negb_true_iff, String.eqb_neq. split; [intros Hne [=] | intros Hne ->]; done.
Qed.

(** A run of [removeFromManifest] that returns, in a state in which the
    read of the manifest succeeds: the list of the type is filtered, the
    date is set, and the whole is written back. *)
Lemma removeFromManifest_inr type name s u s' fields items extra o e x d o' e' x' d' :
  files s !! MANIFEST_FILE = Some (JsonText (VObj fields)) ->
  assoc_get (list_key type) fields = Some (VArr items extra) ->
  hd quiet (script s) = Runs o e x (Some d) ->
  (d <= 5000)%Z ->
  hd quiet (tl (script s)) = Runs o' e' x' d' ->
  run (removeFromManifest type name) s = (inr u, s') ->
  exists now,
    files s' =
      <[MANIFEST_FILE :=
          JSON_stringify
            (VObj (assoc_set "lastUpdated" (VStr now)
                     (assoc_set (list_key type)
                        (VArr (List.filter (keeps type name) items) []) fields)))]> (files s)
    /\ forall p, In p items -> exists b, other_entry type name p = inr b.
Proof.
  intros Hfile Hlist Hcat Hd Hlogs Hrun.
  destruct (getManifest_try_read s o e x d o' e' x' d' _ Hcat Hd Hlogs Hfile)
    as (s1 & Htry & Hf1).
  unfold removeFromManifest in Hrun. rewrite run_bind, getManifest_run, Htry in Hrun.
  cbn [text_or text_empty JSON_parse] in Hrun.
  step_in Hrun. apply (filter_entries_object _ _ _ _ _ _ Hlist) in Hr as [-> Hall].
  step_in Hrun. step_in Hrun. simpl in Hr. injection Hr as <-.
  step_in Hrun. apply start_echo_files in Hh. rewrite run_mret in Hrun.
  injection Hrun as _ <-. exists (toISOString (clock s1)). by rewrite Hh, Hf1.
Qed.

(** A successful uninstall ran [removeFromManifest] to its end, after two
    answers of the container, with the files as they were. *)
Lemma uninstall_try_inr type tag cmd target s b s' :
  run (uninstall_try type tag cmd target) s = (inr b, s') ->
  exists sm,
    files sm = files s /\ script sm = tl (tl (script s))
    /\ run (removeFromManifest type target) sm = (inr tt, s').
Proof.
  unfold uninstall_try. intros Hrun. do 7 step_in Hrun.
  apply run_bind_inr in Hrun as ([] & sw & Hrm & Hret). rewrite run_mret in Hret.
  injection Hret as _ <-.
  pose proof Hh as Hs0. pose proof Hh0 as Hs1. pose proof Hh1 as Hs2.
  apply handle_Start_script in Hs0. apply handle_Wait_script in Hs1.
  apply handle_GetLogs_script in Hs2.
  apply handle_files in Hh, Hh0, Hh1; [| exact I..].
  simpl in Hh, Hs0.
  eexists. split; [| split; [| exact Hrm]]; simpl.
  - by rewrite Hh1, Hh0, Hh.
  - by rewrite Hs2, Hs1, Hs0.
Qed.




(** ** No validation of the target *)

(** C8, amended.  Install and uninstall validate nothing: for every plugin
    name or skill slug, with or without characters outside the allow-list,
    the call runs without a stop to its first [await], which is the start
    of the command line with the target interpolated as it is. *)
Theorem install_uninstall_start_any_target (this : InstallationManager)
    (target : string) (s : State) :
  (exists k s1,
      advance (installPlugin this target) s
      = (Vis (StartProcess (Sh ("openclaw plugins install " ++ target))) k, s1))
  /\ (exists k s1,
      advance (installSkill this target) s
      = (Vis (StartProcess (Sh ("npx clawhub install " ++ target))) k, s1))
  /\ (exists k s1,
      advance (uninstallPlugin this target) s
      = (Vis (StartProcess (Sh ("openclaw plugins uninstall " ++ target))) k, s1))
  /\ (exists k s1,
      advance (uninstallSkill this target) s
      = (Vis (StartProcess (Sh ("npx clawhub uninstall " ++ target))) k, s1)).
Proof. repeat split; eexists _, _; reflexivity. Qed.

(** The claim C8 as it was stated fails: a name with a space and a
    semicolon is outside the allow-list, and the install starts a process
    with it in the command line. *)
Lemma install_unvalidated_name_counterexample :
  let name := "x; rm -rf /data" in
  let r := run (installPlugin sample_manager name) (sample_container []) in
  valid_target name = false
  /\ (p_command <$> processes r.2 !! 0%nat)
     = Some (Sh "openclaw plugins install x; rm -rf /data")
  /\ (Job.status <$> jobs r.2 !! 0%nat) = Some completed.
Proof. vm_compute. done. Qed.

(** ** The status route *)

Lemma format_uuid_not_empty n : format_uuid n <> "".
Proof. unfold format_uuid. by destruct (digits 16 8 n). Qed.

Lemma get_plugins_status_run s jobId :
  jobId <> "" ->
  run (get_plugins_status jobId) s = (inr not_found, with_maps (maps s ++ [[]]) s).
Proof.
  intros Hne. unfold get_plugins_status.
  rewrite (proj2 (String.eqb_neq jobId "") Hne).
  rewrite run_try_catch. unfold new_InstallationManager, getJob.
  rewrite run_bind, run_bind_perform, run_mret. state_simpl.
  rewrite run_bind_perform. state_simpl.
  rewrite lookup_app_r, Nat.sub_diag by done. reflexivity.
Qed.

Lemma run_deref job s j : jobs s !! job = Some j -> run (deref job) s = (inr j, s).
Proof. intros Hj. unfold deref. rewrite run_bind_perform. state_simpl. by rewrite Hj. Qed.

(** The job id in the response to an install request is the id of a job
    that was made, so it is not the empty string. *)
Lemma post_install_jobId type what noun field s resp s1 jobId :
  run (post_install type what noun (install_method type) field) s = (inr resp, s1) ->
  response_jobId resp = Some jobId ->
  jobId <> "".
Proof.
  unfold post_install. destruct field as [[| c target] |].
  - rewrite run_mret. by intros [= <- _].
  - set (name := String c target). rewrite run_bind.
    unfold new_InstallationManager. rewrite run_bind_perform, run_mret. state_simpl.
    set (this := {| activeJobs := length (maps s) |}).
    set (s0 := with_maps _ s).
    rewrite run_try_catch, run_bind_perform. state_simpl.
    set (s2 := with_console _ s0).
    rewrite install_method_unfold, run_bind.
    destruct (install_terminal this type (tag_of type) (install_command type)
                (entry_of type) name s2) as (s3 & j & -> & Hj & _ & _ & (Hid & _) & _).
    rewrite run_bind, (run_deref _ _ _ Hj).
    destruct (status_eqb (Job.status j) failed); rewrite run_mret;
      intros [= <- _] [= <-]; rewrite Hid; apply format_uuid_not_empty.
  - rewrite run_mret. by intros [= <- _].
Qed.

(** C9. The job-status route makes a new [InstallationManager] for each
    request, whose job table starts empty.  So for every job id the route
    answers 404 with "Job not found"; this holds in every state, and in
    particular, after an install request, for the job id that the install
    request returned.  The body of its answer is never a job record. *)
Theorem status_route_never_finds_a_job (s : State) :
  (forall jobId, jobId <> "" ->
     exists s', run (get_plugins_status jobId) s = (inr not_found, s'))
  /\ (forall type field resp s1 jobId,
        run (post_install_route type field) s = (inr resp, s1) ->
        response_jobId resp = Some jobId ->
        exists s', run (get_plugins_status jobId) s1 = (inr not_found, s'))
  /\ (forall jobId resp s' j,
        run (get_plugins_status jobId) s = (inr resp, s') -> body resp <> JobBody j).
Proof.
  split; [| split].
  - intros jobId Hne. rewrite get_plugins_status_run by done. eauto.
  - intros type field resp s1 jobId Hrun Hid.
    rewrite get_plugins_status_run; [eauto |].
    destruct type; apply (post_install_jobId _ _ _ _ _ _ _ _ Hrun Hid).
  - intros jobId resp s' j. destruct (decide (jobId = "")) as [-> | Hne].
    + unfold get_plugins_status. simpl. by intros [= <- _].
    + rewrite get_plugins_status_run by done. by intros [= <- _].
Qed.

Lemma status_route_never_finds_a_job_witness :
  let s := sample_container [] in
  let installed := run (post_plugins_install (Some "delta")) s in
  exists resp,
    installed.1 = inr resp
    /\ http_status resp = 200
    /\ response_jobId resp = Some "00003039-0000-4000-8000-000000000000"
    /\ exists s',
         run (get_plugins_status "00003039-0000-4000-8000-000000000000") installed.2
         = (inr not_found, s').
Proof.
  intros s installed.
  destruct (status_route_never_finds_a_job s) as (_ & Hlater & _).
  eexists. split; [vm_compute; reflexivity |].
  split; [reflexivity |]. split; [reflexivity |].
  eapply (Hlater plugin (Some "delta") _ installed.2).
  - vm_compute. reflexivity.
  - reflexivity.
Defined.

(** ** The job table *)

Lemma assoc_get_set_inv {A} k k' (v : A) l :
  is_Some (assoc_get k' (assoc_set k v l)) -> k' = k \/ is_Some (assoc_get k' l).
Proof.
  destruct (decide (k = k')) as [-> | Hne]; [by left |].
  rewrite assoc_get_set_other by done. by right.
Qed.

Lemma known_registered this type target s jobId :
  known this (registered this type target s) jobId ->
  jobId = Job.id (new_job type target s) \/ known this s jobId.
Proof.
  unfold known, registered. state_simpl. rewrite list_lookup_alter, decide_True by done.
  match goal with |- context [fmap _ ?o] => change o with (maps s !! activeJobs this) end.
  destruct (maps s !! activeJobs this) as [table |].
  - apply assoc_get_set_inv.
  - intros [x Hx]. discriminate Hx.
Qed.

(** One call makes the table know, at most, the id of the job it returns. *)
Lemma make_call_known this c s jobId :
  known this (run (make_call this c) s).2 jobId ->
  known this s jobId
  \/ exists job j,
       (run (make_call this c) s).1 = inr (Some job)
       /\ jobs (run (make_call this c) s).2 !! job = Some j /\ Job.id j = jobId.
Proof.
  assert (forall (p : Prog (option jobref)),
            all_ops off_heap p -> known this (run p s).2 jobId -> known this s jobId)
    as Hquiet.
  { intros p Hp. unfold known. by rewrite (run_off_maps p s (off_heap_off_maps p Hp)). }
  assert (forall type target,
            known this (run (job ← install_method type this target; mret (Some job)) s).2
              jobId ->
            known this s jobId
            \/ exists job j,
                 (run (job ← install_method type this target; mret (Some job)) s).1
                 = inr (Some job)
                 /\ jobs (run (job ← install_method type this target; mret (Some job)) s).2
                    !! job = Some j
                 /\ Job.id j = jobId) as Hinstall.
  { intros type target. rewrite run_bind, install_method_unfold.
    destruct (install_terminal this type (tag_of type) (install_command type)
                (entry_of type) target s) as (s' & j & -> & Hj & _ & _ & (Hid & _) & Hmaps).
    rewrite run_mret. simpl. intros Hk.
    assert (known this (registered this type target s) jobId) as Hk'
      by (unfold known in *; by rewrite <- Hmaps).
    apply known_registered in Hk' as [-> | Hk']; [right | by left].
    exists (length (jobs s)), j. done. }
  destruct c as [n | n | n | n | | id |]; cbn [make_call].
  - apply (Hinstall plugin).
  - apply (Hinstall skill).
  - intros Hk. left. revert Hk. apply Hquiet.
    pose proof (uninstall_off_heap plugin "PLUGIN" "openclaw plugins uninstall " n).
    unfold uninstallPlugin. auto with footprint.
  - intros Hk. left. revert Hk. apply Hquiet.
    pose proof (uninstall_off_heap skill "SKILL" "npx clawhub uninstall " n).
    unfold uninstallSkill. auto with footprint.
  - intros Hk. left. revert Hk. apply Hquiet.
    pose proof (listInstalled_off_heap this). auto with footprint.
  - intros Hk. left. revert Hk. apply Hquiet. unfold getJob. auto with footprint.
  - intros Hk. left. revert Hk. apply Hquiet. unfold getAllJobs. auto with footprint.
Qed.

Lemma make_calls_known this calls s jobId :
  known this (make_calls this calls s).2 jobId ->
  known this s jobId \/ In jobId (make_calls this calls s).1.
Proof.
  revert s. induction calls as [| c calls IH]; intros s; simpl; [by left |].
  pose proof (make_call_known this c s jobId) as Hc.
  destruct (run (make_call this c) s) as [r s1]. simpl in Hc.
  specialize (IH s1). destruct (make_calls this calls s1) as [ids s2]. simpl in *.
  intros Hk. destruct (IH Hk) as [Hk1 | Hin]; [| right; apply in_or_app; by right].
  destruct (Hc Hk1) as [Hk0 | (job & j & -> & Hj & Hid)]; [by left |].
  right. apply in_or_app. left. rewrite Hj. simpl. by left.
Qed.

(** C10. For every id that was never issued by an install of the manager,
    [getJob] returns the absent value and does not throw: after any
    sequence of calls on a manager that started with an empty table, the
    table knows no other id than those of the jobs its installs returned. *)
Theorem getJob_unknown_id_is_absent (this : InstallationManager) (calls : list call)
    (s : State) (jobId : string) :
  maps s !! activeJobs this = Some [] ->
  ~ In jobId (make_calls this calls s).1 ->
  run (getJob this jobId) (make_calls this calls s).2
  = (inr None, (make_calls this calls s).2).
Proof.
  intros Hnew Hfresh. unfold getJob. rewrite run_perform. state_simpl.
  destruct (maps (make_calls this calls s).2 !! activeJobs this ≫= assoc_get jobId)
    as [job |] eqn:Hget; [| done].
  exfalso. destruct (make_calls_known this calls s jobId) as [Hk | Hin].
  - unfold known. by rewrite Hget.
  - unfold known in Hk. rewrite Hnew in Hk. simpl in Hk. by destruct Hk.
  - done.
Qed.

Lemma getJob_unknown_id_is_absent_witness :
  let history := [CallInstallPlugin "delta"; CallListInstalled; CallInstallSkill "epsilon";
                  CallUninstallPlugin "alpha"] in
  let after := make_calls sample_manager history (sample_container []) in
  after.1 = ["00003039-0000-4000-8000-000000000000";
             "00000000-0000-4000-8000-000000000000"]
  /\ run (getJob sample_manager "11111111-1111-4111-8111-111111111111") after.2
     = (inr None, after.2)
  /\ (run (getJob sample_manager "00003039-0000-4000-8000-000000000000") after.2).1
     = inr (Some 0%nat).
Proof.
  intros history after. split; [vm_compute; reflexivity |]. split.
  - apply (getJob_unknown_id_is_absent sample_manager history (sample_container [])).
    + reflexivity.
    + vm_compute. intros [H | [H | []]]; discriminate H.
  - vm_compute. reflexivity.
Defined.

(** ** Two updates of the manifest at once *)

Lemma updateManifest_after_read type entry :
  updateManifest type entry = getManifest ≫= after_read type entry.
Proof. reflexivity. Qed.

Lemma assoc_set_twice {A} k (v1 v2 : A) l :
  assoc_set k v2 (assoc_set k v1 l) = assoc_set k v2 l.
Proof.
  induction l as [| [k' v'] l IH]; simpl.
  - by rewrite String.eqb_refl.
  - destruct (String.eqb k k') eqn:Hk; simpl; rewrite ?String.eqb_refl, ?Hk, ?IH; done.
Qed.

Lemma push_entry_list fields k entry items :
  assoc_get k fields = Some (VArr items []) ->
  push_entry (VObj fields) k entry
  = inr (VObj (assoc_set k (VArr (items ++ [entry]) []) fields)).
Proof.
  intros Hk. unfold push_entry. simpl. rewrite Hk. simpl.
  rewrite assoc_get_set_same. simpl. by rewrite assoc_set_twice.
Qed.

(** What one turn of a call of [updateManifest] does, phase by phase, in
    a container that answers every call. *)
Section Turns.
Context (type : TargetType) (entry : value) (s : State).
Hypothesis Hscript : script s = [].

Lemma turn_Reading :
  exists p s1,
    turn (updateManifest_at type entry Reading) s
    = (updateManifest_at type entry (Waiting (length (processes s))), s1)
    /\ script s1 = [] /\ files s1 = files s
    /\ processes s1 = (processes s ++ [p])%list
    /\ p_command p = Sh ("cat " ++ MANIFEST_FILE)
    /\ p_duration p = Some 0
    /\ stdout (p_logs p) = default (Plain "") (files s !! MANIFEST_FILE).
Proof.
  cbn [updateManifest_at]. rewrite updateManifest_after_read.
  unfold getManifest, getManifest_try.
  cbn [turn mbind Prog_bind bind try_catch await handle]. unfold next_answer. rewrite Hscript.
  cbn [hd tl quiet]. state_simpl.
  pose proof (spawn_cat "" "" 0 (Some 0) (files s)) as Hout.
  pose proof (spawn_duration (Sh ("cat " ++ MANIFEST_FILE)) "" "" 0 (Some 0) (files s)) as Hdur.
  pose proof (spawn_Sh_files ("cat " ++ MANIFEST_FILE) "" "" 0 (Some 0) (files s)) as Hfs.
  assert (p_command (spawn (Sh ("cat " ++ MANIFEST_FILE)) "" "" 0 (Some 0) (files s)).1
          = Sh ("cat " ++ MANIFEST_FILE)) as Hcmd.
  { unfold spawn.
    change (strip_prefix "cat " ("cat " ++ MANIFEST_FILE)) with (Some MANIFEST_FILE).
    cbv beta iota. by destruct (files s !! MANIFEST_FILE). }
  destruct (spawn _ "" "" 0 (Some 0) (files s)) as [p fs]. simpl in Hout, Hdur, Hfs, Hcmd.
  subst fs. eexists p, _. split; [reflexivity |]. state_simpl.
  repeat split; try done.
  rewrite Hout. by destruct (files s !! MANIFEST_FILE).
Qed.

Lemma turn_Waiting proc p :
  processes s !! proc = Some p ->
  p_duration p = Some 0 ->
  exists s1,
    turn (updateManifest_at type entry (Waiting proc)) s
    = (updateManifest_at type entry (Logging proc), s1)
    /\ script s1 = [] /\ files s1 = files s /\ processes s1 = processes s.
Proof.
  intros Hp Hd.
  cbn [updateManifest_at turn mbind Prog_bind bind try_catch await handle].
  rewrite Hp. cbn [mbind option_bind]. rewrite Hd. cbn [waitForProcess Z.leb Z.compare].
  eexists. split; [reflexivity |]. by state_simpl.
Qed.

Lemma turn_Logging proc p fields items :
  processes s !! proc = Some p ->
  stdout (p_logs p) = JsonText (VObj fields) ->
  assoc_get (list_key type) fields = Some (VArr items []) ->
  exists s1,
    turn (updateManifest_at type entry (Logging proc)) s
    = (updateManifest_at type entry
         (MakingDir (JSON_stringify (written type entry fields items (toISOString (clock s))))),
       s1)
    /\ script s1 = [] /\ files s1 = files s /\ processes s1 = processes s.
Proof.
  intros Hp Hout Hlist.
  cbn [updateManifest_at turn mbind Prog_bind bind try_catch await handle].
  unfold next_answer. rewrite Hscript. cbn [hd tl quiet]. state_simpl.
  rewrite Hp. cbn [fmap option_fmap option_map default lift bind]. unfold id.
  rewrite Hout.
  cbn [text_or text_empty JSON_parse lift bind try_catch]. unfold after_read.
  cbn [mbind Prog_bind bind].
  rewrite (push_entry_list _ _ _ _ Hlist).
  cbn [lift bind perform advance is_await handle set_prop await].
  eexists. split; [reflexivity |]. by state_simpl.
Qed.

Lemma turn_MakingDir manifestJson :
  exists p s1,
    turn (updateManifest_at type entry (MakingDir manifestJson)) s
    = (updateManifest_at type entry (Writing manifestJson), s1)
    /\ script s1 = [] /\ files s1 = files s
    /\ processes s1 = (processes s ++ [p])%list
    /\ p_command p = Sh ("mkdir -p " ++ BACKUP_DIR).
Proof.
  cbn [updateManifest_at turn mbind Prog_bind bind await handle].
  unfold next_answer. rewrite Hscript. cbn [hd tl quiet]. state_simpl.
  eexists _, _. split; [reflexivity |]. by state_simpl.
Qed.

Lemma turn_Writing manifestJson :
  exists p s1,
    turn (updateManifest_at type entry (Writing manifestJson)) s
    = (updateManifest_at type entry Done, s1)
    /\ script s1 = [] /\ files s1 = <[MANIFEST_FILE := manifestJson]> (files s)
    /\ processes s1 = (processes s ++ [p])%list
    /\ p_command p = EchoTo manifestJson MANIFEST_FILE.
Proof.
  cbn [updateManifest_at turn mbind Prog_bind bind await handle].
  unfold next_answer. rewrite Hscript. cbn [hd tl quiet]. state_simpl.
  eexists _, _. split; [reflexivity |]. by state_simpl.
Qed.
End Turns.

(** One turn of a call, whatever its phase. *)
Lemma task_turn type entry fields items s ph :
  script s = [] ->
  assoc_get (list_key type) fields = Some (VArr items []) ->
  phase_ok type entry fields items s ph ->
  (has_read ph = false -> files s !! MANIFEST_FILE = Some (JsonText (VObj fields))) ->
  exists ph' s1 new,
    turn (updateManifest_at type entry ph) s = (updateManifest_at type entry ph', s1)
    /\ script s1 = []
    /\ processes s1 = (processes s ++ new)%list
    /\ phase_ok type entry fields items s1 ph'
    /\ match ph with
       | Reading =>
           has_read ph' = true /\ is_done ph' = false
           /\ p_command <$> new = [Sh ("cat " ++ MANIFEST_FILE)] /\ files s1 = files s
       | MakingDir _ =>
           has_read ph' = true /\ is_done ph' = false
           /\ p_command <$> new = [Sh ("mkdir -p " ++ BACKUP_DIR)] /\ files s1 = files s
       | Writing manifestJson =>
           ph' = Done /\ p_command <$> new = [EchoTo manifestJson MANIFEST_FILE]
           /\ files s1 = <[MANIFEST_FILE := manifestJson]> (files s)
       | _ =>
           has_read ph' = has_read ph /\ is_done ph' = is_done ph
           /\ new = [] /\ files s1 = files s
       end.
Proof.
  intros Hscript Hlist Hok Hfile.
  destruct ph as [| proc | proc | payload | payload |].
  - destruct (turn_Reading type entry s Hscript)
      as (p & s1 & -> & Hs1 & Hf1 & Hp1 & Hcmd & Hdur & Hout).
    exists (Waiting (length (processes s))), s1, [p].
    split; [done |]. split; [done |]. split; [done |]. split; [| by cbn [fmap list_fmap]; rewrite Hcmd].
    exists p. split; [by rewrite Hp1; apply list_lookup_middle |]. split; [done |].
    by rewrite Hout, (Hfile eq_refl).
  - destruct Hok as (p & Hp & Hdur & Hout).
    destruct (turn_Waiting type entry s Hscript proc p Hp Hdur)
      as (s1 & -> & Hs1 & Hf1 & Hp1).
    exists (Logging proc), s1, []. rewrite app_nil_r.
    split; [done |]. split; [done |]. split; [done |]. split; [| done].
    exists p. by rewrite Hp1.
  - destruct Hok as (p & Hp & Hdur & Hout).
    destruct (turn_Logging type entry s Hscript proc p fields items Hp Hout Hlist)
      as (s1 & -> & Hs1 & Hf1 & Hp1).
    eexists (MakingDir _), s1, []. rewrite app_nil_r.
    split; [done |]. split; [done |]. split; [done |]. split; [| done].
    by eexists.
  - destruct (turn_MakingDir type entry s Hscript payload)
      as (p & s1 & -> & Hs1 & Hf1 & Hp1 & Hcmd).
    exists (Writing payload), s1, [p].
    split; [done |]. split; [done |]. split; [done |]. split; [done | by cbn [fmap list_fmap]; rewrite Hcmd].
  - destruct (turn_Writing type entry s Hscript payload)
      as (p & s1 & -> & Hs1 & Hf1 & Hp1 & Hcmd).
    exists Done, s1, [p].
    split; [done |]. split; [done |]. split; [done |]. split; [done | by cbn [fmap list_fmap]; rewrite Hcmd].
  - exists Done, s, []. rewrite app_nil_r. done.
Qed.

Lemma phase_ok_mono type entry fields items s s1 ph new :
  processes s1 = (processes s ++ new)%list ->
  phase_ok type entry fields items s ph -> phase_ok type entry fields items s1 ph.
Proof.
  intros Hp. destruct ph; simpl; try done.
  - intros (p & Hl & H). exists p. split; [| done]. rewrite Hp. by apply lookup_app_l_Some.
  - intros (p & Hl & H). exists p. split; [| done]. rewrite Hp. by apply lookup_app_l_Some.
Qed.

(** The processes are never forgotten by a turn either. *)
Lemma advance_processes {A} (p : Prog A) s : processes s `prefix_of` processes (advance p s).2.
Proof.
  revert s. induction p as [a | e | X o k IH]; intros s; simpl; [done.. |].
  destruct (is_await o); [done |].
  pose proof (handle_processes o s) as Hh. destruct (handle o s) as [x s1].
  etrans; [exact Hh | apply IH].
Qed.

Lemma turn_processes {A} (p : Prog A) s : processes s `prefix_of` processes (turn p s).2.
Proof.
  destruct p as [a | e | X o k]; simpl; [done.. |].
  pose proof (handle_processes o s) as Hh. destruct (handle o s) as [x s1].
  etrans; [exact Hh | apply advance_processes].
Qed.

Lemma interleave_processes {A} schedule (tasks : list (Prog A)) s :
  processes s `prefix_of` processes (interleave schedule tasks s).2.
Proof.
  revert tasks s. induction schedule as [| i schedule IH]; intros tasks s; simpl; [done |].
  destruct (tasks !! i) as [p |]; [| apply IH].
  pose proof (turn_processes p s) as Ht. destruct (turn p s) as [p' s1].
  etrans; [exact Ht | apply IH].
Qed.

Lemma started_since_app s s1 s' new :
  processes s1 = (processes s ++ new)%list ->
  processes s1 `prefix_of` processes s' ->
  started_since s s' = ((p_command <$> new) ++ started_since s1 s')%list.
Proof.
  intros Hp [k Hk]. unfold started_since. rewrite Hk, drop_app_length, Hp.
  by rewrite <- app_assoc, drop_app_length, fmap_app.
Qed.

Lemma race_invariant_sym tA tB eA eB fields itemsA itemsB phA phB s :
  race_invariant tA tB eA eB fields itemsA itemsB phA phB s ->
  race_invariant tB tA eB eA fields itemsB itemsA phB phA s.
Proof.
  intros (Hs & HA & HB & Hf). split; [done |]. split; [done |]. split; [done |].
  rewrite orb_comm. destruct (is_done phA || is_done phB); [| done].
  destruct Hf as (Hra & Hrb & now & [Hw | Hw]); eauto 8.
Qed.

(** One turn of the first call keeps the invariant, as long as the
    commands that are started keep every write behind two reads. *)
Lemma race_step tA tB eA eB fields itemsA itemsB phA phB s ph' s1 new rest :
  race_invariant tA tB eA eB fields itemsA itemsB phA phB s ->
  script s1 = [] ->
  processes s1 = (processes s ++ new)%list ->
  phase_ok tA eA fields itemsA s1 ph' ->
  match phA with
  | Reading =>
      has_read ph' = true /\ is_done ph' = false
      /\ p_command <$> new = [Sh ("cat " ++ MANIFEST_FILE)] /\ files s1 = files s
  | MakingDir _ =>
      has_read ph' = true /\ is_done ph' = false
      /\ p_command <$> new = [Sh ("mkdir -p " ++ BACKUP_DIR)] /\ files s1 = files s
  | Writing manifestJson =>
      ph' = Done /\ p_command <$> new = [EchoTo manifestJson MANIFEST_FILE]
      /\ files s1 = <[MANIFEST_FILE := manifestJson]> (files s)
  | _ =>
      has_read ph' = has_read phA /\ is_done ph' = is_done phA
      /\ new = [] /\ files s1 = files s
  end ->
  reads_precede_writes (reads_of phA phB) ((p_command <$> new) ++ rest) = true ->
  race_invariant tA tB eA eB fields itemsA itemsB ph' phB s1
  /\ reads_precede_writes (reads_of ph' phB) rest = true.
Proof.
  intros (Hs & HA & HB & Hf) Hs1 Hp1 HA' Hkind Hrace.
  pose proof (phase_ok_mono _ _ _ _ _ _ _ _ Hp1 HB) as HB'.
  unfold race_invariant, reads_of in *.
  destruct phA as [| proc | proc | payload | payload |].
  - destruct Hkind as (Hr & Hd & Hcmd & Hfiles). rewrite Hcmd in Hrace.
    rewrite Hr, Hd, Hfiles. cbn in Hrace, Hf |- *.
    split; [| done]. split; [done |]. split; [done |]. split; [done |].
    destruct (is_done phB); [by destruct Hf as ([=] & _) | done].
  - destruct Hkind as (Hr & Hd & -> & Hfiles). rewrite Hr, Hd, Hfiles. done.
  - destruct Hkind as (Hr & Hd & -> & Hfiles). rewrite Hr, Hd, Hfiles. done.
  - destruct Hkind as (Hr & Hd & Hcmd & Hfiles). rewrite Hcmd in Hrace.
    rewrite Hr, Hd, Hfiles. done.
  - destruct Hkind as (-> & Hcmd & Hfiles). rewrite Hcmd in Hrace.
    cbn in Hrace. apply andb_true_iff in Hrace as [Hreads Hrace].
    destruct (has_read phB) eqn:HrB; [| done].
    split; [| done]. split; [done |]. split; [done |]. split; [done |].
    cbn. split; [done |]. split; [done |].
    destruct HA as [now ->]. exists now. left. by rewrite Hfiles, lookup_insert_eq.
  - destruct Hkind as (Hr & Hd & -> & Hfiles). rewrite Hr, Hd, Hfiles. done.
Qed.

Lemma reads_of_comm phA phB : reads_of phA phB = reads_of phB phA.
Proof. unfold reads_of. lia. Qed.

Lemma updateManifest_at_first_await type entry ph :
  updateManifest_at type entry ph = Ret tt -> ph = Done.
Proof. by destruct ph. Qed.

(** Any schedule that keeps every write behind two reads keeps the
    invariant. *)
Lemma interleave_race tA tB eA eB fields itemsA itemsB :
  assoc_get (list_key tA) fields = Some (VArr itemsA []) ->
  assoc_get (list_key tB) fields = Some (VArr itemsB []) ->
  forall schedule phA phB s tasks' s',
    race_invariant tA tB eA eB fields itemsA itemsB phA phB s ->
    interleave schedule [updateManifest_at tA eA phA; updateManifest_at tB eB phB] s
      = (tasks', s') ->
    reads_precede_writes (reads_of phA phB) (started_since s s') = true ->
    exists phA' phB',
      tasks' = [updateManifest_at tA eA phA'; updateManifest_at tB eB phB']
      /\ race_invariant tA tB eA eB fields itemsA itemsB phA' phB' s'.
Proof.
  intros HlistA HlistB schedule.
  induction schedule as [| i schedule IH]; intros phA phB s tasks' s' Hinv Hrun Hrace.
  - injection Hrun as <- <-. eauto.
  - cbn [interleave] in Hrun. destruct i as [| [| i]]; cbn [lookup list_lookup] in Hrun.
    + destruct Hinv as (Hs & HA & HB & Hf).
      destruct (task_turn tA eA fields itemsA s phA Hs HlistA HA)
        as (ph' & s1 & new & Hturn & Hs1 & Hp1 & HA' & Hkind).
      { intros Hr. destruct phA; try discriminate Hr. cbn in Hf.
        destruct (is_done phB); [by destruct Hf as ([=] & _) | done]. }
      rewrite Hturn in Hrun. cbn in Hrun.
      pose proof (interleave_processes schedule
                    [updateManifest_at tA eA ph'; updateManifest_at tB eB phB] s1) as Hpre.
      rewrite Hrun in Hpre. cbn in Hpre.
      rewrite (started_since_app _ _ _ _ Hp1 Hpre) in Hrace.
      destruct (race_step tA tB eA eB fields itemsA itemsB phA phB s ph' s1 new _
                  (conj Hs (conj HA (conj HB Hf))) Hs1 Hp1 HA' Hkind Hrace)
        as [Hinv' Hrace'].
      eapply IH; eauto.
    + apply race_invariant_sym in Hinv. rewrite reads_of_comm in Hrace.
      destruct Hinv as (Hs & HB & HA & Hf).
      destruct (task_turn tB eB fields itemsB s phB Hs HlistB HB)
        as (ph' & s1 & new & Hturn & Hs1 & Hp1 & HB' & Hkind).
      { intros Hr. destruct phB; try discriminate Hr. cbn in Hf.
        destruct (is_done phA); [by destruct Hf as ([=] & _) | done]. }
      rewrite Hturn in Hrun. cbn in Hrun.
      pose proof (interleave_processes schedule
                    [updateManifest_at tA eA phA; updateManifest_at tB eB ph'] s1) as Hpre.
      rewrite Hrun in Hpre. cbn in Hpre.
      rewrite (started_since_app _ _ _ _ Hp1 Hpre) in Hrace.
      destruct (race_step tB tA eB eA fields itemsB itemsA phB phA s ph' s1 new _
                  (conj Hs (conj HB (conj HA Hf))) Hs1 Hp1 HB' Hkind Hrace)
        as [Hinv' Hrace'].
      apply race_invariant_sym in Hinv'. rewrite reads_of_comm in Hrace'.
      eapply IH; eauto.
    + eapply IH; eauto.
Qed.

Lemma written_list type entry fields items now :
  get_prop (written type entry fields items now) (list_key type)
  = inr (VArr (items ++ [entry]) []).
Proof.
  unfold written. simpl.
  by rewrite assoc_get_set_other, assoc_get_set_same by apply list_key_not_lastUpdated.
Qed.

Lemma written_other type entry fields items now k :
  k <> list_key type -> k <> "lastUpdated" ->
  get_prop (written type entry fields items now) k = get_prop (VObj fields) k.
Proof. intros Hk1 Hk2. unfold written. simpl. by rewrite !assoc_get_set_other by done. Qed.

(** C4. Lost update.  Two calls of [updateManifest] are under way at once,
    in a container that answers every call, on a manifest that has the
    lists of their types.  If they both run to their end and both read
    the manifest before either writes it back (every [echo] of the
    manifest is started after the two [cat]s), then the manifest that is
    left is the manifest as it was with one new entry only: the one of the
    call that wrote last.  The other entry is lost; nothing guards the
    read-modify-write. *)
Theorem concurrent_updates_lose_an_entry (tA tB : TargetType) (eA eB : value)
    (fields : list (string * value)) (itemsA itemsB : list value)
    (s : State) (schedule : list nat) (s' : State) :
  script s = [] ->
  files s !! MANIFEST_FILE = Some (JsonText (VObj fields)) ->
  assoc_get (list_key tA) fields = Some (VArr itemsA []) ->
  assoc_get (list_key tB) fields = Some (VArr itemsB []) ->
  interleave schedule
    (launch [updateManifest tA eA; updateManifest tB eB] s).1
    (launch [updateManifest tA eA; updateManifest tB eB] s).2
    = ([Ret tt; Ret tt], s') ->
  reads_precede_writes 0 (started_since s s') = true ->
  exists now,
    files s' !! MANIFEST_FILE = Some (JSON_stringify (written tA eA fields itemsA now))
    \/ files s' !! MANIFEST_FILE = Some (JSON_stringify (written tB eB fields itemsB now)).
Proof.
  intros Hscript Hfile HlistA HlistB Hrun Hrace.
  change (launch [updateManifest tA eA; updateManifest tB eB] s)
    with ([updateManifest_at tA eA Reading; updateManifest_at tB eB Reading], s) in Hrun.
  cbn [fst snd] in Hrun.
  assert (race_invariant tA tB eA eB fields itemsA itemsB Reading Reading s) as Hinv0.
  { split; [done |]. split; [done |]. split; [done |]. exact Hfile. }
  destruct (interleave_race tA tB eA eB fields itemsA itemsB HlistA HlistB
              schedule Reading Reading s _ s' Hinv0 Hrun Hrace)
    as (phA & phB & Htasks & Hinv).
  - injection Htasks as HA HB. symmetry in HA, HB.
    apply updateManifest_at_first_await in HA, HB. subst phA phB.
    destruct Hinv as (_ & _ & _ & _ & _ & Hw). exact Hw.
Qed.

Lemma concurrent_updates_lose_an_entry_witness :
  let eA := PluginManifest "delta" (Some "2023-11-14T22:13:20.123Z") in
  let eB := PluginManifest "epsilon" (Some "2023-11-14T22:13:20.123Z") in
  let s := sample_container [] in
  let s' := (interleave [0; 1; 0; 1; 0; 1; 0; 1; 0; 1]%nat
               [updateManifest plugin eA; updateManifest plugin eB] s).2 in
  (exists now,
     files s' !! MANIFEST_FILE
       = Some (JSON_stringify (written plugin eA sample_fields sample_plugins now))
     \/ files s' !! MANIFEST_FILE
        = Some (JSON_stringify (written plugin eB sample_fields sample_plugins now)))
  /\ files s' !! MANIFEST_FILE
     = Some (JsonText
               (VObj [("plugins", VArr (sample_plugins ++ [eB]) []);
                      ("skills",
                       VArr [SkillManifest "gamma" (Some "2023-11-14T22:13:20.123Z")] []);
                      ("lastUpdated", VStr "2023-11-14T22:13:20.123Z")])).
Proof.
  intros eA eB s s'. split.
  - apply (concurrent_updates_lose_an_entry plugin plugin eA eB sample_fields
             sample_plugins sample_plugins s [0; 1; 0; 1; 0; 1; 0; 1; 0; 1]%nat s').
    + reflexivity.
    + reflexivity.
    + reflexivity.
    + reflexivity.
    + vm_compute. reflexivity.
    + vm_compute. reflexivity.
  - vm_compute. reflexivity.
Defined.

(** The same race between two whole installs, on one schedule: the two
    jobs are [completed], and the manifest has the entry of the second
    only.  One after the other, the two installs leave both entries. *)
Example concurrent_installs_sample :
  let calls := [installPlugin sample_manager "delta"; installPlugin sample_manager "epsilon"] in
  let started := launch calls (sample_container []) in
  let raced := interleave [0; 1; 0; 1; 0; 1; 0; 1; 0; 1; 0; 1; 0; 1; 0; 1]%nat
                 started.1 started.2 in
  let in_turn := interleave [0; 0; 0; 0; 0; 0; 0; 0; 1; 1; 1; 1; 1; 1; 1; 1]%nat
                   started.1 started.2 in
  let names (st : State) :=
    match files st !! MANIFEST_FILE with
    | Some (JsonText m) =>
        match get_prop m "plugins" with
        | inr (VArr items _) => (fun p => get_prop p "name") <$> items
        | _ => []
        end
    | _ => []
    end in
  raced.1 = [Ret 0%nat; Ret 1%nat]
  /\ Job.status <$> jobs raced.2 = [completed; completed]
  /\ names raced.2 = [inr (VStr "alpha"); inr (VStr "beta"); inr (VStr "epsilon")]
  /\ in_turn.1 = [Ret 0%nat; Ret 1%nat]
  /\ names in_turn.2
     = [inr (VStr "alpha"); inr (VStr "beta"); inr (VStr "delta"); inr (VStr "epsilon")].
Proof. vm_compute. done. Qed.

(** * The job table over time *)

Lemma assoc_set_In {A} k (v : A) l : In (k, v) (assoc_set k v l).
Proof.
  induction l as [| [k' v'] l IH]; simpl; [by left |].
  destruct (String.eqb k k'); [by left | by right].
Qed.

Lemma assoc_set_In_inv {A} k (v : A) l k0 v0 :
  In (k0, v0) (assoc_set k v l) -> (k0, v0) = (k, v) \/ In (k0, v0) l.
Proof.
  induction l as [| [k' v'] l IH]; simpl.
  - intros [H | []]. by left.
  - destruct (String.eqb k k'); simpl.
    + intros [H | H]; [by left | right; by right].
    + intros [H | H]; [right; by left |]. destruct (IH H); [by left | right; by right].
Qed.

Lemma registered_table this type target s table :
  maps s !! activeJobs this = Some table ->
  maps (registered this type target s) !! activeJobs this
  = Some (assoc_set (format_uuid (hd 0 (entropy s))) (length (jobs s)) table).
Proof. intros H. unfold registered. state_simpl. by apply lookup_alter_same. Qed.

Lemma getJob_run this jobId s :
  run (getJob this jobId) s
  = (inr (maps s !! activeJobs this ≫= assoc_get jobId), s).
Proof. unfold getJob. by rewrite run_perform. Qed.

Lemma getAllJobs_run this s :
  run (getAllJobs this) s
  = (inr (default [] (map snd <$> maps s !! activeJobs this)), s).
Proof. unfold getAllJobs. by rewrite run_perform. Qed.

(** X1.  An install registers its job: on a manager that has its table,
    [installPlugin] and [installSkill] return a job of the type and the
    target they were called with, [getJob] with the id of that job returns
    the very job, and [getAllJobs] lists it. *)
Theorem install_registers_job (this : InstallationManager) (type : TargetType)
    (target : string) (s : State) (table : list (string * jobref)) :
  maps s !! activeJobs this = Some table ->
  exists job s' j,
    run (install_method type this target) s = (inr job, s')
    /\ jobs s' !! job = Some j
    /\ Job.type j = type /\ Job.target j = target
    /\ run (getJob this (Job.id j)) s' = (inr (Some job), s')
    /\ exists l, run (getAllJobs this) s' = (inr l, s') /\ In job l.
Proof.
  intros Htable. rewrite install_method_unfold.
  destruct (install_terminal this type (tag_of type) (install_command type)
              (entry_of type) target s)
    as (s' & j & Hrun & Hj & _ & _ & (Hid & Hty & Htg & _) & Hmaps).
  pose proof (registered_table this type target s table Htable) as Hreg.
  rewrite <- Hmaps in Hreg.
  exists (length (jobs s)), s', j.
  split; [done |]. split; [done |]. split; [done |]. split; [done |]. split.
  - rewrite getJob_run. unfold mapref, jobref in *. rewrite Hreg, Hid. simpl.
    by rewrite assoc_get_set_same.
  - eexists. split; [rewrite getAllJobs_run; unfold mapref, jobref in *; by rewrite Hreg |].
    simpl. apply in_map_iff. eexists (_, _). split; [| apply assoc_set_In]. done.
Qed.

Lemma install_registers_job_witness :
  exists job s' j,
    run (installSkill sample_manager "epsilon") (sample_container []) = (inr job, s')
    /\ jobs s' !! job = Some j
    /\ Job.type j = skill /\ Job.target j = "epsilon"
    /\ run (getJob sample_manager (Job.id j)) s' = (inr (Some job), s')
    /\ exists l, run (getAllJobs sample_manager) s' = (inr l, s') /\ In job l.
Proof. apply (install_registers_job sample_manager skill "epsilon" (sample_container []) []). reflexivity. Defined.

Lemma known_registered_mono this type target s jobId :
  known this s jobId -> known this (registered this type target s) jobId.
Proof.
  unfold known. destruct (maps s !! activeJobs this) as [table |] eqn:Ht; [| by intros [x Hx]].
  rewrite (registered_table _ _ _ _ _ Ht). simpl. intros Hk.
  destruct (decide (format_uuid (hd 0 (entropy s)) = jobId)) as [<- | Hne].
  - rewrite assoc_get_set_same. eauto.
  - by rewrite assoc_get_set_other.
Qed.

(** No call takes an id out of the table. *)
Lemma make_call_keeps_known this c s jobId :
  known this s jobId -> known this (run (make_call this c) s).2 jobId.
Proof.
  intros Hk.
  assert (forall (p : Prog (option jobref)),
            all_ops off_heap p -> known this (run p s).2 jobId) as Hquiet.
  { intros p Hp. unfold known. by rewrite (run_off_maps p s (off_heap_off_maps p Hp)). }
  assert (forall type target,
            known this (run (job ← install_method type this target; mret (Some job)) s).2
              jobId) as Hinstall.
  { intros type target. rewrite run_bind, install_method_unfold.
    destruct (install_terminal this type (tag_of type) (install_command type)
                (entry_of type) target s) as (s' & j & -> & _ & _ & _ & _ & Hmaps).
    rewrite run_mret. simpl. unfold known. rewrite Hmaps.
    by apply known_registered_mono. }
  destruct c as [n | n | n | n | | id |]; cbn [make_call].
  - apply (Hinstall plugin).
  - apply (Hinstall skill).
  - apply Hquiet.
    pose proof (uninstall_off_heap plugin "PLUGIN" "openclaw plugins uninstall " n).
    unfold uninstallPlugin. auto with footprint.
  - apply Hquiet.
    pose proof (uninstall_off_heap skill "SKILL" "npx clawhub uninstall " n).
    unfold uninstallSkill. auto with footprint.
  - apply Hquiet. pose proof (listInstalled_off_heap this). auto with footprint.
  - apply Hquiet. unfold getJob. auto with footprint.
  - apply Hquiet. unfold getAllJobs. auto with footprint.
Qed.

Lemma make_calls_keep_known this calls s jobId :
  known this s jobId -> known this (make_calls this calls s).2 jobId.
Proof.
  revert s. induction calls as [| c calls IH]; intros s Hk; simpl; [done |].
  pose proof (make_call_keeps_known this c s jobId Hk) as Hc.
  destruct (run (make_call this c) s) as [r s1]. simpl in Hc.
  specialize (IH s1 Hc). by destruct (make_calls this calls s1) as [ids s2].
Qed.

(** X2.  The job table never forgets: an id that [getJob] finds is still
    found after any sequence of calls of the methods of the manager.  No
    method removes a job from the table. *)
Theorem job_table_never_forgets (this : InstallationManager) (calls : list call)
    (s : State) (jobId : string) (job : jobref) :
  (run (getJob this jobId) s).1 = inr (Some job) ->
  exists job', (run (getJob this jobId) (make_calls this calls s).2).1 = inr (Some job').
Proof.
  rewrite !getJob_run. simpl. intros [= Hjob].
  destruct (make_calls_keep_known this calls s jobId) as [job' Hjob'].
  - unfold known. rewrite Hjob. eauto.
  - exists job'. by rewrite Hjob'.
Qed.

Lemma job_table_never_forgets_witness :
  let s := (run (installPlugin sample_manager "delta") (sample_container [])).2 in
  let history := [CallUninstallPlugin "delta"; CallInstallSkill "epsilon"; CallListInstalled] in
  exists job',
    (run (getJob sample_manager "00003039-0000-4000-8000-000000000000")
       (make_calls sample_manager history s).2).1 = inr (Some job').
Proof.
  intros s history.
  apply (job_table_never_forgets sample_manager history s
           "00003039-0000-4000-8000-000000000000" 0%nat).
  vm_compute. reflexivity.
Defined.

(** ** The jobs of the table have come to their end *)

Lemma handle_updates_only (r : nat) X (o : op X) s :
  updates_only r X o -> forall r' : nat, r' <> r -> jobs (handle o s).2 !! r' = jobs s !! r'.
Proof.
  destruct o; simpl; try done.
  - intros _ r' _. unfold next_answer.
    destruct (script s) as [| [e | out err exit d] rest]; simpl; try done.
    + by destruct (spawn cmd "" "" 0 (Some 0) (files s)).
    + by destruct (spawn cmd out err exit d (files s)).
  - intros _ r' _. destruct (waitForProcess _ _); done.
  - intros _ r' _. unfold next_answer.
    destruct (script s) as [| [e | out err exit d] rest]; done.
  - intros -> r' Hr'. by rewrite list_lookup_alter_ne.
Qed.

Lemma run_updates_only {A} (r : nat) (p : Prog A) s :
  all_ops (updates_only r) p ->
  forall r' : nat, r' <> r -> jobs (run p s).2 !! r' = jobs s !! r'.
Proof.
  apply (run_all_ops (updates_only r)
           (fun s s' => forall r' : nat, r' <> r -> jobs s' !! r' = jobs s !! r')).
  - done.
  - intros s1 s2 s3 H12 H23 r' Hr'. by rewrite H23, H12.
  - intros X o s0. apply handle_updates_only.
Qed.

Lemma off_heap_updates_only {A} r (p : Prog A) :
  all_ops off_heap p -> all_ops (updates_only r) p.
Proof. apply all_ops_weaken. by intros X []. Qed.

#[local] Hint Extern 1 (updates_only _ _ _) => first [exact I | reflexivity] : footprint.
#[local] Hint Resolve off_heap_updates_only : footprint.

Lemma install_try_updates_only type tag cmd entry target job :
  all_ops (updates_only job) (install_try type tag cmd entry target job).
Proof. unfold install_try. auto 30 with footprint. Qed.

Lemma install_catch_updates_only tag target job e :
  all_ops (updates_only job) (install_catch tag target job e).
Proof. unfold install_catch. auto 30 with footprint. Qed.

(** An install writes to its own job only. *)
Lemma install_frame this type tag cmd entry target s r :
  (r < length (jobs s))%nat ->
  jobs (run (install this type tag cmd entry target) s).2 !! r = jobs s !! r.
Proof.
  intros Hr. rewrite install_run.
  assert (r <> length (jobs s)) as Hne by lia.
  assert (jobs (registered this type target s) !! r = jobs s !! r) as Hreg.
  { unfold registered. state_simpl. by apply lookup_app_l. }
  pose proof (run_updates_only _ _ (registered this type target s)
                (install_try_updates_only type tag cmd entry target (length (jobs s)))
                r Hne) as Htry.
  destruct (run (install_try _ _ _ _ _ _) _) as [[e | u] s4]; cbn [fst snd] in Htry |- *.
  - rewrite (run_updates_only _ _ s4 (install_catch_updates_only tag target _ e) r Hne).
    by rewrite Htry.
  - by rewrite Htry.
Qed.

Lemma make_call_table_ok this c s :
  table_ok this s -> table_ok this (run (make_call this c) s).2.
Proof.
  intros Hok.
  assert (forall (p : Prog (option jobref)),
            all_ops off_heap p -> table_ok this (run p s).2) as Hquiet.
  { intros p Hp. destruct (run_off_heap p s Hp) as [Hj Hm].
    unfold table_ok. rewrite Hj, Hm. exact Hok. }
  assert (forall type target,
            table_ok this (run (job ← install_method type this target; mret (Some job)) s).2)
    as Hinstall.
  { intros type target. rewrite run_bind, install_method_unfold.
    pose proof (install_frame this type (tag_of type) (install_command type)
                  (entry_of type) target s) as Hframe.
    destruct (install_terminal this type (tag_of type) (install_command type)
                (entry_of type) target s) as (s' & j & Hrun & Hj & Hst & Hc & _ & Hmaps).
    rewrite Hrun in Hframe. rewrite Hrun, run_mret. cbn [fst snd] in Hframe |- *.
    intros table jobId r Ht Hin. rewrite Hmaps in Ht.
    destruct (maps s !! activeJobs this) as [tbl |] eqn:Htbl.
    - rewrite (registered_table _ _ _ _ _ Htbl) in Ht. injection Ht as <-.
      apply assoc_set_In_inv in Hin as [[= -> ->] | Hin].
      + exists j. done.
      + destruct (Hok tbl jobId r Htbl Hin) as (j0 & Hj0 & Hterm).
        exists j0. split; [| done]. rewrite Hframe; [done |].
        by apply lookup_lt_Some in Hj0.
    - unfold registered in Ht. revert Ht. state_simpl.
      rewrite list_lookup_alter, decide_True by done.
      match goal with |- context [fmap _ ?o] => change o with (maps s !! activeJobs this) end.
      by rewrite Htbl. }
  destruct c as [n | n | n | n | | id |]; cbn [make_call].
  - apply (Hinstall plugin).
  - apply (Hinstall skill).
  - apply Hquiet.
    pose proof (uninstall_off_heap plugin "PLUGIN" "openclaw plugins uninstall " n).
    unfold uninstallPlugin. auto with footprint.
  - apply Hquiet.
    pose proof (uninstall_off_heap skill "SKILL" "npx clawhub uninstall " n).
    unfold uninstallSkill. auto with footprint.
  - apply Hquiet. pose proof (listInstalled_off_heap this). auto with footprint.
  - apply Hquiet. unfold getJob. auto with footprint.
  - apply Hquiet. unfold getAllJobs. auto with footprint.
Qed.

Lemma make_calls_table_ok this calls s :
  table_ok this s -> table_ok this (make_calls this calls s).2.
Proof.
  revert s. induction calls as [| c calls IH]; intros s Hok; simpl; [done |].
  pose proof (make_call_table_ok this c s Hok) as Hc.
  destruct (run (make_call this c) s) as [r s1]. simpl in Hc.
  specialize (IH s1 Hc). by destruct (make_calls this calls s1) as [ids s2].
Qed.

(** X3.  Between the calls of a manager no job is under way: after any
    sequence of calls, each run to its end, on a manager whose table
    started empty, every job that [getAllJobs] lists is [completed] or
    [failed], never [installing], and has the date of its end. *)
Theorem listed_jobs_are_terminal (this : InstallationManager) (calls : list call)
    (s : State) :
  maps s !! activeJobs this = Some [] ->
  exists l,
    run (getAllJobs this) (make_calls this calls s).2 = (inr l, (make_calls this calls s).2)
    /\ forall job, In job l ->
         exists j, jobs (make_calls this calls s).2 !! job = Some j
                   /\ Job.status j <> installing /\ is_Some (Job.completedAt j).
Proof.
  intros Hnew.
  assert (table_ok this s) as Hok0.
  { intros table jobId r Ht. rewrite Hnew in Ht. injection Ht as <-. by intros []. }
  pose proof (make_calls_table_ok this calls s Hok0) as Hok.
  eexists. split; [apply getAllJobs_run |].
  intros job Hin.
  destruct (maps (make_calls this calls s).2 !! activeJobs this) as [table |] eqn:Ht;
    [| by destruct Hin].
  simpl in Hin. apply in_map_iff in Hin as ([jobId r] & <- & Hin).
  destruct (Hok table jobId r Ht Hin) as (j & Hj & [Hst Hc]).
  exists j. split; [done |]. split; [| done].
  destruct Hst as [-> | ->]; done.
Qed.

Lemma listed_jobs_are_terminal_witness :
  let history := [CallInstallPlugin "delta"; CallInstallSkill "epsilon";
                  CallUninstallPlugin "alpha"] in
  let after := (make_calls sample_manager history
                  (sample_container [quiet; Rejects (JsError "Error" "no logs")])).2 in
  exists l,
    run (getAllJobs sample_manager) after = (inr l, after)
    /\ forall job, In job l ->
         exists j, jobs after !! job = Some j
                   /\ Job.status j <> installing /\ is_Some (Job.completedAt j).
Proof.
  intros history after.
  apply (listed_jobs_are_terminal sample_manager history
           (sample_container [quiet; Rejects (JsError "Error" "no logs")])).
  reflexivity.
Defined.

(** ** The order of the jobs in the table *)

Lemma assoc_set_fresh {A} k (v : A) l :
  k ∉ map fst l -> assoc_set k v l = (l ++ [(k, v)])%list.
Proof.
  induction l as [| [k' v'] l IH]; simpl; [done |].
  intros Hnin. apply not_elem_of_cons in Hnin as [Hne Hnin].
  rewrite (proj2 (String.eqb_neq k k') Hne). by rewrite IH.
Qed.

(** What one call does to a table whose keys are the ids of its jobs: an
    install whose id is new puts its job at the end, and the other calls
    leave the table as it is. *)
Lemma make_call_table this c s (T : list (string * nat)) :
  maps s !! activeJobs this = Some T ->
  (forall k (r : nat), (k, r) ∈ T -> Job.id <$> jobs s !! r = Some k) ->
  (forall id,
     id ∈ match (run (make_call this c) s).1 with
          | inr (Some job) =>
              option_list (Job.id <$> jobs (run (make_call this c) s).2 !! job)
          | _ => []
          end -> id ∉ map fst T) ->
  exists T' : list (string * nat),
    maps (run (make_call this c) s).2 !! activeJobs this = Some (T ++ T')%list
    /\ map fst T'
       = match (run (make_call this c) s).1 with
         | inr (Some job) =>
             option_list (Job.id <$> jobs (run (make_call this c) s).2 !! job)
         | _ => []
         end
    /\ forall k (r : nat),
         (k, r) ∈ (T ++ T')%list ->
         Job.id <$> jobs (run (make_call this c) s).2 !! r = Some k.
Proof.
  intros Htable Hids.
  assert (forall X (p : Prog X), all_ops off_heap p ->
            let q := p ≫= (fun _ => mret (@None jobref)) in
            (forall id,
               id ∈ match (run q s).1 with
                    | inr (Some job) => option_list (Job.id <$> jobs (run q s).2 !! job)
                    | _ => []
                    end -> id ∉ map fst T) ->
            exists T' : list (string * nat),
              maps (run q s).2 !! activeJobs this = Some (T ++ T')%list
              /\ map fst T'
                 = match (run q s).1 with
                   | inr (Some job) => option_list (Job.id <$> jobs (run q s).2 !! job)
                   | _ => []
                   end
              /\ forall k (r : nat),
                   (k, r) ∈ (T ++ T')%list -> Job.id <$> jobs (run q s).2 !! r = Some k)
    as Hquiet.
  { intros X p Hp q _. subst q.
    destruct (run_off_heap p s Hp) as [Hj Hm]. rewrite run_bind.
    destruct (run p s) as [[e | b] s1]; cbn [fst snd] in *; rewrite ?run_mret; cbn [fst snd];
      exists []; rewrite app_nil_r, Hj, Hm; done. }
  assert (forall type target,
            let q := job ← install_method type this target; mret (Some job) in
            (forall id,
               id ∈ match (run q s).1 with
                    | inr (Some job) => option_list (Job.id <$> jobs (run q s).2 !! job)
                    | _ => []
                    end -> id ∉ map fst T) ->
            exists T' : list (string * nat),
              maps (run q s).2 !! activeJobs this = Some (T ++ T')%list
              /\ map fst T'
                 = match (run q s).1 with
                   | inr (Some job) => option_list (Job.id <$> jobs (run q s).2 !! job)
                   | _ => []
                   end
              /\ forall k (r : nat),
                   (k, r) ∈ (T ++ T')%list -> Job.id <$> jobs (run q s).2 !! r = Some k)
    as Hinstall.
  { intros type target q. subst q. rewrite run_bind, install_method_unfold.
    pose proof (install_frame this type (tag_of type) (install_command type)
                  (entry_of type) target s) as Hframe.
    destruct (install_terminal this type (tag_of type) (install_command type)
                (entry_of type) target s) as (s' & j & Hrun & Hj & _ & _ & (Hid & _) & Hmaps).
    rewrite Hrun in Hframe. rewrite Hrun, run_mret. cbn [fst snd] in Hframe |- *.
    unfold jobref in *. rewrite Hj. cbn [fmap option_fmap option_map option_list].
    rewrite Hid. cbn [new_job Job.id]. intros Hfresh.
    specialize (Hfresh _ (list_elem_of_here _ _)).
    exists [(format_uuid (hd 0 (entropy s)), length (jobs s))].
    split; [| split; [done |]].
    - rewrite Hmaps, (registered_table _ _ _ _ _ Htable). f_equal.
      by apply assoc_set_fresh.
    - intros k r Hin. apply elem_of_app in Hin as [Hin | Hin].
      + specialize (Hids k r Hin). rewrite Hframe; [done |].
        destruct (jobs s !! r) eqn:Hr; [| done]. by apply lookup_lt_Some in Hr.
      + apply list_elem_of_singleton in Hin as [= -> ->]. rewrite Hj.
        cbn [fmap option_fmap option_map]. by rewrite Hid. }
  destruct c as [n | n | n | n | | id |]; cbn [make_call].
  - apply (Hinstall plugin).
  - apply (Hinstall skill).
  - apply Hquiet.
    pose proof (uninstall_off_heap plugin "PLUGIN" "openclaw plugins uninstall " n).
    unfold uninstallPlugin. auto with footprint.
  - apply Hquiet.
    pose proof (uninstall_off_heap skill "SKILL" "npx clawhub uninstall " n).
    unfold uninstallSkill. auto with footprint.
  - apply Hquiet. pose proof (listInstalled_off_heap this). auto with footprint.
  - apply Hquiet. unfold getJob. auto with footprint.
  - apply Hquiet. unfold getAllJobs. auto with footprint.
Qed.

Lemma make_calls_table this calls :
  forall s (T : list (string * nat)),
    maps s !! activeJobs this = Some T ->
    (forall k (r : nat), (k, r) ∈ T -> Job.id <$> jobs s !! r = Some k) ->
    NoDup (map fst T ++ (make_calls this calls s).1) ->
    exists T' : list (string * nat),
      maps (make_calls this calls s).2 !! activeJobs this = Some (T ++ T')%list
      /\ map fst T' = (make_calls this calls s).1
      /\ forall k (r : nat),
           (k, r) ∈ (T ++ T')%list ->
           Job.id <$> jobs (make_calls this calls s).2 !! r = Some k.
Proof.
  induction calls as [| c calls IH]; intros s T Htable Hids Hnodup.
  - exists []. by rewrite app_nil_r.
  - cbn [make_calls] in *.
    pose proof (make_call_table this c s T Htable Hids) as Hc.
    destruct (run (make_call this c) s) as [r s1]. cbn [fst snd] in Hc.
    set (ids := match r with
                | inr (Some job) => option_list (Job.id <$> jobs s1 !! job)
                | _ => []
                end) in *.
    specialize (IH s1).
    destruct (make_calls this calls s1) as [ids' s2]. cbn [fst snd] in *.
    destruct Hc as (T1 & Ht1 & Hfst1 & Hids1).
    { intros id Hin. apply NoDup_app in Hnodup as (_ & Hdisj & _).
      intros Hin'. apply (Hdisj id Hin'). apply elem_of_app. by left. }
    destruct (IH (T ++ T1)%list Ht1 Hids1) as (T2 & Ht2 & Hfst2 & Hids2).
    { by rewrite map_app, Hfst1, <- app_assoc. }
    exists (T1 ++ T2)%list. rewrite app_assoc. split; [done |]. split; [| done].
    by rewrite map_app, Hfst1, Hfst2.
Qed.

(** X19.  [getAllJobs] lists the jobs of the installs, in the order of
    the installs: after any sequence of calls on a manager whose table
    started empty, when the ids that the installs drew are all different,
    the ids of the jobs that [getAllJobs] lists are the ids of the jobs
    that the installs returned, one for one and in the same order. *)
Theorem getAllJobs_lists_installs_in_order (this : InstallationManager)
    (calls : list call) (s : State) :
  maps s !! activeJobs this = Some [] ->
  NoDup (make_calls this calls s).1 ->
  exists l,
    run (getAllJobs this) (make_calls this calls s).2 = (inr l, (make_calls this calls s).2)
    /\ (fun job : nat => Job.id <$> jobs (make_calls this calls s).2 !! job) <$> l
       = Some <$> (make_calls this calls s).1.
Proof.
  intros Hnew Hnodup.
  destruct (make_calls_table this calls s [] Hnew) as (T & Ht & Hfst & Hids).
  - intros k r Hin. by apply elem_of_nil in Hin.
  - done.
  - eexists. split; [apply getAllJobs_run |].
    unfold mapref, jobref in *. rewrite Ht. cbn [fmap option_fmap option_map default].
    rewrite <- Hfst. cbn [app id] in Hids |- *. clear -Hids.
    induction T as [| [k r] T IH]; [done |].
    change ((fun job : nat => Job.id <$> jobs (make_calls this calls s).2 !! job) r
            :: ((fun job : nat => Job.id <$> jobs (make_calls this calls s).2 !! job)
                <$> map snd T)
            = Some k :: (Some <$> map fst T)).
    cbv beta. rewrite (Hids k r (list_elem_of_here _ _)). f_equal.
    apply IH. intros k' r' Hin. apply Hids. by apply list_elem_of_further.
Qed.

Lemma getAllJobs_lists_installs_in_order_witness :
  let history := [CallInstallPlugin "delta"; CallUninstallPlugin "alpha";
                  CallInstallSkill "epsilon"; CallGetAllJobs] in
  let after := make_calls sample_manager history (sample_container []) in
  exists l,
    run (getAllJobs sample_manager) after.2 = (inr l, after.2)
    /\ (fun job : nat => Job.id <$> jobs after.2 !! job) <$> l = Some <$> after.1.
Proof.
  intros history after.
  apply (getAllJobs_lists_installs_in_order sample_manager history (sample_container [])).
  - reflexivity.
  - vm_compute. apply NoDup_cons. split; [| apply NoDup_singleton].
    by intros [=]%list_elem_of_singleton.
Defined.

(** * What uninstalling and reading leave alone *)

(** A program that writes last still does when a pure step follows it. *)
Lemma writes_last_then {A B} (p : Prog A) (f : A -> Prog B) :
  writes_last p -> (forall a, exists b, f a = Ret b) -> writes_last (p ≫= f).
Proof.
  intros Hp Hf. rewrite bind_unfold.
  induction Hp as [a | e | X o k Ho _ IH | payload path k Hrej Hok]; simpl.
  - destruct (Hf a) as [b ->]. constructor.
  - constructor.
  - apply writes_last_Vis; [done | apply IH].
  - apply writes_last_Echo.
    + intros e. rewrite <- bind_unfold. apply all_ops_bind; [apply Hrej |].
      intros a. destruct (Hf a) as [b ->]. constructor.
    + intros x. destruct (Hok x) as [a ->]. simpl. apply Hf.
Qed.

Lemma uninstall_try_writes_last type tag cmd target :
  writes_last (uninstall_try type tag cmd target).
Proof.
  unfold uninstall_try.
  repeat (apply writes_last_bind; [solve [auto with footprint] | intros ?]).
  apply writes_last_then; [apply removeFromManifest_writes_last | eauto].
Qed.



Lemma listInstalled_reads_only this : all_ops reads_only (listInstalled this).
Proof. unfold listInstalled. auto 30 with footprint. Qed.

(** X5.  The methods that read change nothing: [listInstalled] leaves the
    files, the jobs and the job tables as they are, and [getJob] and
    [getAllJobs] leave the whole state as it is. *)
Theorem reading_methods_change_nothing (this : InstallationManager) (s : State)
    (jobId : string) :
  same_store s (run (listInstalled this) s).2
  /\ (run (getJob this jobId) s).2 = s
  /\ (run (getAllJobs this) s).2 = s.
Proof.
  split; [| split].
  - apply run_reads_only, listInstalled_reads_only.
  - by rewrite getJob_run.
  - by rewrite getAllJobs_run.
Qed.

(** * A container that answers promptly *)

Lemma obliging_next s :
  obliging s ->
  exists out err exit d,
    hd quiet (script s) = Runs out err exit (Some d) /\ (d <= 5000)%Z.
Proof.
  unfold obliging. destruct (script s) as [| a rest]; simpl.
  - intros _. exists "", "", 0, 0. split; [done | lia].
  - intros H. inversion H as [| a' rest' Ha _]; subst.
    destruct a as [e | out err exit [d |]]; simpl in Ha; try done. eauto 6.
Qed.

Lemma obliging_tl s : obliging s -> Forall prompt (tl (script s)).
Proof.
  unfold obliging. destruct (script s) as [| a rest]; simpl; [done |].
  intros H. by inversion H.
Qed.

Lemma handle_script {X} (o : op X) s :
  script (handle o s).2 = script s \/ script (handle o s).2 = tl (script s).
Proof.
  destruct o; simpl; try (by left).
  - right. unfold next_answer. destruct (hd quiet (script s)) as [e | out err exit d]; [done |].
    by destruct (spawn cmd out err exit d _).
  - left. by destruct (waitForProcess _ _).
  - right. unfold next_answer. by destruct (hd quiet (script s)).
Qed.

(** A container that answers promptly goes on doing so, whatever is asked
    of it. *)
Lemma run_obliging {A} (p : Prog A) s : obliging s -> obliging (run p s).2.
Proof.
  revert s. induction p as [a | e | X o k IH]; intros s Hob; simpl; [done.. |].
  pose proof (handle_script o s) as Hs. destruct (handle o s) as [x s1].
  apply IH. simpl in Hs. unfold obliging. destruct Hs as [-> | ->]; [done |].
  by apply obliging_tl.
Qed.

Lemma start_sh_runs line s out err exit d :
  hd quiet (script s) = Runs out err exit d ->
  exists s1,
    handle (StartProcess (Sh line)) s = (inr (length (processes s)), s1)
    /\ processes s1
       = (processes s ++ [(spawn (Sh line) out err exit d (files s)).1])%list
    /\ files s1 = files s /\ jobs s1 = jobs s /\ maps s1 = maps s
    /\ clock s1 = clock s /\ console s1 = console s
    /\ script s1 = tl (script s).
Proof.
  intros Hhd. cbn [handle]. unfold next_answer. rewrite Hhd. state_simpl.
  pose proof (spawn_Sh_files line out err exit d (files s)) as Hfs.
  destruct (spawn (Sh line) out err exit d (files s)) as [p fs]. simpl in Hfs. subst fs.
  eexists. split; [reflexivity |]. by state_simpl.
Qed.

Lemma start_echo_obliging payload path s :
  obliging s ->
  exists x s1,
    handle (StartProcess (EchoTo payload path)) s = (inr x, s1)
    /\ files s1 = <[path := payload]> (files s)
    /\ jobs s1 = jobs s /\ maps s1 = maps s /\ clock s1 = clock s
    /\ script s1 = tl (script s).
Proof.
  intros Hob. destruct (obliging_next s Hob) as (out & err & exit & d & Hhd & Hd).
  cbn [handle]. unfold next_answer. rewrite Hhd. state_simpl.
  eexists _, _. split; [reflexivity |]. by state_simpl.
Qed.

Lemma wait_obliging (proc : nat) T s p d :
  processes s !! proc = Some p -> p_duration p = Some d -> (d <= T)%Z ->
  handle (WaitForProcess proc T) s = (inr tt, with_clock (clock s + d) s).
Proof.
  intros Hp Hd Hle. cbn [handle]. unfold Process in *. rewrite Hp. cbn [mbind option_bind].
  rewrite Hd. unfold waitForProcess. by rewrite (proj2 (Z.leb_le d T) Hle).
Qed.

Lemma getlogs_obliging (proc : nat) s :
  obliging s ->
  handle (GetLogs proc) s
  = (inr (default {| stdout := Plain ""; stderr := Plain "" |}
            (p_logs <$> processes s !! proc)),
     with_script (tl (script s)) s).
Proof.
  intros Hob. destruct (obliging_next s Hob) as (out & err & exit & d & Hhd & Hd).
  cbn [handle]. unfold next_answer. rewrite Hhd. by state_simpl.
Qed.

(** The three awaits with which every command is run: started, waited
    for, its logs read.  When the process ends within the timeout and the
    container hands out its logs, they go through, and what follows runs
    with the logs of the process. *)
Lemma run_command_prompt {B} line T (k : Process -> Logs -> Prog B) s out err exit d :
  hd quiet (script s) = Runs out err exit (Some d) ->
  (d <= T)%Z ->
  Forall prompt (tl (script s)) ->
  exists s3,
    run (proc ← await (StartProcess (Sh line));
         await (WaitForProcess proc T);;
         logs ← await (GetLogs proc);
         k proc logs) s
    = run (k (length (processes s))
             (p_logs (spawn (Sh line) out err exit (Some d) (files s)).1)) s3
    /\ processes s3
       = (processes s ++ [(spawn (Sh line) out err exit (Some d) (files s)).1])%list
    /\ files s3 = files s /\ jobs s3 = jobs s /\ maps s3 = maps s
    /\ console s3 = console s
    /\ obliging s3.
Proof.
  intros Hhd Hd Htl.
  destruct (start_sh_runs line s out err exit (Some d) Hhd)
    as (s1 & Hh & Hp1 & Hf1 & Hj1 & Hm1 & Hc1 & Hco1 & Hs1).
  set (p := (spawn (Sh line) out err exit (Some d) (files s)).1) in *.
  assert (processes s1 !! length (processes s) = Some p) as Hp.
  { rewrite Hp1. by apply list_lookup_middle. }
  assert (p_duration p = Some d) as Hdur by apply spawn_duration.
  rewrite run_bind_await, Hh. cbn [fst snd].
  rewrite run_bind_await, (wait_obliging _ T s1 p d Hp Hdur) by lia. cbn [fst snd].
  rewrite run_bind_await, getlogs_obliging.
  2: { unfold obliging. state_simpl. by rewrite Hs1. }
  cbn [fst snd]. state_simpl. unfold Process in *. rewrite Hp.
  cbn [fmap option_fmap option_map default].
  eexists. split; [reflexivity |]. state_simpl.
  split; [done |]. split; [done |]. split; [done |]. split; [done |]. split; [done |].
  unfold obliging. state_simpl. rewrite Hs1.
  destruct (tl (script s)) as [| a rest]; simpl; [done |].
  by inversion Htl.
Qed.

(** The [try] of [getManifest] returns, or throws, what parsing the
    manifest file gives. *)
Lemma getManifest_try_obliging s :
  obliging s -> exists s1, run getManifest_try s = (stored_manifest (files s), s1).
Proof.
  intros Hob. unfold getManifest_try.
  destruct (obliging_next s Hob) as (out & err & exit & d & Hhd & Hd).
  epose proof (run_command_prompt (B := value) ("cat " ++ MANIFEST_FILE) 5000 _ s
                 out err exit d Hhd Hd (obliging_tl s Hob)) as (s3 & Hrun & _).
  exists s3. etrans; [exact Hrun |]. cbv beta.
  rewrite run_lift, spawn_cat. unfold stored_manifest.
  by destruct (files s !! MANIFEST_FILE).
Qed.

(** ** What [JSON.stringify] keeps *)

Lemma to_json_obj l : to_json (VObj l) = VObj (json_fields l).
Proof.
  reflexivity.
Qed.

Lemma to_json_arr items extra : to_json (VArr items extra) = VArr (map json_item items) [].
Proof. reflexivity. Qed.

Lemma json_fields_length l : (length (json_fields l) <= length l)%nat.
Proof. induction l as [| [k v] l IH]; simpl; [done |]. destruct v; simpl; lia. Qed.

Lemma json_fields_cons_inv k v l :
  json_fields ((k, v) :: l) = (k, v) :: l ->
  v <> VUndefined /\ to_json v = v /\ json_fields l = l.
Proof.
  destruct v; simpl.
  - intros H. pose proof (json_fields_length l) as Hl. rewrite H in Hl. simpl in Hl. lia.
  - by intros [= ->].
  - by intros [= ->].
  - by intros [= ->].
  - by intros [= ->].
  - intros Heq. injection Heq. intros. repeat split; [done | congruence | done].
  - intros Heq. injection Heq. intros. repeat split; [done | congruence | done].
Qed.

Lemma json_fields_get l k v :
  json_fields l = l -> assoc_get k l = Some v -> v <> VUndefined /\ to_json v = v.
Proof.
  induction l as [| [k' v'] l IH]; [done |].
  intros Hl. apply json_fields_cons_inv in Hl as (Hv & Hj & Hl). simpl.
  destruct (String.eqb k k'); [by intros [= <-] | by apply IH].
Qed.

Lemma json_fields_cons k v l :
  v <> VUndefined -> json_fields ((k, v) :: l) = (k, to_json v) :: json_fields l.
Proof. by destruct v. Qed.

Lemma json_fields_set l k v :
  json_fields l = l -> v <> VUndefined -> to_json v = v ->
  json_fields (assoc_set k v l) = assoc_set k v l.
Proof.
  intros Hl Hv Hj. induction l as [| [k' v'] l IH].
  - simpl assoc_set. by rewrite json_fields_cons, Hj.
  - apply json_fields_cons_inv in Hl as (Hv' & Hj' & Hl). simpl assoc_set.
    destruct (String.eqb k k').
    + by rewrite json_fields_cons, Hj, Hl.
    + by rewrite json_fields_cons, Hj', IH.
Qed.

(** ** The lists of the manifest *)

Lemma entries_js_or fields k items :
  entries fields k = Some items ->
  js_or (default VUndefined (assoc_get k fields)) (VArr [] []) = VArr items [].
Proof.
  unfold entries.
  destruct (js_or _ _) as [| | | | | its [| x e] |]; try done. by intros [= ->].
Qed.

Lemma push_entry_entries fields k entry items :
  entries fields k = Some items ->
  push_entry (VObj fields) k entry
  = inr (VObj (assoc_set k (VArr (items ++ [entry]) []) fields)).
Proof.
  intros Hent. apply entries_js_or in Hent. unfold push_entry. simpl.
  rewrite Hent, assoc_get_set_same. simpl. by rewrite assoc_set_twice.
Qed.

Lemma entries_json fields k items :
  json_fields fields = fields -> entries fields k = Some items ->
  map json_item items = items.
Proof.
  intros Hj Hent. apply entries_js_or in Hent. unfold js_or in Hent.
  destruct (assoc_get k fields) as [v |] eqn:Hk; simpl in Hent.
  - destruct (truthy v); [| by injection Hent as <-]. subst v.
    apply (json_fields_get _ _ _ Hj) in Hk as [_ Hk]. rewrite to_json_arr in Hk.
    by injection Hk.
  - by injection Hent as <-.
Qed.

Lemma filter_items_total f items :
  Forall (fun x => exists b, f x = inr b) items ->
  filter_items f items
  = inr (List.filter (fun x => match f x with inr b => b | inl _ => false end) items).
Proof.
  induction 1 as [| x items [b Hb] _ IH]; simpl; [done |].
  rewrite Hb, IH. by destruct b.
Qed.

Lemma other_entry_readable type name p :
  readable p -> exists b, other_entry type name p = inr b.
Proof. unfold other_entry. destruct p; simpl; try done; eauto. Qed.

Lemma filter_entries_entries fields type name items :
  entries fields (list_key type) = Some items ->
  Forall readable items ->
  filter_entries (VObj fields) type name
  = inr (VObj (assoc_set (list_key type)
                 (VArr (List.filter (keeps type name) items) []) fields)).
Proof.
  intros Hent Hread. apply entries_js_or in Hent. unfold filter_entries. simpl.
  rewrite Hent. simpl. rewrite filter_items_total; [done |].
  eapply Forall_impl; [exact Hread |]. intros p. apply other_entry_readable.
Qed.

(** ** Reading and writing the manifest in such a container *)

Lemma getManifest_obliging s v :
  obliging s -> stored_manifest (files s) = inr v ->
  exists s1, run getManifest s = (inr v, s1) /\ same_store s s1 /\ obliging s1.
Proof.
  intros Hob Hv.
  pose proof (run_reads_only getManifest s getManifest_reads_only) as Hsame.
  pose proof (run_obliging getManifest s Hob) as Hob1.
  rewrite getManifest_run in *.
  destruct (getManifest_try_obliging s Hob) as [s1 Htry].
  rewrite Htry, Hv in *. eauto.
Qed.

Lemma after_read_off_heap type entry manifest :
  all_ops off_heap (after_read type entry manifest).
Proof. unfold after_read. auto 20 with footprint. Qed.

Lemma after_read_obliging type entry fields items s :
  obliging s -> entries fields (list_key type) = Some items ->
  exists s',
    run (after_read type entry (VObj fields)) s = (inr tt, s')
    /\ files s'
       = <[MANIFEST_FILE :=
             JSON_stringify (written type entry fields items (toISOString (clock s)))]>
           (files s)
    /\ same_heap s s' /\ obliging s'.
Proof.
  intros Hob Hent.
  pose proof (run_obliging (after_read type entry (VObj fields)) s Hob) as Hob'.
  pose proof (run_off_heap _ s (after_read_off_heap type entry (VObj fields))) as Hheap.
  revert Hob' Hheap. unfold after_read.
  rewrite (push_entry_entries _ _ _ _ Hent). do 2 step.
  rewrite run_bind_lift. cbn [set_prop].
  destruct (obliging_next s Hob) as (out & err & exit & d & Hhd & _).
  destruct (start_sh_runs ("mkdir -p " ++ BACKUP_DIR) s out err exit (Some d) Hhd)
    as (s1 & Hh & _ & Hf1 & _ & _ & _ & _ & Hs1).
  rewrite run_bind_await, Hh. cbn [fst snd].
  assert (obliging s1) as Hob1 by (unfold obliging; rewrite Hs1; by apply obliging_tl).
  match goal with
  | |- context [StartProcess (EchoTo ?payload ?path)] =>
      destruct (start_echo_obliging payload path s1 Hob1) as (x & s2 & Hh2 & Hf2 & _)
  end.
  rewrite run_bind_await, Hh2. cbn [fst snd]. rewrite run_mret. cbn [fst snd].
  intros Hob' Hheap. exists s2. split; [done |]. split; [| done].
  by rewrite Hf2, Hf1.
Qed.

Lemma updateManifest_obliging type entry fields items s :
  obliging s ->
  stored_manifest (files s) = inr (VObj fields) ->
  entries fields (list_key type) = Some items ->
  exists now s',
    run (updateManifest type entry) s = (inr tt, s')
    /\ files s'
       = <[MANIFEST_FILE := JSON_stringify (written type entry fields items now)]> (files s)
    /\ same_heap s s' /\ obliging s'.
Proof.
  intros Hob Hfile Hent.
  destruct (getManifest_obliging s _ Hob Hfile) as (s1 & Hget & (Hf1 & Hj1 & Hm1) & Hob1).
  destruct (after_read_obliging type entry fields items s1 Hob1 Hent)
    as (s' & Hrun & Hf & (Hj & Hm) & Hob').
  exists (toISOString (clock s1)), s'.
  rewrite updateManifest_after_read, run_bind, Hget, Hrun.
  split; [done |]. split; [by rewrite Hf, Hf1 |]. split; [| done].
  split; congruence.
Qed.

(** What [removeFromManifest] does once it has read a manifest that is an
    object with a list of entries whose key can be read. *)
Lemma removeFromManifest_after type name fields items s s1 :
  run getManifest s = (inr (VObj fields), s1) ->
  obliging s1 ->
  entries fields (list_key type) = Some items ->
  Forall readable items ->
  exists s',
    run (removeFromManifest type name) s = (inr tt, s')
    /\ files s'
       = <[MANIFEST_FILE :=
             JSON_stringify (filtered type name fields items (toISOString (clock s1)))]>
           (files s1).
Proof.
  intros Hget Hob1 Hent Hread. unfold removeFromManifest.
  rewrite run_bind, Hget.
  rewrite (filter_entries_entries _ _ _ _ Hent Hread). do 2 step.
  rewrite run_bind_lift. cbn [set_prop].
  match goal with
  | |- context [StartProcess (EchoTo ?payload ?path)] =>
      destruct (start_echo_obliging payload path s1 Hob1) as (x & s2 & Hh2 & Hf2 & _)
  end.
  rewrite run_bind_await, Hh2. cbn [fst snd]. rewrite run_mret.
  exists s2. split; [done |]. exact Hf2.
Qed.

Lemma removeFromManifest_obliging type name fields items s :
  obliging s ->
  stored_manifest (files s) = inr (VObj fields) ->
  entries fields (list_key type) = Some items ->
  Forall readable items ->
  exists now s',
    run (removeFromManifest type name) s = (inr tt, s')
    /\ files s'
       = <[MANIFEST_FILE := JSON_stringify (filtered type name fields items now)]> (files s)
    /\ same_heap s s' /\ obliging s'.
Proof.
  intros Hob Hfile Hent Hread.
  pose proof (run_obliging (removeFromManifest type name) s Hob) as Hob'.
  pose proof (run_off_heap _ s (removeFromManifest_off_heap type name)) as Hheap.
  destruct (getManifest_obliging s _ Hob Hfile) as (s1 & Hget & (Hf1 & _ & _) & Hob1).
  destruct (removeFromManifest_after type name fields items s s1 Hget Hob1 Hent Hread)
    as (s' & Hrun & Hf).
  rewrite Hrun in Hob', Hheap. exists (toISOString (clock s1)), s'.
  split; [done |]. split; [| done]. by rewrite Hf, Hf1.
Qed.

(** When the manifest file cannot be parsed, [getManifest] makes a
    manifest anew. *)
Lemma getManifest_obliging_fresh s e :
  obliging s -> stored_manifest (files s) = inl e ->
  exists now s1,
    run getManifest s = (inr (VObj (fresh_fields now)), s1)
    /\ same_store s s1 /\ obliging s1.
Proof.
  intros Hob He.
  pose proof (run_reads_only getManifest s getManifest_reads_only) as Hsame.
  pose proof (run_obliging getManifest s Hob) as Hob1.
  rewrite getManifest_run in *.
  destruct (getManifest_try_obliging s Hob) as [s1 Htry].
  rewrite Htry, He in *. eauto.
Qed.

(** ** Installs and uninstalls in such a container *)

(** The [try] of an install whose command ends within the timeout, in a
    container that answers promptly afterwards, comes to the update of the
    manifest, with the job marked [completed] and the files as they
    were. *)
Lemma install_try_prompt type tag cmd entry target (r : nat) s j out err exit d :
  hd quiet (script s) = Runs out err exit (Some d) ->
  (d <= INSTALLATION_TIMEOUT_MS)%Z ->
  Forall prompt (tl (script s)) ->
  jobs s !! r = Some j ->
  exists sm logs now,
    run (install_try type tag cmd entry target r) s
    = run (updateManifest type (entry target (Job.startedAt j))) sm
    /\ files sm = files s /\ maps sm = maps s /\ obliging sm
    /\ jobs sm !! r
       = Some (Job.set_completedAt now (Job.set_status completed (Job.set_output logs j)))
    /\ processes sm !! length (processes s)
       = Some (spawn (Sh (cmd ++ target)) out err exit (Some d) (files s)).1.
Proof.
  intros Hhd Hd Htl Hj. unfold install_try. step.
  match goal with |- context [run _ ?s0] => set (s2 := s0) end.
  epose proof (run_command_prompt (B := unit) (cmd ++ target) INSTALLATION_TIMEOUT_MS
                 _ s2 out err exit d Hhd Hd Htl)
    as (s3 & Hrun & Hp3 & Hf3 & Hj3 & Hm3 & _ & Hob3).
  assert (jobs s3 !! r = Some j) as Hj3' by (by rewrite Hj3).
  eexists _, _, _. split.
  { etrans; [exact Hrun |]. cbv beta. do 7 step. rewrite run_bind_perform.
    cbn [handle fst snd jobs with_console with_jobs].
    rewrite (lookup_alter_same _ _ _ _ (lookup_alter_same _ _ _ _
               (lookup_alter_same _ _ _ _ Hj3'))).
    change (Some ?x ≫= Job.startedAt) with (Job.startedAt x).
    cbn [Job.startedAt Job.set_completedAt Job.set_status Job.set_output].
    reflexivity. }
  state_simpl. split; [done |]. split; [done |]. split; [exact Hob3 |]. split.
  - by do 3 apply lookup_alter_same.
  - rewrite Hp3. by apply list_lookup_middle.
Qed.

(** The job and the manifest after such an install, on a manifest that is
    an object with a list to append to. *)
Lemma install_prompt this type target s fields items out err exit d :
  hd quiet (script s) = Runs out err exit (Some d) ->
  (d <= INSTALLATION_TIMEOUT_MS)%Z ->
  Forall prompt (tl (script s)) ->
  stored_manifest (files s) = inr (VObj fields) ->
  entries fields (list_key type) = Some items ->
  exists s' j now,
    run (install_method type this target) s = (inr (length (jobs s)), s')
    /\ jobs s' !! length (jobs s) = Some j
    /\ Job.status j = completed /\ Job.error j = None
    /\ Job.startedAt j = Some (toISOString (clock s))
    /\ files s'
       = <[MANIFEST_FILE :=
             JSON_stringify
               (written type (entry_of type target (Some (toISOString (clock s))))
                  fields items now)]> (files s)
    /\ maps s' = maps (registered this type target s)
    /\ obliging s'
    /\ (p_exitCode <$> processes s' !! length (processes s)) = Some exit.
Proof.
  intros Hhd Hd Htl Hfile Hent. rewrite install_method_unfold, install_run.
  destruct (install_try_prompt type (tag_of type) (install_command type) (entry_of type)
              target (length (jobs s)) (registered this type target s)
              (new_job type target s) out err exit d Hhd Hd Htl
              (registered_job this type target s))
    as (sm & logs & now & Htry & Hfm & Hmm & Hobm & Hjm & Hpm).
  cbn [new_job Job.startedAt] in Htry.
  destruct (updateManifest_obliging type
              (entry_of type target (Some (toISOString (clock s)))) fields items sm Hobm)
    as (now' & s' & Hupd & Hf & (Hj' & Hm') & Hob'); [by rewrite Hfm | done |].
  pose proof (run_processes (updateManifest type
                (entry_of type target (Some (toISOString (clock s))))) sm) as Hpre.
  rewrite Hupd in Hpre. cbn [snd] in Hpre.
  rewrite Htry, Hupd. eexists s', _, now'.
  split; [done |]. split; [by rewrite Hj' |]. split; [done |]. split; [done |].
  split; [done |].
  split; [by rewrite Hf, Hfm |]. split; [by rewrite Hm' |]. split; [done |].
  pose proof (prefix_lookup_Some _ _ _ _ Hpm Hpre) as Hp'.
  change (processes (registered this type target s)) with (processes s) in Hp'.
  rewrite Hp'. simpl. f_equal. apply spawn_install_exit.
Qed.

Lemma install_obliging this type target s fields items :
  obliging s ->
  stored_manifest (files s) = inr (VObj fields) ->
  entries fields (list_key type) = Some items ->
  exists s' j now,
    run (install_method type this target) s = (inr (length (jobs s)), s')
    /\ jobs s' !! length (jobs s) = Some j
    /\ Job.status j = completed /\ Job.error j = None
    /\ Job.startedAt j = Some (toISOString (clock s))
    /\ files s'
       = <[MANIFEST_FILE :=
             JSON_stringify
               (written type (entry_of type target (Some (toISOString (clock s))))
                  fields items now)]> (files s)
    /\ maps s' = maps (registered this type target s)
    /\ obliging s'.
Proof.
  intros Hob Hfile Hent.
  destruct (obliging_next s Hob) as (out & err & exit & d & Hhd & Hd).
  destruct (install_prompt this type target s fields items out err exit d Hhd)
    as (s' & j & now & H); [unfold INSTALLATION_TIMEOUT_MS; lia | by apply obliging_tl
                            | done | done |].
  exists s', j, now. tauto.
Qed.

(** The [try] of such an uninstall comes to the filtering of the
    manifest, with the files as they were. *)
Lemma uninstall_try_prompt type tag cmd target s out err exit d :
  hd quiet (script s) = Runs out err exit (Some d) ->
  (d <= INSTALLATION_TIMEOUT_MS)%Z ->
  Forall prompt (tl (script s)) ->
  exists sm,
    run (uninstall_try type tag cmd target) s
    = run (removeFromManifest type target ≫= fun _ => mret true) sm
    /\ files sm = files s /\ obliging sm
    /\ processes sm !! length (processes s)
       = Some (spawn (Sh (cmd ++ target)) out err exit (Some d) (files s)).1.
Proof.
  intros Hhd Hd Htl. unfold uninstall_try. step.
  match goal with |- context [run _ ?s0] => set (s2 := s0) end.
  epose proof (run_command_prompt (B := bool) (cmd ++ target) INSTALLATION_TIMEOUT_MS
                 _ s2 out err exit d Hhd Hd Htl)
    as (s3 & Hrun & Hp3 & Hf3 & _ & _ & _ & Hob3).
  eexists. split.
  { etrans; [exact Hrun |]. cbv beta. do 3 step. reflexivity. }
  state_simpl. split; [done |]. split; [exact Hob3 |].
  rewrite Hp3. by apply list_lookup_middle.
Qed.

Lemma spawn_uninstall type target out err exit d fs :
  p_command (spawn (Sh (uninstall_command type ++ target)) out err exit d fs).1
  = Sh (uninstall_command type ++ target)
  /\ p_exitCode (spawn (Sh (uninstall_command type ++ target)) out err exit d fs).1 = exit.
Proof. by destruct type. Qed.

(** The result and the manifest after such an uninstall, on a manifest
    that is an object with a list of entries whose key can be read. *)
Lemma uninstall_prompt this type target s fields items out err exit d :
  hd quiet (script s) = Runs out err exit (Some d) ->
  (d <= INSTALLATION_TIMEOUT_MS)%Z ->
  Forall prompt (tl (script s)) ->
  stored_manifest (files s) = inr (VObj fields) ->
  entries fields (list_key type) = Some items ->
  Forall readable items ->
  exists now s' p,
    run (uninstall_method type this target) s = (inr true, s')
    /\ files s'
       = <[MANIFEST_FILE := JSON_stringify (filtered type target fields items now)]> (files s)
    /\ same_heap s s' /\ obliging s'
    /\ processes s' !! length (processes s) = Some p
    /\ p_command p = Sh (uninstall_command type ++ target)
    /\ p_exitCode p = exit.
Proof.
  intros Hhd Hd Htl Hfile Hent Hread.
  pose proof (run_off_heap _ s
                (uninstall_off_heap type (tag_of type) (uninstall_command type) target))
    as Hheap.
  rewrite <- uninstall_method_unfold with (this := this) in Hheap.
  revert Hheap. rewrite uninstall_method_unfold, uninstall_run.
  destruct (uninstall_try_prompt type (tag_of type) (uninstall_command type) target s
              out err exit d Hhd Hd Htl) as (sm & Htry & Hfm & Hobm & Hpm).
  destruct (removeFromManifest_obliging type target fields items sm Hobm)
    as (now & s' & Hrm & Hf & _ & Hob'); [by rewrite Hfm | done | done |].
  pose proof (run_processes (removeFromManifest type target) sm) as Hpre.
  rewrite Hrm in Hpre. cbn [snd] in Hpre.
  rewrite Htry, run_bind, Hrm, run_mret. intros Hheap.
  destruct (spawn_uninstall type target out err exit (Some d) (files s)) as [Hcmd Hexit].
  eexists now, s', _. split; [done |]. split; [by rewrite Hf, Hfm |].
  split; [done |]. split; [done |].
  split; [exact (prefix_lookup_Some _ _ _ _ Hpm Hpre) |]. done.
Qed.

Lemma uninstall_obliging this type target s fields items :
  obliging s ->
  stored_manifest (files s) = inr (VObj fields) ->
  entries fields (list_key type) = Some items ->
  Forall readable items ->
  exists now s',
    run (uninstall_method type this target) s = (inr true, s')
    /\ files s'
       = <[MANIFEST_FILE := JSON_stringify (filtered type target fields items now)]> (files s)
    /\ same_heap s s' /\ obliging s'.
Proof.
  intros Hob Hfile Hent Hread.
  destruct (obliging_next s Hob) as (out & err & exit & d & Hhd & Hd).
  destruct (uninstall_prompt this type target s fields items out err exit d Hhd)
    as (now & s' & p & H); [unfold INSTALLATION_TIMEOUT_MS; lia | by apply obliging_tl
                            | done | done | done |].
  exists now, s'. tauto.
Qed.

(** ** The manifest that is written is JSON *)

Lemma is_json_obj fields : is_json (VObj fields) -> json_fields fields = fields.
Proof. unfold is_json. rewrite to_json_obj. by intros [= H]. Qed.

Lemma entry_of_json type target t :
  json_item (entry_of type target (Some t)) = entry_of type target (Some t).
Proof. by destruct type. Qed.

Lemma map_fixed_Forall {A} (g : A -> A) l : map g l = l <-> Forall (fun x => g x = x) l.
Proof.
  induction l as [| x l IH]; simpl; [by split |]. split.
  - intros [= Hx Hl]. constructor; [done | by apply IH].
  - intros H. inversion H as [| x' l' Hx Hl]; subst. rewrite Hx. f_equal. by apply IH.
Qed.

Lemma json_item_defined x : json_item x = x -> x <> VUndefined.
Proof. by destruct x. Qed.

Lemma json_item_to_json x : json_item x = x -> to_json x = x.
Proof. by destruct x. Qed.

Lemma written_json type entry fields items now :
  json_fields fields = fields -> map json_item items = items -> json_item entry = entry ->
  to_json (written type entry fields items now) = written type entry fields items now.
Proof.
  intros Hf Hi He. unfold written. rewrite to_json_obj. f_equal.
  apply json_fields_set; [apply json_fields_set; [done | done |] | done | done].
  rewrite to_json_arr, map_app. simpl. by rewrite Hi, He.
Qed.

Lemma filtered_json type name fields items now :
  json_fields fields = fields -> map json_item items = items ->
  to_json (filtered type name fields items now) = filtered type name fields items now.
Proof.
  intros Hf Hi. unfold filtered. rewrite to_json_obj. f_equal.
  apply json_fields_set; [apply json_fields_set; [done | done |] | done | done].
  rewrite to_json_arr. f_equal. apply map_fixed_Forall.
  apply map_fixed_Forall in Hi. rewrite List.Forall_forall in Hi |- *.
  intros x Hx. apply Hi. by apply filter_In in Hx as [Hx _].
Qed.

Lemma stored_after_write fs fields :
  stored_manifest (<[MANIFEST_FILE := JSON_stringify (VObj fields)]> fs)
  = inr (to_json (VObj fields)).
Proof. unfold stored_manifest. by rewrite lookup_insert_eq. Qed.

Lemma entries_set fields k items now :
  k <> "lastUpdated" ->
  entries (assoc_set "lastUpdated" (VStr now) (assoc_set k (VArr items []) fields)) k
  = Some items.
Proof.
  intros Hk. unfold entries.
  by rewrite assoc_get_set_other, assoc_get_set_same by done.
Qed.

(** ** Listing in a container that answers promptly *)

Lemma listInstalled_obliging this s fields :
  obliging s ->
  stored_manifest (files s) = inr (VObj fields) ->
  exists i s1,
    run (listInstalled this) s = (inr i, s1)
    /\ (forall t, list_of t i
                  = js_or (default VUndefined (assoc_get (list_key t) fields)) (VArr [] []))
    /\ same_store s s1 /\ obliging s1.
Proof.
  intros Hob Hfile. rewrite listInstalled_run.
  destruct (getManifest_obliging s _ Hob Hfile) as (s1 & -> & Hsame & Hob1).
  cbn [get_prop]. eexists _, s1. split; [reflexivity |]. split; [by intros [] | done].
Qed.

Lemma list_of_entries fields t items i :
  list_of t i = js_or (default VUndefined (assoc_get (list_key t) fields)) (VArr [] []) ->
  entries fields (list_key t) = Some items ->
  list_of t i = VArr items [].
Proof. intros ->. apply entries_js_or. Qed.

(** * Installs, uninstalls and listings, one after the other *)



Lemma list_key_inj t t' : list_key t = list_key t' -> t = t'.
Proof. by destruct t, t'. Qed.

Lemma stored_written s1 fs type e fields items now :
  files s1 = <[MANIFEST_FILE := JSON_stringify (written type e fields items now)]> fs ->
  json_fields fields = fields -> entries fields (list_key type) = Some items ->
  json_item e = e ->
  stored_manifest (files s1) = inr (written type e fields items now).
Proof.
  intros Hf Hjson Hent He. rewrite Hf. unfold written at 1. rewrite stored_after_write.
  fold (written type e fields items now). f_equal.
  apply written_json; [done | by eapply entries_json | done].
Qed.





Lemma keeps_entry type target t : keeps type target (entry_of type target t) = false.
Proof.
  unfold keeps, other_entry. destruct type; simpl; by rewrite String.eqb_refl.
Qed.

Lemma entry_of_readable type target t : readable (entry_of type target t).
Proof. by destruct type. Qed.

Lemma json_written_fields type e fields items now :
  json_fields fields = fields -> entries fields (list_key type) = Some items ->
  json_item e = e ->
  json_fields (assoc_set "lastUpdated" (VStr now)
                 (assoc_set (list_key type) (VArr (items ++ [e]) []) fields))
  = assoc_set "lastUpdated" (VStr now)
      (assoc_set (list_key type) (VArr (items ++ [e]) []) fields).
Proof.
  intros Hjson Hent He.
  pose proof (written_json type e fields items now Hjson (entries_json _ _ _ Hjson Hent) He)
    as Hw.
  unfold written in Hw. rewrite to_json_obj in Hw. by injection Hw.
Qed.





(** * Manifests that are not as the manager writes them *)

(** An install whose [try] throws returns the job [failed], with the
    files as they were. *)
Lemma install_caught this type target s e s1 :
  run (install_try type (tag_of type) (install_command type) (entry_of type) target
         (length (jobs s))) (registered this type target s) = (inl e, s1) ->
  exists s' j,
    run (install_method type this target) s = (inr (length (jobs s)), s')
    /\ jobs s' !! length (jobs s) = Some j
    /\ Job.status j = failed
    /\ Job.error j = Some (error_message e)
    /\ files s' = files s.
Proof.
  intros Htry. rewrite install_method_unfold, install_run, Htry.
  pose proof (run_steady _ (registered this type target s)
                (install_try_steady type (tag_of type) (install_command type)
                   (entry_of type) target (length (jobs s)))) as Hst.
  rewrite Htry in Hst.
  destruct (Hst _ _ (registered_job this type target s)) as (j1 & Hj1 & _).
  destruct (install_catch_run (tag_of type) target _ e s1 j1 Hj1) as (Hj & Hfiles & _).
  eexists _, _. split; [reflexivity |]. split; [exact Hj |].
  split; [done |]. split; [done |].
  rewrite Hfiles.
  apply (run_writes_last _ _ _ _ (install_try_writes_last _ _ _ _ _ _) Htry).
Qed.

(** What [updateManifest] does with a manifest that is an array: the
    list and the date become named properties of the array, which
    [JSON.stringify] leaves out. *)
Lemma after_read_array type entry items s :
  obliging s ->
  exists s',
    run (after_read type entry (VArr items [])) s = (inr tt, s')
    /\ files s' = <[MANIFEST_FILE := JsonText (VArr (map json_item items) [])]> (files s)
    /\ same_heap s s'.
Proof.
  intros Hob.
  pose proof (run_off_heap _ s (after_read_off_heap type entry (VArr items []))) as Hheap.
  revert Hheap. unfold after_read.
  assert (exists extra, push_entry (VArr items []) (list_key type) entry
                        = inr (VArr items extra)) as [extra ->].
  { destruct type; eexists; reflexivity. }
  do 2 step. rewrite run_bind_lift. cbn [set_prop].
  destruct (obliging_next s Hob) as (out & err & exit & d & Hhd & _).
  destruct (start_sh_runs ("mkdir -p " ++ BACKUP_DIR) s out err exit (Some d) Hhd)
    as (s1 & Hh & _ & Hf1 & _ & _ & _ & _ & Hs1).
  rewrite run_bind_await, Hh. cbn [fst snd].
  assert (obliging s1) as Hob1 by (unfold obliging; rewrite Hs1; by apply obliging_tl).
  match goal with
  | |- context [StartProcess (EchoTo ?payload ?path)] =>
      destruct (start_echo_obliging payload path s1 Hob1) as (x & s2 & Hh2 & Hf2 & _)
  end.
  rewrite run_bind_await, Hh2. cbn [fst snd]. rewrite run_mret. cbn [fst snd].
  intros Hheap. exists s2. split; [done |]. split; [| done].
  by rewrite Hf2, Hf1.
Qed.

(** With a manifest that is neither an object nor an array it throws. *)
Lemma after_read_primitive type entry v s :
  ~ is_object v -> (forall items extra, v <> VArr items extra) ->
  exists e, run (after_read type entry v) s = (inl e, s).
Proof.
  intros Hobj Harr. unfold after_read. rewrite run_bind_lift.
  destruct v as [| | b | n | str | items extra | fields]; simpl; eauto.
  - by destruct (Harr items extra).
  - by destruct Hobj.
Qed.



Lemma filter_items_throws f items (x : value) e :
  In x items -> f x = inl e -> exists e', filter_items f items = inl e'.
Proof.
  intros Hin Hx. induction items as [| y items IH]; [done |]. simpl.
  destruct (f y) as [e0 | b] eqn:Hy; [eauto |].
  destruct Hin as [-> | Hin]; [congruence |].
  destruct (IH Hin) as [e' ->]. eauto.
Qed.

Lemma filter_entries_null fields type name items :
  entries fields (list_key type) = Some items -> In VNull items ->
  exists e, filter_entries (VObj fields) type name = inl e.
Proof.
  intros Hent Hin. apply entries_js_or in Hent. unfold filter_entries. simpl.
  rewrite Hent. simpl.
  destruct (filter_items_throws (other_entry type name) items VNull
              (TypeError ("Cannot read properties of null (reading '"
                            ++ entry_key type ++ "')")) Hin eq_refl) as [e ->].
  simpl. eauto.
Qed.



Lemma entries_fresh now type : entries (fresh_fields now) (list_key type) = Some [].
Proof. by destruct type. Qed.



(** * The routes *)

(** The two ends of an install: the job is [completed], without an error;
    or it is [failed], with the message of what was thrown, and the files
    are as they were. *)
Lemma install_outcome this type target s :
  exists s' j,
    run (install_method type this target) s = (inr (length (jobs s)), s')
    /\ jobs s' !! length (jobs s) = Some j
    /\ same_identity (new_job type target s) j
    /\ is_Some (Job.completedAt j)
    /\ (Job.status j = completed /\ Job.error j = None
        \/ Job.status j = failed /\ (exists e, Job.error j = Some (error_message e))
           /\ files s' = files s).
Proof.
  destruct (run (install_try type (tag_of type) (install_command type) (entry_of type)
                   target (length (jobs s))) (registered this type target s))
    as [[e | u] s1] eqn:Htry.
  - destruct (install_caught this type target s e s1 Htry)
      as (s' & j & Hrun & Hj & Hst & Herr & Hf).
    destruct (install_terminal this type (tag_of type) (install_command type)
                (entry_of type) target s) as (s'' & j' & Hrun' & Hj' & _ & Hc & Hid & _).
    rewrite <- install_method_unfold, Hrun in Hrun'. injection Hrun' as <-.
    rewrite Hj in Hj'. injection Hj' as <-.
    exists s', j. split; [done |]. split; [done |]. split; [done |]. split; [done |].
    right. eauto.
  - destruct (install_try_inr _ _ _ _ _ _ _ _ _ _ Htry (registered_job this type target s))
      as (out & err & exit & d & logs & now & sm & _ & _ & Hj & _).
    rewrite install_method_unfold, install_run, Htry.
    eexists _, _. split; [reflexivity |]. split; [exact Hj |].
    split; [by repeat split |]. split; [by eexists |]. by left.
Qed.

Lemma post_install_run type what field s :
  exists resp s',
    run (post_install type what (noun_of type) (install_method type) field) s
    = (inr resp, s')
    /\ match field with
       | None | Some "" => http_status resp = 400 /\ s' = s
       | Some target =>
           (http_status resp = 200
            /\ exists jobId startedAt completedAt output,
                 body resp
                 = InstallOkBody jobId type target completed
                     (noun_of type ++ " " ++ target ++ " installed successfully")
                     (Some startedAt) (Some completedAt) output)
           \/ (http_status resp = 500
               /\ (exists message jobId output,
                     body resp = InstallFailedBody (Some message) jobId output)
               /\ files s' = files s)
       end
    /\ forall fields items,
         obliging s -> stored_manifest (files s) = inr (VObj fields) ->
         entries fields (list_key type) = Some items ->
         field <> None -> field <> Some "" ->
         http_status resp = 200.
Proof.
  unfold post_install. destruct field as [[| c target] |].
  - rewrite run_mret. eexists _, _. split; [reflexivity |]. split; [done |].
    by intros fields items _ _ _ _ H.
  - set (name := String c target). rewrite run_bind.
    unfold new_InstallationManager. rewrite run_bind_perform, run_mret. state_simpl.
    set (this := {| activeJobs := length (maps s) |}).
    set (s0 := with_maps _ s).
    rewrite run_try_catch, run_bind_perform. state_simpl.
    set (s2 := with_console _ s0).
    rewrite run_bind.
    destruct (install_outcome this type name s2)
      as (s3 & j & Hrun & Hj & (Hid & Hty & Htg & Hstart) & [completedAt Hc] & Hcases).
    rewrite Hrun, run_bind, (run_deref _ _ _ Hj).
    destruct Hcases as [(Hst & Herr) | (Hst & (e & Herr) & Hf)];
      rewrite Hst; cbn [status_eqb]; rewrite run_mret;
      eexists _, _; (split; [reflexivity |]); cbn [http_status body].
    + split.
      * left. split; [done |]. rewrite Htg, Hstart, Hc. cbn [new_job Job.target Job.startedAt].
        eauto.
      * done.
    + split.
      * right. split; [done |]. rewrite Herr. eauto.
      * intros fields items Hob Hfile Hent _ _. exfalso.
        destruct (install_obliging this type name s2 fields items Hob Hfile Hent)
          as (s3' & j' & now & Hrun' & Hj' & Hst' & _).
        rewrite Hrun in Hrun'. injection Hrun' as <-.
        rewrite Hj in Hj'. injection Hj' as <-. congruence.
  - rewrite run_mret. eexists _, _. split; [reflexivity |]. split; [done |].
    by intros fields items _ _ _ H.
Qed.



(** ** The route that uninstalls *)

Lemma uninstall_method_run this type target s :
  exists b s', run (uninstall_method type this target) s = (inr b, s').
Proof.
  rewrite uninstall_method_unfold, uninstall_run.
  destruct (run (uninstall_try _ _ _ _) s) as [[e | b] s1]; eauto.
Qed.

Lemma capitalize_type_name type : capitalize (type_name type) = noun_of type.
Proof. by destruct type. Qed.

Lemma delete_plugins_run type name s :
  name <> "" ->
  run (delete_plugins (Some (type_name type)) (Some name)) s
  = match run (uninstall_method type {| activeJobs := length (maps s) |} name)
            (with_console
               (console s ++
                [(console_log,
                  "[API] Starting " ++ type_name type ++ " uninstallation: " ++ name, None)])
               (with_maps (maps s ++ [[]]) s)) with
    | (inr true, s1) =>
        (inr {| reply_status := 200;
                reply_body :=
                  DeleteResultBody true
                    (noun_of type ++ " " ++ name ++ " uninstalled successfully") |}, s1)
    | (inr false, s1) =>
        (inr {| reply_status := 500;
                reply_body :=
                  DeleteResultBody false
                    ("Failed to uninstall " ++ type_name type ++ ": " ++ name) |}, s1)
    | (inl e, s1) =>
        (inr {| reply_status := 500; reply_body := DeleteErrorBody (error_message e) |}, s1)
    end.
Proof.
  intros Hname. unfold delete_plugins.
  assert (String.eqb (type_name type) "" || String.eqb name "" = false) as ->.
  { apply orb_false_iff. split; [by destruct type | by apply String.eqb_neq]. }
  assert (negb (includes ["plugin"; "skill"] (type_name type)) = false) as ->
    by (by destruct type).
  unfold new_InstallationManager. rewrite run_bind, run_bind_perform, run_mret. state_simpl.
  rewrite run_try_catch, run_bind_perform. state_simpl. rewrite run_bind.
  assert ((if String.eqb (type_name type) "plugin"
           then uninstallPlugin {| activeJobs := length (maps s) |} name
           else uninstallSkill {| activeJobs := length (maps s) |} name)
          = uninstall_method type {| activeJobs := length (maps s) |} name) as ->
    by (by destruct type).
  destruct (run (uninstall_method type _ name) _) as [[e | [|]] s1]; [done | |].
  - cbn [negb]. by rewrite run_mret, capitalize_type_name.
  - cbn [negb]. by rewrite run_mret.
Qed.

(** X14.  The route that uninstalls checks its parameters before it does
    anything.  [DELETE /plugins/:type/:name] always answers; it answers
    400 exactly when a parameter is missing or empty or the type is
    neither [plugin] nor [skill], in these letters; and when it answers
    400, no manager was made, no process was started and nothing was
    logged: the state is as it was. *)
Theorem delete_route_checks_before_acting (type name : option string) (s : State) :
  let valid :=
    match type, name with
    | Some t, Some n =>
        negb (String.eqb n "") && (String.eqb t "plugin" || String.eqb t "skill")
    | _, _ => false
    end in
  exists resp s',
    run (delete_plugins type name) s = (inr resp, s')
    /\ (reply_status resp = 400 <-> valid = false)
    /\ (reply_status resp = 400 -> s' = s).
Proof.
  intros valid. subst valid.
  destruct type as [t |]; [| by eexists _, _].
  destruct name as [n |]; [| by eexists _, _].
  destruct (String.eqb n "") eqn:Hn.
  { unfold delete_plugins. rewrite Hn, orb_true_r. by eexists _, _. }
  cbn [negb andb]. apply String.eqb_neq in Hn.
  destruct (String.eqb t "plugin") eqn:Hp.
  { apply String.eqb_eq in Hp as ->. cbn [orb].
    change (Some "plugin") with (Some (type_name plugin)).
    rewrite (delete_plugins_run plugin n s Hn).
    destruct (uninstall_method_run {| activeJobs := length (maps s) |} plugin n
                (with_console
                   (console s ++
                    [(console_log,
                      "[API] Starting " ++ type_name plugin ++ " uninstallation: " ++ n,
                      None)])
                   (with_maps (maps s ++ [[]]) s))) as (b & s1 & ->).
    destruct b; eexists _, _; (split; [reflexivity |]); by cbn [reply_status]. }
  destruct (String.eqb t "skill") eqn:Hs.
  { apply String.eqb_eq in Hs as ->. cbn [orb].
    change (Some "skill") with (Some (type_name skill)).
    rewrite (delete_plugins_run skill n s Hn).
    destruct (uninstall_method_run {| activeJobs := length (maps s) |} skill n
                (with_console
                   (console s ++
                    [(console_log,
                      "[API] Starting " ++ type_name skill ++ " uninstallation: " ++ n,
                      None)])
                   (with_maps (maps s ++ [[]]) s))) as (b & s1 & ->).
    destruct b; eexists _, _; (split; [reflexivity |]); by cbn [reply_status]. }
  cbn [orb]. unfold delete_plugins.
  destruct (String.eqb t "") eqn:Ht.
  { by eexists _, _. }
  cbn [orb]. rewrite (proj2 (String.eqb_neq n "") Hn).
  unfold includes. cbn [existsb]. rewrite Hp, Hs. cbn [orb negb].
  by eexists _, _.
Qed.

Lemma delete_route_checks_before_acting_witness :
  exists resp,
    run (delete_plugins (Some "Plugin") (Some "alpha")) (sample_container [])
    = (inr resp, sample_container [])
    /\ reply_status resp = 400.
Proof.
  destruct (delete_route_checks_before_acting (Some "Plugin") (Some "alpha")
              (sample_container [])) as (resp & s' & Hrun & Hiff & Hsame).
  assert (reply_status resp = 400) as H400 by (apply Hiff; reflexivity).
  exists resp. split; [| exact H400].
  rewrite Hrun. f_equal. exact (Hsame H400).
Defined.



(** ** The route that lists *)

Lemma listInstalled_fresh this s e :
  obliging s -> stored_manifest (files s) = inl e ->
  exists s1, run (listInstalled this) s = (inr no_lists, s1).
Proof.
  intros Hob He. rewrite listInstalled_run.
  destruct (getManifest_obliging_fresh s e Hob He) as (now & s1 & -> & _).
  by eexists.
Qed.

(** X16.  The route that lists.  With a runtime in which the sum of the
    lengths of two arrays is the number of their items, in a container
    that answers promptly, [GET /plugins] answers 200 with the two lists
    of the manifest and the number of their entries as [total], when the
    manifest is an object whose lists are arrays or missing; and it
    answers 200 with two empty lists and the total 0 when the manifest
    file cannot be parsed. *)
Theorem list_route_counts (length_sum : value -> value -> result value) (s : State) :
  (forall ps ss,
     length_sum (VArr ps []) (VArr ss [])
     = inr (VNum (Z.of_nat (length ps + length ss)))) ->
  obliging s ->
  (forall e,
     stored_manifest (files s) = inl e ->
     (run (get_plugins length_sum) s).1
     = inr {| reply_status := 200;
              reply_body := ListOkBody (VArr [] []) (VArr [] []) (VNum 0) |})
  /\ (forall fields ps ss,
        stored_manifest (files s) = inr (VObj fields) ->
        entries fields "plugins" = Some ps ->
        entries fields "skills" = Some ss ->
        (run (get_plugins length_sum) s).1
        = inr {| reply_status := 200;
                 reply_body :=
                   ListOkBody (VArr ps []) (VArr ss [])
                     (VNum (Z.of_nat (length ps + length ss))) |}).
Proof.
  intros Hsum Hob. unfold get_plugins, new_InstallationManager.
  rewrite run_try_catch, run_bind, run_bind_perform, run_mret. state_simpl.
  set (this := {| activeJobs := length (maps s) |}).
  set (s0 := with_maps _ s).
  rewrite run_bind. split.
  - intros e He.
    destruct (listInstalled_fresh this s0 e Hob He) as (s1 & ->).
    rewrite run_bind_lift. cbn [plugins skills no_lists]. rewrite (Hsum [] []).
    by rewrite run_mret.
  - intros fields ps ss Hfile Hps Hss.
    destruct (listInstalled_obliging this s0 fields Hob Hfile) as (i & s1 & -> & Hlist & _).
    pose proof (list_of_entries fields plugin ps i (Hlist plugin) Hps) as Hp.
    pose proof (list_of_entries fields skill ss i (Hlist skill) Hss) as Hs.
    cbn [list_of] in Hp, Hs. rewrite run_bind_lift, Hp, Hs, Hsum. by rewrite run_mret.
Qed.

Lemma list_route_counts_witness :
  (run (get_plugins array_length_sum) (sample_container [])).1
  = inr {| reply_status := 200;
           reply_body :=
             ListOkBody (VArr sample_plugins [])
               (VArr [SkillManifest "gamma" (Some "2023-11-14T22:13:20.123Z")] [])
               (VNum 3) |}
  /\ (run (get_plugins array_length_sum)
        (with_files {[ MANIFEST_FILE := Plain "not json" ]} (sample_container []))).1
     = inr {| reply_status := 200;
              reply_body := ListOkBody (VArr [] []) (VArr [] []) (VNum 0) |}.
Proof.
  split.
  - destruct (list_route_counts array_length_sum (sample_container []))
      as [_ Hlists]; [reflexivity | constructor |].
    apply (Hlists sample_fields sample_plugins
             [SkillManifest "gamma" (Some "2023-11-14T22:13:20.123Z")]).
    + vm_compute. reflexivity.
    + reflexivity.
    + reflexivity.
  - destruct (list_route_counts array_length_sum
                (with_files {[ MANIFEST_FILE := Plain "not json" ]} (sample_container [])))
      as [Hfresh _]; [reflexivity | constructor |].
    eapply Hfresh. vm_compute. reflexivity.
Defined.

(** * Locating JSON in the output of a command *)

Lemma through_last_close_None s :
  through_last_close s = None <-> has_char "}" s = false.
Proof.
  induction s as [| c s IH]; cbn [through_last_close has_char]; [done |].
  destruct (through_last_close s) as [m |].
  - split; [done |]. intros H. apply orb_false_iff in H as [_ H]. by apply IH in H.
  - rewrite (proj1 IH eq_refl), orb_false_r. rewrite (Ascii.eqb_sym "}"%char c).
    by destruct (Ascii.eqb c "}").
Qed.

Lemma through_last_close_Some s m :
  through_last_close s = Some m <->
  exists body post, s = body ++ "}" ++ post /\ m = body ++ "}" /\ has_char "}" post = false.
Proof.
  split.
  - revert m. induction s as [| c s IH]; intros m; cbn [through_last_close]; [done |].
    destruct (through_last_close s) as [m' |] eqn:Hs.
    + intros [= <-]. destruct (IH m' eq_refl) as (body & post & -> & -> & Hpost).
      by exists (String c body), post.
    + destruct (Ascii.eqb c "}") eqn:Hc; [| done]. intros [= <-].
      apply Ascii.eqb_eq in Hc as ->. exists "", s. split; [done |]. split; [done |].
      by apply through_last_close_None.
  - intros (body & post & -> & -> & Hpost). induction body as [| c body IH].
    + change (through_last_close (String "}" post) = Some "}").
      cbn [through_last_close].
      by rewrite (proj2 (through_last_close_None post) Hpost), Ascii.eqb_refl.
    + change (through_last_close (String c (body ++ "}" ++ post))
              = Some (String c (body ++ "}"))).
      cbn [through_last_close]. by rewrite IH.
Qed.

Lemma json_match_close s m : json_match s = Some m -> has_char "}" s = true.
Proof.
  induction s as [| c s IH]; cbn [json_match has_char]; [done |].
  destruct (Ascii.eqb c "{").
  - destruct (through_last_close s) as [m' |] eqn:Hs.
    + intros _. destruct (has_char "}" s) eqn:Hh; [by rewrite orb_true_r |].
      apply through_last_close_None in Hh. congruence.
    + intros H. by rewrite (IH H), orb_true_r.
  - intros H. by rewrite (IH H), orb_true_r.
Qed.

(** X17.  What the device routes take for the JSON in the output of the
    CLI is the part of the output from its first opening brace to its last
    closing brace, and there is a match exactly when a closing brace comes
    after the first opening one.  The match is not the first balanced
    object: a closing brace in a later line of the output is taken in. *)
Theorem json_match_first_open_to_last_close (s m : string) :
  json_match s = Some m <->
  exists pre body post,
    s = pre ++ "{" ++ body ++ "}" ++ post
    /\ m = "{" ++ body ++ "}"
    /\ has_char "{" pre = false /\ has_char "}" post = false.
Proof.
  split.
  - revert m. induction s as [| c s IH]; intros m; cbn [json_match]; [done |].
    destruct (Ascii.eqb c "{") eqn:Hc.
    + apply Ascii.eqb_eq in Hc as ->.
      destruct (through_last_close s) as [m' |] eqn:Hs.
      * intros [= <-]. apply through_last_close_Some in Hs as (body & post & -> & -> & Hp).
        by exists "", body, post.
      * intros H. apply json_match_close in H. apply through_last_close_None in Hs.
        congruence.
    + intros H. destruct (IH m H) as (pre & body & post & -> & -> & Hpre & Hpost).
      exists (String c pre), body, post. split; [done |]. split; [done |]. split; [| done].
      cbn [has_char]. by rewrite (Ascii.eqb_sym "{"%char c), Hc.
  - intros (pre & body & post & -> & -> & Hpre & Hpost).
    induction pre as [| c pre IH].
    + change (json_match (String "{" (body ++ "}" ++ post)) = Some (String "{" (body ++ "}"))).
      cbn [json_match]. rewrite Ascii.eqb_refl.
      assert (through_last_close (body ++ "}" ++ post) = Some (body ++ "}")) as ->; [| done].
      apply through_last_close_Some. by exists body, post.
    + cbn [has_char] in Hpre. apply orb_false_iff in Hpre as [Hc Hpre].
      change (json_match (String c (pre ++ "{" ++ body ++ "}" ++ post))
              = Some ("{" ++ body ++ "}")).
      cbn [json_match]. rewrite (Ascii.eqb_sym c "{"%char), Hc. by apply IH.
Qed.

Example json_match_sample :
  json_match "warn: retry {1} pending: {2} done }" = Some "{1} pending: {2} done }"
  /\ json_match "no braces here" = None
  /\ json_match "} before {" = None.
Proof. done. Qed.

